(** * The AI Employee vault: orchestrator passes, weekly audit, watchers

    A shallow embedding of [orchestrator.py], [scripts/weekly_audit.py],
    [watchers/base_watcher.py], [watchers/filesystem_watcher.py] and
    [watchers/gmail_watcher.py].

    Conventions of the embedding.
    - A Python [str] is a Rocq [string]; one [ascii] is one character.  The
      character classes ([str.lower], [str.isspace], [str.isalnum], [\d], [\s])
      are those of Python on the ASCII range; a byte above 127 belongs to no
      class and is left alone by [lower].
    - A naive [datetime] is a point of the proleptic Gregorian time line, in
      microseconds since 0001-01-01T00:00:00.  Subtraction, comparison and
      [timedelta.days] are then integer arithmetic, as in CPython.
    - The vault is a record of directories; a directory is a finite map from
      file names to files and may be absent.  Directories hold regular files
      only, names are compared as on a POSIX file system, and a path is
      written as its file name.  Dashboard.md, when it is there, is text.
    - [datetime.now()] reads an oracle: the [n]-th reading of the clock since
      the world began is [clock w n].
    - Code that can raise runs in a state-and-exception monad over the world;
      logger calls, log-file appends and file moves are recorded in a trace. *)

From Stdlib Require Import ZArith String Ascii List Lia.
From stdpp Require Import gmap strings list fin_maps pretty.

Local Open Scope Z_scope.

(** ** Python string operations *)

Module PyStr.

Definition NL : ascii := "010"%char.

(** [str.isspace] on the ASCII range. *)
Definition isspace (c : ascii) : bool :=
  let n := nat_of_ascii c in
  ((9 <=? n) && (n <=? 13) || (28 <=? n) && (n <=? 32))%nat.

Definition isdigit (c : ascii) : bool :=
  let n := nat_of_ascii c in ((48 <=? n) && (n <=? 57))%nat.

Definition isupper (c : ascii) : bool :=
  let n := nat_of_ascii c in ((65 <=? n) && (n <=? 90))%nat.

Definition islower (c : ascii) : bool :=
  let n := nat_of_ascii c in ((97 <=? n) && (n <=? 122))%nat.

Definition isalnum (c : ascii) : bool := isdigit c || isupper c || islower c.

Definition lower_char (c : ascii) : ascii :=
  if isupper c then ascii_of_nat (nat_of_ascii c + 32) else c.

Fixpoint lower (s : string) : string :=
  match s with
  | EmptyString => EmptyString
  | String c s' => String (lower_char c) (lower s')
  end.

Fixpoint filter (p : ascii -> bool) (s : string) : string :=
  match s with
  | EmptyString => EmptyString
  | String c s' => if p c then String c (filter p s') else filter p s'
  end.

(** [s.startswith(p)] *)
Definition startswith (p s : string) : bool := String.prefix p s.

Fixpoint drop (n : nat) (s : string) : string :=
  match n, s with
  | O, _ => s
  | S _, EmptyString => EmptyString
  | S n', String _ s' => drop n' s'
  end.

(** [s[:n]] *)
Fixpoint take (n : nat) (s : string) : string :=
  match n, s with
  | O, _ => EmptyString
  | S _, EmptyString => EmptyString
  | S n', String c s' => String c (take n' s')
  end.

(** [s.endswith(p)] *)
Definition endswith (p s : string) : bool :=
  (String.length p <=? String.length s)%nat
  && String.eqb (drop (String.length s - String.length p) s) p.

(** [p in s] *)
Fixpoint contains (p s : string) : bool :=
  startswith p s ||
  match s with
  | EmptyString => false
  | String _ s' => contains p s'
  end.

Fixpoint lstrip (s : string) : string :=
  match s with
  | EmptyString => EmptyString
  | String c s' => if isspace c then lstrip s' else s
  end.

Fixpoint rstrip (s : string) : string :=
  match s with
  | EmptyString => EmptyString
  | String c s' =>
      match rstrip s' with
      | EmptyString => if isspace c then EmptyString else String c EmptyString
      | r => String c r
      end
  end.

Definition strip (s : string) : string := rstrip (lstrip s).

(** [s.split(sep)] for a one-character separator: never the empty list. *)
Fixpoint split (sep : ascii) (s : string) : list string :=
  match s with
  | EmptyString => [EmptyString]
  | String c s' =>
      if Ascii.eqb c sep then EmptyString :: split sep s'
      else match split sep s' with
           | [] => [String c EmptyString]
           | w :: ws => String c w :: ws
           end
  end.

(** [s.split(sep, 1)[1]]: what follows the first separator, if there is one. *)
Fixpoint after_first (sep : ascii) (s : string) : option string :=
  match s with
  | EmptyString => None
  | String c s' => if Ascii.eqb c sep then Some s' else after_first sep s'
  end.

(** [s.replace(old, new)] for a non-empty [old]: occurrences are taken from
    the left and do not overlap.  [skip] counts the characters of the
    occurrence being replaced that are still to be passed over. *)
Fixpoint replace_go (old new : string) (skip : nat) (s : string) : string :=
  match s with
  | EmptyString => EmptyString
  | String c s' =>
      match skip with
      | S k => replace_go old new k s'
      | O =>
          if startswith old s
          then new +:+ replace_go old new (String.length old - 1) s'
          else String c (replace_go old new O s')
      end
  end.

Definition replace (old new s : string) : string := replace_go old new O s.

(** [s.rfind(c)]: index of the last occurrence. *)
Fixpoint rfind (c : ascii) (s : string) : option nat :=
  match s with
  | EmptyString => None
  | String d s' =>
      match rfind c s' with
      | Some i => Some (S i)
      | None => if Ascii.eqb d c then Some O else None
      end
  end.

(** [s[-1]], when there is one. *)
Fixpoint last_char (s : string) : option ascii :=
  match s with
  | EmptyString => None
  | String c EmptyString => Some c
  | String _ s' => last_char s'
  end.

(** The one-character string made of a double quote. *)
Definition DQUOTE : string := String (ascii_of_nat 34) EmptyString.

(** [str(n)] for a non-negative count. *)
Definition of_nat (n : nat) : string := pretty n.

Definition of_Z (n : Z) : string := pretty n.

(** [f'{n:0{w}d}'] for [0 <= n]. *)
Definition zfill (w : nat) (n : Z) : string :=
  let d := of_Z n in
  String.concat "" (repeat "0"%string (w - String.length d)) +:+ d.

(** The digits of [f'{n:,}']: a comma before every group of three digits
    counted from the right. *)
Fixpoint group3 (s : string) : string :=
  match s with
  | EmptyString => EmptyString
  | String c s' =>
      let r := group3 s' in
      if ((String.length s' mod 3 =? 0) && negb (String.length s' =? 0))%nat
      then String c (String ","%char r)
      else String c r
  end.

Definition with_commas (n : nat) : string := group3 (of_nat n).

(** [str(x)] of an optional string: [None] prints as the word None. *)
Definition of_option (o : option string) : string :=
  match o with Some s => s | None => "None" end.

Definition upper_char (c : ascii) : ascii :=
  if islower c then ascii_of_nat (nat_of_ascii c - 32) else c.

(** [s.title()]: a letter that follows a letter is lowered, any other letter
    is raised; [prev_cased] tells whether the character before was a letter. *)
Fixpoint title_go (prev_cased : bool) (s : string) : string :=
  match s with
  | EmptyString => EmptyString
  | String c s' =>
      String (if prev_cased then lower_char c else upper_char c)
             (title_go (isupper c || islower c) s')
  end.

Definition title (s : string) : string := title_go false s.

End PyStr.

(** ** Naive datetimes *)

Module PyDatetime.

(** Microseconds since 0001-01-01T00:00:00. *)
Definition datetime := Z.

Definition US_PER_SECOND : Z := 1000000.
Definition US_PER_DAY : Z := 86400 * US_PER_SECOND.

(** [timedelta(days=n)] *)
Definition timedelta_days (n : Z) : Z := n * US_PER_DAY.

(** [(a - b).days]: timedeltas are normalised with a floor division. *)
Definition days (delta : Z) : Z := delta / US_PER_DAY.

(** [d.toordinal()]: 0001-01-01 is day 1. *)
Definition toordinal (d : datetime) : Z := d / US_PER_DAY + 1.

(** [d.weekday()]: Monday is 0. *)
Definition weekday (d : datetime) : Z := (toordinal d + 6) mod 7.

Definition days_in_month (m : Z) : Z :=
  nth (Z.to_nat m) [-1; 31; 28; 31; 30; 31; 30; 31; 31; 30; 31; 30; 31] 0.

Definition days_before_month (m : Z) : Z :=
  nth (Z.to_nat m) [-1; 0; 31; 59; 90; 120; 151; 181; 212; 243; 273; 304; 334] 0.

(** CPython's [_ord2ymd]: ordinal day to (year, month, day). *)
Definition ord2ymd (n0 : Z) : Z * Z * Z :=
  let n := n0 - 1 in
  let n400 := n / 146097 in let n := n mod 146097 in
  let n100 := n / 36524 in let n := n mod 36524 in
  let n4 := n / 1461 in let n := n mod 1461 in
  let n1 := n / 365 in let n := n mod 365 in
  let year := n400 * 400 + 1 + n100 * 100 + n4 * 4 + n1 in
  if (n1 =? 4) || (n100 =? 4) then (year - 1, 12, 31)
  else
    let leapyear := (n1 =? 3) && (negb (n4 =? 24) || (n100 =? 3)) in
    let month := Z.shiftr (n + 50) 5 in
    let preceding :=
      days_before_month month + (if (2 <? month) && leapyear then 1 else 0) in
    if n <? preceding then
      let month' := month - 1 in
      let preceding' :=
        preceding
        - (days_in_month month' + (if (month' =? 2) && leapyear then 1 else 0)) in
      (year, month', n - preceding' + 1)
    else (year, month, n - preceding + 1).

Definition year (d : datetime) : Z := fst (fst (ord2ymd (toordinal d))).
Definition month (d : datetime) : Z := snd (fst (ord2ymd (toordinal d))).
Definition day (d : datetime) : Z := snd (ord2ymd (toordinal d)).
Definition hour (d : datetime) : Z := (d mod US_PER_DAY) / (3600 * US_PER_SECOND).
Definition minute (d : datetime) : Z := (d / (60 * US_PER_SECOND)) mod 60.
Definition second (d : datetime) : Z := (d / US_PER_SECOND) mod 60.
Definition microsecond (d : datetime) : Z := d mod US_PER_SECOND.

(** [d.strftime('%Y-%m-%d')] *)
Definition strftime_date (d : datetime) : string :=
  PyStr.zfill 4 (year d) +:+ "-" +:+ PyStr.zfill 2 (month d) +:+ "-"
  +:+ PyStr.zfill 2 (day d).

(** [d.strftime('%Y%m%d_%H%M%S')] *)
Definition strftime_stamp (d : datetime) : string :=
  PyStr.zfill 4 (year d) +:+ PyStr.zfill 2 (month d) +:+ PyStr.zfill 2 (day d)
  +:+ "_" +:+ PyStr.zfill 2 (hour d) +:+ PyStr.zfill 2 (minute d)
  +:+ PyStr.zfill 2 (second d).

(** [d.isoformat()]: the fraction is printed only when it is not zero. *)
Definition isoformat (d : datetime) : string :=
  strftime_date d +:+ "T" +:+ PyStr.zfill 2 (hour d) +:+ ":"
  +:+ PyStr.zfill 2 (minute d) +:+ ":" +:+ PyStr.zfill 2 (second d)
  +:+ (if microsecond d =? 0 then "" else "." +:+ PyStr.zfill 6 (microsecond d)).

(** [datetime(y, m, d, hh, mm, ss, us)] for a valid civil date, by CPython's
    [_ymd2ord]. *)
Definition is_leap (y : Z) : bool :=
  (y mod 4 =? 0) && (negb (y mod 100 =? 0) || (y mod 400 =? 0)).

Definition ymd2ord (y m d : Z) : Z :=
  let y1 := y - 1 in
  y1 * 365 + y1 / 4 - y1 / 100 + y1 / 400
  + days_before_month m + (if (2 <? m) && is_leap y then 1 else 0) + d.

Definition mk (y m d hh mm ss us : Z) : datetime :=
  (ymd2ord y m d - 1) * US_PER_DAY + ((hh * 60 + mm) * 60 + ss) * US_PER_SECOND + us.

End PyDatetime.

(** ** The vault and its effects *)

Module Vault.
Import PyDatetime.

(** The record folders of the vault. *)
Inductive folder :=
| Needs_Action | Done | Pending_Approval | Approved | Rejected | Plans.

Global Instance folder_eq_dec : EqDecision folder.
Proof. solve_decision. Defined.

Definition folder_code (f : folder) : nat :=
  match f with
  | Needs_Action => 0 | Done => 1 | Pending_Approval => 2
  | Approved => 3 | Rejected => 4 | Plans => 5
  end%nat.

Definition folder_of_code (n : nat) : option folder :=
  match n with
  | 0 => Some Needs_Action | 1 => Some Done | 2 => Some Pending_Approval
  | 3 => Some Approved | 4 => Some Rejected | 5 => Some Plans
  | _ => None
  end%nat.

Global Instance folder_countable : Countable folder.
Proof.
  refine (inj_countable folder_code folder_of_code _); by intros [].
Defined.

(** A file: its text, [None] when the bytes are not valid UTF-8 (so that
    [read_text(encoding='utf-8')] raises), and the local time that
    [datetime.fromtimestamp(f.stat().st_mtime)] yields. *)
Record file := File { text : option string; mtime : datetime }.

(** [dirs !! f = None]: the directory does not exist.  [logs] is the Logs
    directory (log files are plain text), [dashboard] is Dashboard.md. *)
Record vault := MkVault {
  dirs : gmap folder (gmap string file);
  logs : option (gmap string string);
  dashboard : option string
}.

Inductive exn :=
| FileNotFoundError | UnicodeDecodeError | TypeError | ValueError | KeyError.

Inductive level := DEBUG | INFO | ERROR.

(** What a run leaves behind besides the vault: logger records (message and,
    for [except Exception as e], the exception formatted into it), lines
    appended to a log file, and moves between folders. *)
Inductive effect :=
| Logger (lvl : level) (msg : string) (exc : option exn)
| Appended (logfile entry : string)
| Moved (src dst : folder) (name : string).

Record world := MkWorld {
  fs : vault;
  clock : nat -> datetime;
  ticks : nat;
  trace : list effect
}.

Inductive result (A : Type) :=
| Ok (a : A)
| Raise (e : exn).
Global Arguments Ok {A} a.
Global Arguments Raise {A} e.

Definition M (A : Type) : Type := world -> result A * world.

Global Instance M_ret : MRet M := fun A a w => (Ok a, w).

Global Instance M_bind : MBind M := fun A B f m w =>
  match m w with
  | (Ok a, w') => f a w'
  | (Raise e, w') => (Raise e, w')
  end.

Definition raise {A} (e : exn) : M A := fun w => (Raise e, w).

(** [try: body  except Exception as e: handler(e)] *)
Definition try_except {A} (body : M A) (handler : exn -> M A) : M A := fun w =>
  match body w with
  | (Ok a, w') => (Ok a, w')
  | (Raise e, w') => handler e w'
  end.

Definition get_fs : M vault := fun w => (Ok (fs w), w).

Definition put_fs (v : vault) : M unit := fun w =>
  (Ok tt, MkWorld v (clock w) (ticks w) (trace w)).

Definition emit (e : effect) : M unit := fun w =>
  (Ok tt, MkWorld (fs w) (clock w) (ticks w) (trace w ++ [e])).

(** [datetime.now()] *)
Definition now : M datetime := fun w =>
  (Ok (clock w (ticks w)), MkWorld (fs w) (clock w) (S (ticks w)) (trace w)).

Definition logger_info (msg : string) : M unit := emit (Logger INFO msg None).
Definition logger_debug (msg : string) (e : exn) : M unit :=
  emit (Logger DEBUG msg (Some e)).
Definition logger_error (msg : string) (e : exn) : M unit :=
  emit (Logger ERROR msg (Some e)).

(** [for x in xs: body(x)] *)
Fixpoint for_each {A} (xs : list A) (body : A -> M unit) : M unit :=
  match xs with
  | [] => mret tt
  | x :: xs' => body x ;; for_each xs' body
  end.

(** The pattern [*.md] of [Path.glob]. *)
Definition is_md (name : string) : bool := PyStr.endswith ".md" name.

Definition listdir (d : gmap string file) : list string := (map_to_list d).*1.

Definition glob_md_dir (d : option (gmap string file)) : list string :=
  match d with
  | Some d => List.filter is_md (listdir d)
  | None => []
  end.

(** [list(folder.glob('*.md'))]; an absent directory has no matches. *)
Definition glob_md (f : folder) : M (list string) :=
  v ← get_fs; mret (glob_md_dir (dirs v !! f)).

(** [folder.exists()] *)
Definition exists_dir (f : folder) : M bool :=
  v ← get_fs; mret (bool_decide (is_Some (dirs v !! f))).

Definition lookup_file (v : vault) (f : folder) (name : string) : option file :=
  d ← dirs v !! f; d !! name.

(** [(folder / name).read_text(encoding='utf-8')] *)
Definition read_text (f : folder) (name : string) : M string :=
  v ← get_fs;
  match lookup_file v f name with
  | None => raise FileNotFoundError
  | Some x =>
      match text x with
      | None => raise UnicodeDecodeError
      | Some s => mret s
      end
  end.

(** [datetime.fromtimestamp((folder / name).stat().st_mtime)] *)
Definition stat_mtime (f : folder) (name : string) : M datetime :=
  v ← get_fs;
  match lookup_file v f name with
  | None => raise FileNotFoundError
  | Some x => mret (mtime x)
  end.

(** [(folder / name).write_text(content, encoding='utf-8')]: creates the file
    or replaces its content; the modification time is the clock's. *)
Definition write_text (f : folder) (name content : string) : M unit :=
  v ← get_fs;
  match dirs v !! f with
  | None => raise FileNotFoundError
  | Some d =>
      t ← now;
      put_fs (MkVault (<[f := <[name := File (Some content) t]> d]> (dirs v))
                      (logs v) (dashboard v))
  end.

(** [shutil.move(str(src / name), str(dst / name))]: a rename that replaces a
    file of the same name in [dst]; content and modification time travel
    with the file. *)
Definition shutil_move (src dst : folder) (name : string) : M unit :=
  v ← get_fs;
  match dirs v !! src with
  | None => raise FileNotFoundError
  | Some s =>
      match s !! name, dirs v !! dst with
      | Some x, Some _ =>
          let ds := <[src := delete name s]> (dirs v) in
          put_fs (MkVault (<[dst := <[name := x]> (default ∅ (ds !! dst))]> ds)
                          (logs v) (dashboard v)) ;;
          emit (Moved src dst name)
      | _, _ => raise FileNotFoundError
      end
  end.

(** [folder.mkdir(parents=True, exist_ok=True)] for a record folder. *)
Definition mkdir (f : folder) : M unit :=
  v ← get_fs;
  match dirs v !! f with
  | Some _ => mret tt
  | None => put_fs (MkVault (<[f := ∅]> (dirs v)) (logs v) (dashboard v))
  end.

(** The same for the Logs directory. *)
Definition mkdir_logs : M unit :=
  v ← get_fs;
  match logs v with
  | Some _ => mret tt
  | None => put_fs (MkVault (dirs v) (Some ∅) (dashboard v))
  end.

End Vault.

(** ** The regular expressions of the dashboard update *)

Module Re.
Import PyStr.

(** The patterns of [update_dashboard] are sequences of three kinds of
    atoms: a literal, [.*] (any run of characters other than a newline) and
    [\d+]. *)
Inductive atom :=
| Lit (s : string)
| DotStar
| Digits.

Definition regex := list atom.

(** The remainders of [s] after [.*], longest match first. *)
Fixpoint dotstar (s : string) : list string :=
  match s with
  | EmptyString => [EmptyString]
  | String c s' => if Ascii.eqb c NL then [s] else dotstar s' ++ [s]
  end.

Fixpoint digits_star (s : string) : list string :=
  match s with
  | EmptyString => [EmptyString]
  | String c s' => if isdigit c then digits_star s' ++ [s] else [s]
  end.

(** The remainders of [s] after one atom, in the order a backtracking
    matcher tries them (greedy). *)
Definition match_atom (a : atom) (s : string) : list string :=
  match a with
  | Lit l => if startswith l s then [drop (String.length l) s] else []
  | DotStar => dotstar s
  | Digits =>
      match s with
      | String c s' => if isdigit c then digits_star s' else []
      | EmptyString => []
      end
  end.

Fixpoint match_re (r : regex) (s : string) : list string :=
  match r with
  | [] => [s]
  | a :: r' => flat_map (match_re r') (match_atom a s)
  end.

(** The match of [r] at the start of [s]: what is left after it. *)
Definition match_here (r : regex) (s : string) : option string :=
  head (match_re r s).

(** [re.sub(r, repl, s)] for a pattern that cannot match the empty string
    and a replacement without backslashes: matches are taken from the left
    and do not overlap.  [skip] counts the characters of the current match
    still to be passed over. *)
Fixpoint sub_go (r : regex) (repl : string) (skip : nat) (s : string) : string :=
  match s with
  | EmptyString => EmptyString
  | String c s' =>
      match skip with
      | S k => sub_go r repl k s'
      | O =>
          match match_here r s with
          | Some rest =>
              repl +:+ sub_go r repl (String.length s - String.length rest - 1) s'
          | None => String c (sub_go r repl O s')
          end
      end
  end.

Definition sub (r : regex) (repl : string) (s : string) : string :=
  sub_go r repl O s.

End Re.

(** ** orchestrator.py *)

Module Orchestrator.
Import PyStr PyDatetime Vault Re.

(** [_ensure_directories].  The Briefings folder, which the orchestrator
    creates here and never uses again, is not part of the vault. *)
Definition _ensure_directories : M unit :=
  for_each [Needs_Action; Done; Pending_Approval; Approved; Rejected; Plans] mkdir ;;
  mkdir_logs.

(** [check_needs_action] *)
Definition check_needs_action : M (list string) :=
  e ← exists_dir Needs_Action;
  if negb e then mret [] else glob_md Needs_Action.

(** [check_pending_approvals] *)
Definition check_pending_approvals : M (list string) :=
  e ← exists_dir Pending_Approval;
  if negb e then mret [] else glob_md Pending_Approval.

(** [check_approved_actions] *)
Definition check_approved_actions : M (list string) :=
  e ← exists_dir Approved;
  if negb e then mret [] else glob_md Approved.

(** The loop of [check_active_plans]: a plan that cannot be read is logged
    at debug level and skipped. *)
Fixpoint active_plans_loop (fs : list string) (active_plans : list string)
  : M (list string) :=
  match fs with
  | [] => mret active_plans
  | f :: fs' =>
      acc ← try_except
               (content ← read_text Plans f;
                if contains "status: in_progress" (lower content)
                then mret (active_plans ++ [f])
                else mret active_plans)
               (fun e => logger_debug ("Error reading plan " +:+ f +:+ ": ") e ;;
                         mret active_plans);
      active_plans_loop fs' acc
  end.

(** [check_active_plans] *)
Definition check_active_plans : M (list string) :=
  e ← exists_dir Plans;
  if negb e then mret []
  else fs ← glob_md Plans; active_plans_loop fs [].

(** The match of [field:\s*(.+)$] at the start of a line [s], case of the
    field ignored: group 1.  [\s*] is greedy and also crosses newlines; when
    it runs to the end of the text it gives back characters until [.+] finds
    one that is not a newline. *)
Definition match_field_here (field s : string) : option string :=
  let key := field +:+ ":" in
  if startswith (lower key) (lower (take (String.length key) s)) then
    let rest := drop (String.length key) s in
    match lstrip rest with
    | EmptyString =>
        match last_char (filter (fun c => negb (Ascii.eqb c NL)) rest) with
        | Some c => Some (String c EmptyString)
        | None => None
        end
    | body => head (split NL body)
    end
  else None.

(** [re.search(rf'^{field}:\s*(.+)$', content, re.MULTILINE | re.IGNORECASE)]:
    the first line start, from the left, where the pattern matches. *)
Fixpoint search_field (field : string) (at_line_start : bool) (s : string)
  : option string :=
  match (if at_line_start then match_field_here field s else None) with
  | Some g => Some g
  | None =>
      match s with
      | EmptyString => None
      | String c s' => search_field field (Ascii.eqb c NL) s'
      end
  end.

(** [extract_field], for a field name made of letters. *)
Definition extract_field (content field : string) : option string :=
  strip <$> search_field field true content.

Definition re_last_updated : regex := [Lit "last_updated:"; DotStar].
Definition re_status : regex := [Lit "status:"; DotStar].
Definition re_watchers_running : regex := [Lit "**Watchers Running**:"; DotStar].
Definition re_last_check : regex := [Lit "**Last Check**:"; DotStar].
Definition re_pending_actions : regex := [Lit "- Pending Actions: "; Digits].
Definition re_completed_tasks : regex := [Lit "- Completed Tasks: "; Digits].
Definition re_awaiting_approval : regex := [Lit "- Awaiting Approval: "; Digits].
Definition re_plans_created : regex := [Lit "- Plans Created: "; Digits].
Definition re_files_in_needs_action : regex :=
  [Lit "| Files in Needs_Action | "; Digits; Lit " |"].
Definition re_tasks_completed : regex :=
  [Lit "| Tasks Completed | "; Digits; Lit " |"].
Definition re_watchers_active : regex := [Lit "| Watchers Active |"; DotStar; Lit "|"].
Definition re_mcp_servers : regex := [Lit "| MCP Servers |"; DotStar; Lit "|"].
Definition re_approvals_pending : regex :=
  [Lit "| Approvals Pending |"; DotStar; Lit "|"].

Definition watchers_active : nat := 4.
Definition mcp_servers_active : nat := 2.

(** The text that [update_dashboard] writes over an existing dashboard. *)
Definition rewrite_dashboard (t : datetime)
    (needs_action_count done_count pending_approval_count active_plans_count : nat)
    (content : string) : string :=
  let content := sub re_last_updated ("last_updated: " +:+ isoformat t) content in
  let content := sub re_status "status: active" content in
  let content :=
    sub re_watchers_running
      "**Watchers Running**: File System ✅, Gmail ⚙️, WhatsApp ⚙️, LinkedIn ⚙️"
      content in
  let content := sub re_last_check ("**Last Check**: " +:+ isoformat t) content in
  let content :=
    sub re_pending_actions ("- Pending Actions: " +:+ of_nat needs_action_count)
      content in
  let content :=
    sub re_completed_tasks ("- Completed Tasks: " +:+ of_nat done_count) content in
  let content :=
    sub re_awaiting_approval
      ("- Awaiting Approval: " +:+ of_nat pending_approval_count) content in
  let content :=
    sub re_plans_created ("- Plans Created: " +:+ of_nat active_plans_count)
      content in
  let content :=
    sub re_files_in_needs_action
      ("| Files in Needs_Action | " +:+ of_nat needs_action_count +:+ " |")
      content in
  let content :=
    sub re_tasks_completed ("| Tasks Completed | " +:+ of_nat done_count +:+ " |")
      content in
  if contains "## Silver Tier Metrics" content then
    let content :=
      sub re_watchers_active
        ("| Watchers Active | " +:+ of_nat watchers_active
         +:+ " (File, Gmail, WhatsApp, LinkedIn) |") content in
    let content :=
      sub re_mcp_servers
        ("| MCP Servers | " +:+ of_nat mcp_servers_active +:+ " (Email, LinkedIn) |")
        content in
    sub re_approvals_pending
      ("| Approvals Pending | " +:+ of_nat pending_approval_count +:+ " |") content
  else content.

(** The text of a new dashboard. *)
Definition dashboard_template (t : datetime)
    (na_count done_count approval_count plans_count : nat) : string :=
  "# AI Employee Dashboard

---
last_updated: "
    +:+ isoformat t +:+ "
status: active
---

## System Status
- **Vault Status**: Active ✅
- **Watchers Running**: File System ✅, Gmail ⚙️, WhatsApp ⚙️, LinkedIn ⚙️
- **Last Check**: "
    +:+ isoformat t +:+ "

## Today's Summary
- Pending Actions: "
    +:+ PyStr.of_nat na_count +:+ "
- Completed Tasks: "
    +:+ PyStr.of_nat done_count +:+ "
- Awaiting Approval: "
    +:+ PyStr.of_nat approval_count +:+ "
- Plans Created: "
    +:+ PyStr.of_nat plans_count +:+ "

## Silver Tier Metrics
| Metric | Value |
|--------|-------|
| Watchers Active | 4 (File, Gmail, WhatsApp, LinkedIn) |
| MCP Servers | 2 (Email, LinkedIn) |
| Plans Created | "
    +:+ PyStr.of_nat plans_count +:+ " |
| Approvals Pending | "
    +:+ PyStr.of_nat approval_count +:+ " |

## Quick Stats
| Metric | Count |
|--------|-------|
| Files in Needs_Action | "
    +:+ PyStr.of_nat na_count +:+ " |
| Plans Created | "
    +:+ PyStr.of_nat plans_count +:+ " |
| Tasks Completed | "
    +:+ PyStr.of_nat done_count +:+ " |
| Files Processed Today | "
    +:+ PyStr.of_nat done_count +:+ " |
| Watcher Detections | "
    +:+ PyStr.of_nat na_count +:+ " |

## Alerts
*No alerts*

## Silver Tier Status
✅ **SILVER TIER OPERATIONAL**
- Multi-watcher system configured
- MCP servers available (Email, LinkedIn)
- Approval workflow active
- Plan tracking enabled
- Daily briefing scheduled
- Weekly audit scheduled

---
*AI Employee - Silver Tier*
".

Definition write_dashboard (content : string) : M unit :=
  v ← get_fs; put_fs (MkVault (dirs v) (logs v) (Some content)).

(** [_create_dashboard] *)
Definition _create_dashboard (na_count done_count approval_count plans_count : nat)
  : M unit :=
  t ← now;
  write_dashboard (dashboard_template t na_count done_count approval_count plans_count).

(** The four counts of [update_dashboard]. *)
Record counts := Counts {
  needs_action_count : nat;
  done_count : nat;
  pending_approval_count : nat;
  active_plans_count : nat
}.

Definition count_files : M counts :=
  na ← glob_md Needs_Action;
  dn ← glob_md Done;
  e ← exists_dir Pending_Approval;
  pa ← (if (e : bool) then glob_md Pending_Approval else mret []);
  ap ← check_active_plans;
  mret (Counts (length na) (length dn) (length pa) (length ap)).

(** [update_dashboard] *)
Definition update_dashboard : M unit :=
  c ← count_files;
  v ← get_fs;
  match dashboard v with
  | Some content =>
      t ← now;
      write_dashboard
        (rewrite_dashboard t (needs_action_count c) (done_count c)
           (pending_approval_count c) (active_plans_count c) content) ;;
      logger_info "Dashboard updated"
  | None =>
      _create_dashboard (needs_action_count c) (done_count c)
        (pending_approval_count c) (active_plans_count c)
  end.

(** The log file of the day. *)
Definition log_file_name (t : datetime) : string :=
  "orchestrator_" +:+ strftime_date t +:+ ".log".

(** [_write_log]: append to the log file of the day; raises when the Logs
    directory is missing. *)
Definition _write_log (message : string) : M unit :=
  t ← now;
  let log_file := log_file_name t in
  v ← get_fs;
  match logs v with
  | None => raise FileNotFoundError
  | Some l =>
      put_fs (MkVault (dirs v)
                (Some (<[log_file := default "" (l !! log_file) +:+ message]> l))
                (dashboard v)) ;;
      emit (Appended log_file message)
  end.

Definition processing_message (f : string) (action_type : option string) : string :=
  "Processing approved action: " +:+ f +:+ " (type: " +:+ of_option action_type
  +:+ ")".

Definition approval_log_entry (t : datetime) (f : string)
    (action_type : option string) : string :=
  "[" +:+ isoformat t +:+ "] Processed approval: " +:+ f +:+ " (action: "
  +:+ of_option action_type +:+ ")" +:+ String NL "".

Definition moved_message (f : string) : string := "Moved " +:+ f +:+ " to Done".

Definition error_message (f : string) : string :=
  "Error processing approved action " +:+ f +:+ ": ".

(** What the loop of [process_approved_actions] does with one file inside
    its [try]. *)
Definition process_approved_body (f : string) : M unit :=
  content ← read_text Approved f;
  let action_type := extract_field content "action" in
  logger_info (processing_message f action_type) ;;
  t ← now;
  let log_entry := approval_log_entry t f action_type in
  _write_log log_entry ;;
  shutil_move Approved Done f ;;
  logger_info (moved_message f).

(** The body of the loop, with its [try] and its [except]. *)
Definition process_approved_file (f : string) : M unit :=
  try_except (process_approved_body f)
    (fun e => logger_error (error_message f) e).

(** [process_approved_actions] *)
Definition process_approved_actions : M unit :=
  approved_files ← check_approved_actions;
  for_each approved_files process_approved_file.

(** [process_rejected_actions] *)
Definition process_rejected_actions : M unit :=
  e ← exists_dir Rejected;
  if negb e then mret tt
  else
    rejected_files ← glob_md Rejected;
    for_each rejected_files
      (fun f => logger_info ("Archiving rejected action: " +:+ f)).

(** [trigger_claude_processing] *)
Definition trigger_claude_processing : M unit :=
  files ← check_needs_action;
  match files with
  | [] => logger_info "No files to process"
  | _ =>
      logger_info ("Found " +:+ of_nat (length files) +:+ " files to process") ;;
      logger_info "Files ready for Claude Code processing:" ;;
      for_each files (fun f => logger_info ("  - " +:+ f)) ;;
      update_dashboard ;;
      logger_info "Ready for Claude Code to process these files" ;;
      logger_info ("Run: claude " +:+ DQUOTE
                   +:+ "Process all files in Needs_Action folder" +:+ DQUOTE)
  end.

(** One turn of the loop of [run]. *)
Definition run_pass : M unit :=
  process_approved_actions ;;
  process_rejected_actions ;;
  trigger_claude_processing ;;
  update_dashboard.

(** [n] turns of the loop of [run], one after the other. *)
Fixpoint run_passes (n : nat) : M unit :=
  match n with
  | O => mret tt
  | S n' => run_pass ;; run_passes n'
  end.

End Orchestrator.

(** ** scripts/weekly_audit.py *)

Module WeeklyAudit.
Import PyStr PyDatetime Vault.

(** What [datetime.fromisoformat] returns: a naive datetime, or an aware one
    (the text carried a UTC offset). *)
Inductive parsed :=
| Naive (d : datetime)
| Aware (d : datetime).

(** An entry of the bottleneck list. *)
Record bottleneck := Bottleneck {
  issue : string;
  item : string;
  impact : string;
  recommendation : string
}.

(** [get_week_start]: the time of day is kept. *)
Definition get_week_start (date : datetime) : datetime :=
  date - timedelta_days (weekday date).

(** The loop of [extract_field] over the lines. *)
Fixpoint extract_field_lines (lines : list string) (field : string) : option string :=
  match lines with
  | [] => None
  | line :: lines' =>
      if startswith (field +:+ ":") (lower line)
      then strip <$> after_first ":" line
      else extract_field_lines lines' field
  end.

(** [extract_field]: only the first 30 lines are looked at. *)
Definition extract_field (content field : string) : option string :=
  extract_field_lines (List.firstn 30 (split NL content)) field.

(** The loop of [get_files_in_week]. *)
Fixpoint files_in_week_loop (folder : folder) (week_start week_end : datetime)
    (fs : list string) (files : list string) : M (list string) :=
  match fs with
  | [] => mret files
  | f :: fs' =>
      acc ← try_except
               (mtime ← stat_mtime folder f;
                if (week_start <=? mtime) && (mtime <? week_end)
                then mret (files ++ [f])
                else mret files)
               (fun e => logger_debug ("Error checking file " +:+ f +:+ ": ") e ;;
                         mret files);
      files_in_week_loop folder week_start week_end fs' acc
  end.

(** [get_files_in_week] *)
Definition get_files_in_week (folder : folder) (week_start : datetime)
  : M (list string) :=
  e ← exists_dir folder;
  if negb e then mret []
  else
    let week_end := week_start + timedelta_days 7 in
    fs ← glob_md folder;
    files_in_week_loop folder week_start week_end fs [].

(** [get_previous_week_files] *)
Definition get_previous_week_files (folder : folder) (week_start : datetime)
  : M (list string) :=
  let prev_week_start := week_start - timedelta_days 7 in
  get_files_in_week folder prev_week_start.

(** A [defaultdict(list)]: the keys in the order in which they were first
    used, each with its list. *)
Definition categories := list (string * list string).

(** [categories[key].append(f)] *)
Fixpoint append_to (key f : string) (cats : categories) : categories :=
  match cats with
  | [] => [(key, [f])]
  | (k, fs) :: cats' =>
      if String.eqb k key then (k, fs ++ [f]) :: cats'
      else (k, fs) :: append_to key f cats'
  end.

(** [len(categories[key])] *)
Fixpoint category_size (key : string) (cats : categories) : nat :=
  match cats with
  | [] => 0%nat
  | (k, fs) :: cats' => if String.eqb k key then length fs else category_size key cats'
  end.

(** The chain of tests of [categorize_files], on the lowered text. *)
Definition category_of (content : string) : string :=
  if contains "type: email" content then "emails"
  else if contains "type: whatsapp" content then "whatsapp"
  else if contains "type: linkedin" content then "linkedin"
  else if contains "type: approval" content then "approvals"
  else if contains "type: action_plan" content || contains "plan:" content then "plans"
  else "other".

(** The loop of [categorize_files] over files of [folder]: a file that cannot
    be read is logged at debug level and left out. *)
Fixpoint categorize_loop (folder : folder) (files : list string) (cats : categories)
  : M categories :=
  match files with
  | [] => mret cats
  | f :: files' =>
      acc ← try_except
               (content ← read_text folder f;
                mret (append_to (category_of (lower content)) f cats))
               (fun e => logger_debug ("Error reading file " +:+ f +:+ ": ") e ;;
                         mret cats);
      categorize_loop folder files' acc
  end.

(** [categorize_files] *)
Definition categorize_files (folder : folder) (files : list string) : M categories :=
  categorize_loop folder files [].

(** An entry of the list of automation opportunities. *)
Record opportunity := Opportunity {
  task_type : string;
  frequency : string;
  time_saved_estimate : string;
  priority : string
}.

(** The loop of [identify_automation_opportunities]. *)
Fixpoint opportunities_loop (cats : categories) (opportunities : list opportunity)
  : list opportunity :=
  match cats with
  | [] => opportunities
  | (category, files) :: cats' =>
      opportunities_loop cats'
        (if (5 <=? length files)%nat
         then opportunities ++
              [Opportunity (title category)
                 (of_nat (length files) +:+ " this week")
                 (of_nat (length files * 5) +:+ " minutes")
                 (if (10 <=? length files)%nat then "High" else "Medium")]
         else opportunities)
  end.

(** [identify_automation_opportunities] *)
Definition identify_automation_opportunities (cats : categories) : list opportunity :=
  opportunities_loop cats [].

Definition stale_bottleneck (f : string) (age_days : Z) : bottleneck :=
  Bottleneck ("Item in Needs_Action for " +:+ of_Z age_days +:+ " days") f
    (if age_days <? 7 then "Medium" else "High")
    "Review and process or archive".

Definition expired_bottleneck (f : string) : bottleneck :=
  Bottleneck "Approval expired" f "High"
    "Review and approve/reject or create new request".

Section Analysis.

(** [datetime.fromisoformat]; [None] when it raises [ValueError].  Which
    texts it accepts depends on the version of the interpreter. *)
Variable fromisoformat : string -> option parsed.

(** The first loop of [analyze_bottlenecks]: old items in Needs_Action. *)
Fixpoint stale_loop (t : datetime) (fs : list string) (bottlenecks : list bottleneck)
  : M (list bottleneck) :=
  match fs with
  | [] => mret bottlenecks
  | f :: fs' =>
      acc ← try_except
               (mtime ← stat_mtime Needs_Action f;
                let age_days := days (t - mtime) in
                if 3 <? age_days
                then mret (bottlenecks ++ [stale_bottleneck f age_days])
                else mret bottlenecks)
               (fun _ => mret bottlenecks);
      stale_loop t fs' acc
  end.

(** The second loop: pending approvals.  The file is read outside the
    [try]; comparing the naive [datetime.now()] with an aware datetime
    raises [TypeError] inside it. *)
Fixpoint expired_loop (fs : list string) (bottlenecks : list bottleneck)
  : M (list bottleneck) :=
  match fs with
  | [] => mret bottlenecks
  | f :: fs' =>
      content ← read_text Pending_Approval f;
      acc ← match extract_field content "expires" with
            | None | Some EmptyString => mret bottlenecks
            | Some expires =>
                try_except
                  (match fromisoformat
                           (replace "+00:00" "" (replace "Z" "+00:00" expires)) with
                   | None => raise ValueError
                   | Some p =>
                       t ← now;
                       match p with
                       | Aware _ => raise TypeError
                       | Naive expiry_date =>
                           if expiry_date <? t
                           then mret (bottlenecks ++ [expired_bottleneck f])
                           else mret bottlenecks
                       end
                   end)
                  (fun _ => mret bottlenecks)
            end;
      expired_loop fs' acc
  end.

(** [analyze_bottlenecks] *)
Definition analyze_bottlenecks (needs_action_files pending_files : list string)
  : M (list bottleneck) :=
  t ← now;
  bottlenecks ← stale_loop t needs_action_files [];
  expired_loop pending_files bottlenecks.

(** The part of [generate_audit] that leads to the bottleneck list: the
    Needs_Action files of the current week and all pending approvals. *)
Definition generate_audit_bottlenecks : M (list bottleneck) :=
  t ← now;
  let week_start := get_week_start t in
  needs_action_files ← get_files_in_week Needs_Action week_start;
  e ← exists_dir Pending_Approval;
  pending_files ← (if (e : bool) then glob_md Pending_Approval else mret []);
  analyze_bottlenecks needs_action_files pending_files.

End Analysis.

End WeeklyAudit.

(** ** watchers/base_watcher.py *)

Module BaseWatcher.
Import PyStr Vault.

Section Watcher.

(** The two abstract methods of the class; attributes that a subclass keeps
    for itself are passed to its methods before they are used here.
    [create_action_file] returns the name of the file it made. *)
Context {item : Type}.
Variable check_for_updates : M (list item).
Variable create_action_file : item -> M string.

(** The [for] loop of [run]. *)
Definition create_all (items : list item) : M unit :=
  for_each items
    (fun item => filepath ← create_action_file item;
                 logger_info ("Created action file: " +:+ filepath)).

(** What [run] does with the items of one poll, inside its [try]. *)
Definition process_items (items : list item) : M unit :=
  match items with
  | [] => mret tt
  | _ =>
      logger_info ("Found " +:+ of_nat (length items) +:+ " new items") ;;
      create_all items
  end.

(** One turn of the [while] loop of [run], up to the [sleep]. *)
Definition run_turn : M unit :=
  try_except (items ← check_for_updates; process_items items)
    (fun e => logger_error "Error: " e).

End Watcher.

End BaseWatcher.

(** ** watchers/filesystem_watcher.py *)

Module FilesystemWatcher.
Import PyStr PyDatetime Vault.

(** The dropped file, as [create_action_file] looks at it: its name, the
    text of its absolute path and its size ([None]: [stat] raises). *)
Record source := Source {
  src_name : string;
  src_absolute : string;
  st_size : option nat
}.

(** [Path.suffix] of a name: from the last dot, unless that dot is the first
    or the last character. *)
Definition suffix (name : string) : string :=
  match rfind "." name with
  | Some i => if ((0 <? i) && (i <? String.length name - 1))%nat
              then drop i name else ""
  | None => ""
  end.

(** [Path.stem] *)
Definition stem (name : string) : string :=
  match rfind "." name with
  | Some i => if ((0 <? i) && (i <? String.length name - 1))%nat
              then take i name else name
  | None => name
  end.

(** The name of the action file for a drop seen at [t]. *)
Definition action_file_name (t : datetime) (source : source) : string :=
  "FILE_" +:+ strftime_stamp t +:+ "_" +:+ stem (src_name source) +:+ ".md".

Definition action_file_content (source : source) (file_size : nat)
    (file_type : string) (detected : datetime) : string :=
  "---
type: file_drop
original_name: "
    +:+ src_name source +:+ "
file_path: "
    +:+ src_absolute source +:+ "
size_bytes: "
    +:+ of_nat file_size +:+ "
file_type: "
    +:+ file_type +:+ "
detected: "
    +:+ isoformat detected +:+ "
priority: medium
status: pending
---

## New File Detected

A new file has been dropped in the Inbox folder and needs processing.

### File Details
- **Name**: "
    +:+ src_name source +:+ "
- **Size**: "
    +:+ with_commas file_size +:+ " bytes
- **Type**: "
    +:+ file_type +:+ "
- **Location**: "
    +:+ src_absolute source +:+ "

### Suggested Actions
- [ ] Review file contents
- [ ] Determine appropriate action
- [ ] Process or forward as needed
- [ ] Move to Done when complete

### Notes
Add any relevant notes or context here.
".

(** [DropFolderHandler.create_action_file] *)
Definition create_action_file (source : source) : M unit :=
  t ← now;
  let action_file := action_file_name t source in
  file_size ← match st_size source with
              | Some n => mret n
              | None => raise FileNotFoundError
              end;
  let file_type := suffix (src_name source) in
  detected ← now;
  write_text Needs_Action action_file
    (action_file_content source file_size file_type detected) ;;
  logger_info ("Created action file: " +:+ action_file).


(** The event that the observer hands to [on_created]. *)
Record event := Event {
  is_directory : bool;
  ev_source : source
}.

(** [DropFolderHandler.on_created]; the set [processed_files] of the handler
    is passed in and returned.  Paths are compared by their absolute text. *)
Definition on_created (processed_files : gset string) (event : event)
  : M (gset string) :=
  if is_directory event then mret processed_files
  else
    let source := ev_source event in
    if bool_decide (src_absolute source ∈ processed_files) then mret processed_files
    else
      try_except
        (logger_info ("New file detected: " +:+ src_name source) ;;
         create_action_file source ;;
         mret ({[src_absolute source]} ∪ processed_files))
        (fun e => logger_error ("Error processing " +:+ src_name source +:+ ": ") e ;;
                  mret processed_files).

End FilesystemWatcher.

(** ** watchers/gmail_watcher.py *)

Module GmailWatcher.
Import PyStr PyDatetime Vault.

(** The dictionary that [_extract_email_content] returns; its error branch
    leaves out the keys [to] and [date]. *)
Record email := Email {
  em_id : string;
  em_from : string;
  em_to : option string;
  em_subject : string;
  em_date : option string;
  em_body : string;
  em_snippet : string
}.

Definition URGENT_KEYWORDS : list string :=
  ["urgent"; "asap"; "invoice"; "payment"; "help"; "emergency";
   "deadline"; "important"; "action required"; "respond"].

(** [_calculate_priority] *)
Definition _calculate_priority (email : email) : string :=
  let subject_lower := lower (em_subject email) in
  let from_lower := lower (em_from email) in
  let body_lower := lower (em_body email) in
  if existsb (fun keyword => contains keyword subject_lower
                             || contains keyword body_lower) URGENT_KEYWORDS
  then "high"
  else if existsb (fun domain => contains domain from_lower)
            ["client"; "company"; "business"]
  then "high"
  else "medium".

(** The sanitized subject of the file name. *)
Definition safe_subject (subject : string) : string :=
  let kept :=
    strip (filter (fun c => isalnum c || Ascii.eqb c " " || Ascii.eqb c "-"
                            || Ascii.eqb c "_") (take 30 subject)) in
  match replace " " "_" kept with
  | EmptyString => "No_Subject"
  | s => s
  end.

(** The name of the action file for a mail handled at [t]. *)
Definition action_file_name (t : datetime) (full_email : email) : string :=
  "EMAIL_" +:+ strftime_stamp t +:+ "_" +:+ safe_subject (em_subject full_email)
  +:+ ".md".

(** [s.strip('>')] *)
Fixpoint lstrip_gt (s : string) : string :=
  match s with
  | String ">" s' => lstrip_gt s'
  | _ => s
  end.

Fixpoint rstrip_gt (s : string) : string :=
  match s with
  | EmptyString => EmptyString
  | String c s' =>
      match rstrip_gt s' with
      | EmptyString => if Ascii.eqb c ">" then EmptyString else String c EmptyString
      | r => String c r
      end
  end.

Definition get_key (o : option string) : M string :=
  match o with
  | Some s => mret s
  | None => raise KeyError
  end.

Definition action_file_content (full_email : email)
    (sender_name sender_email to date priority : string)
    (received detected : datetime) : string :=
  "---
type: email
message_id: "
    +:+ em_id full_email +:+ "
from: "
    +:+ em_from full_email +:+ "
from_name: "
    +:+ sender_name +:+ "
from_email: "
    +:+ sender_email +:+ "
to: "
    +:+ to +:+ "
subject: "
    +:+ em_subject full_email +:+ "
received: "
    +:+ isoformat received +:+ "
original_date: "
    +:+ date +:+ "
priority: "
    +:+ priority +:+ "
status: pending
labels: []
---

# Email: "
    +:+ em_subject full_email +:+ "

## Sender Information
- **From**: "
    +:+ em_from full_email +:+ "
- **To**: "
    +:+ to +:+ "
- **Date**: "
    +:+ date +:+ "

## Email Content

"
    +:+ (if em_body full_email is EmptyString then em_snippet full_email else em_body full_email) +:+ "

---

## Suggested Actions

### Immediate Actions
- [ ] Read and understand the email
- [ ] Determine urgency and required response
- [ ] Draft response (requires approval before sending)

### Response Options
- [ ] Reply with information
- [ ] Forward to relevant party
- [ ] Schedule follow-up
- [ ] Archive after processing

### Notes
Add your response draft or notes here:


---

## Processing Log
- **Detected**: "
    +:+ isoformat detected +:+ "
- **Priority**: "
    +:+ priority +:+ "
- **Status**: Pending review
".

(** [GmailWatcher.create_action_file], from the dictionary that
    [_extract_email_content] (a call to the mail service) returned; the set
    of processed ids is passed in and returned with the file name. *)
Definition create_action_file (processed_ids : gset string) (full_email : email)
  : M (string * gset string) :=
  let priority := _calculate_priority full_email in
  t ← now;
  let action_file := action_file_name t full_email in
  let sender := em_from full_email in
  let '(sender_name, sender_email) :=
    if contains "<" sender
    then (strip (nth 0 (split "<" sender) ""),
          rstrip_gt (lstrip_gt (nth 1 (split "<" sender) "")))
    else (sender, "") in
  to ← get_key (em_to full_email);
  received ← now;
  date ← get_key (em_date full_email);
  detected ← now;
  write_text Needs_Action action_file
    (action_file_content full_email sender_name sender_email to date priority
       received detected) ;;
  logger_info ("Created action file for email from " +:+ sender_name +:+ ": "
               +:+ action_file) ;;
  mret (action_file, {[em_id full_email]} ∪ processed_ids).



(** The dictionary that [_extract_email_content] returns from its [except];
    [e] is the text of the exception. *)
Definition extraction_failed (message_id e : string) : email :=
  Email message_id "Unknown" None "Error reading email" None
    ("Could not extract content: " +:+ e) "".

End GmailWatcher.

(** ** Notions used in the statements *)

Module Run.
Import Vault Orchestrator.

(** The world after a computation, and what it returned. *)
Definition exec {A} (m : M A) (w : world) : world := snd (m w).
Definition eval {A} (m : M A) (w : world) : result A := fst (m w).

(** The same world with another vault: what a watcher or a human does
    between two computations of the orchestrator. *)
Definition with_fs (w : world) (v : vault) : world :=
  MkWorld v (clock w) (ticks w) (trace w).

(** A file put into an existing folder. *)
Definition place (v : vault) (f : folder) (name : string) (x : file) : vault :=
  match dirs v !! f with
  | Some d => MkVault (<[f := <[name := x]> d]> (dirs v)) (logs v) (dashboard v)
  | None => v
  end.

Definition is_moved (e : effect) : bool :=
  match e with Moved _ _ _ => true | _ => false end.

(** A computation that moves no file and writes no log: folders, Logs and
    clock stay as they are and no move is recorded. *)
Definition benign {A} (m : M A) : Prop :=
  forall w,
    dirs (fs (exec m w)) = dirs (fs w) /\
    logs (fs (exec m w)) = logs (fs w) /\
    clock (exec m w) = clock w /\
    exists tr, trace (exec m w) = trace w ++ tr /\
               Forall (fun e => is_moved e = false) tr.

(** A computation that never raises. *)
Definition total {A} (m : M A) : Prop :=
  forall w, exists a, eval m w = Ok a.

(** The condition under which the body of [process_approved_file] gets to
    the end of its [try]: the record is there and is text, the Logs and Done
    directories exist. *)
Definition can_process (v : vault) (f : string) : bool :=
  match lookup_file v Approved f with
  | Some x =>
      bool_decide (is_Some (text x)) && bool_decide (is_Some (logs v))
      && bool_decide (is_Some (dirs v !! Done))
  | None => false
  end.

(** A step of the world that moves no file: folders and clock are as
    before, the Logs directory exists as before, no move is recorded. *)
Definition quiet (w w' : world) : Prop :=
  dirs (fs w') = dirs (fs w) /\
  (is_Some (logs (fs w')) <-> is_Some (logs (fs w))) /\
  clock w' = clock w /\
  exists tr, trace w' = trace w ++ tr /\
             Forall (fun e => is_moved e = false) tr.

(** The effect is a move of the file called [n]. *)
Definition moves_name (n : string) (e : effect) : bool :=
  match e with Moved _ _ m => String.eqb m n | _ => false end.

(** A computation that only reads the vault: it may log, nothing else. *)
Definition readonly {A} (m : M A) : Prop :=
  forall w, exists tr,
    exec m w = MkWorld (fs w) (clock w) (ticks w) (trace w ++ tr).

(** A step of the vault under which Approved only loses records, while the
    Logs and Done directories exist as before. *)
Definition shrinks (v v' : vault) : Prop :=
  (is_Some (logs v') <-> is_Some (logs v)) /\
  (is_Some (dirs v' !! Done) <-> is_Some (dirs v !! Done)) /\
  forall n x, lookup_file v' Approved n = Some x ->
              lookup_file v Approved n = Some x.

(** No record of Approved can be processed: every attempt will raise. *)
Definition stuck (v : vault) : Prop :=
  forall n, n ∈ glob_md_dir (dirs v !! Approved) -> can_process v n = false.

(** A plan that [check_active_plans] keeps. *)
Definition is_active (v : vault) (f : string) : bool :=
  match lookup_file v Plans f with
  | Some x =>
      match text x with
      | Some content => PyStr.contains "status: in_progress" (PyStr.lower content)
      | None => false
      end
  | None => false
  end.

(** The counts of [update_dashboard] read off the vault. *)
Definition counts_of (v : vault) : counts :=
  Counts (length (glob_md_dir (dirs v !! Needs_Action)))
         (length (glob_md_dir (dirs v !! Done)))
         (length (glob_md_dir (dirs v !! Pending_Approval)))
         (length (List.filter (is_active v) (glob_md_dir (dirs v !! Plans)))).

(** The text that [update_dashboard] leaves in Dashboard.md, from the time
    [t] it reads, the counts [c] and the dashboard [d] it finds. *)
Definition next_dashboard (t : PyDatetime.datetime) (c : counts) (d : option string)
  : string :=
  match d with
  | Some content =>
      rewrite_dashboard t (needs_action_count c) (done_count c)
        (pending_approval_count c) (active_plans_count c) content
  | None =>
      dashboard_template t (needs_action_count c) (done_count c)
        (pending_approval_count c) (active_plans_count c)
  end.

(** A vault with its six record folders and its Logs directory, all empty,
    and no dashboard yet: what [_ensure_directories] leaves in a new vault. *)
Definition empty_vault : vault :=
  MkVault
    (list_to_map
       ((fun f => (f, ∅)) <$>
        [Needs_Action; Done; Pending_Approval; Approved; Rejected; Plans]))
    (Some ∅) None.

(** A clock that starts at [t0] and advances by [step] microseconds from one
    reading to the next. *)
Definition ticking (t0 step : Z) : nat -> PyDatetime.datetime :=
  fun n => t0 + Z.of_nat n * step.

(** Two worlds that the loop over Approved cannot tell apart as far as the
    folders go: same folders, Logs directory there in both or in neither. *)
Definition similar (w1 w2 : world) : Prop :=
  dirs (fs w1) = dirs (fs w2) /\
  (is_Some (logs (fs w1)) <-> is_Some (logs (fs w2))).

(** The effect is the error that the loop over Approved logs for [f]. *)
Definition is_error_for (f : string) (e : effect) : bool :=
  match e with
  | Logger ERROR msg (Some _) => String.eqb msg (error_message f)
  | _ => false
  end.

(** Every file of the list is in folder [X] and is text. *)
Definition readable (v : vault) (X : folder) (l : list string) : Prop :=
  forall g, g ∈ l -> exists y c, lookup_file v X g = Some y /\ text y = Some c.

(** Two worlds with the same clock, read equally often, and the same
    Needs_Action and Pending_Approval folders. *)
Definition agree (w1 w2 : world) : Prop :=
  clock w1 = clock w2 /\ ticks w1 = ticks w2 /\
  dirs (fs w1) !! Needs_Action = dirs (fs w2) !! Needs_Action /\
  dirs (fs w1) !! Pending_Approval = dirs (fs w2) !! Pending_Approval.

(** A computation that cannot tell such worlds apart. *)
Definition respects {A} (m : M A) : Prop :=
  forall w1 w2, agree w1 w2 ->
    eval m w1 = eval m w2 /\ agree (exec m w1) (exec m w2).

(** The entries that the first loop of [analyze_bottlenecks] adds, at time
    [t], for the files [l]. *)
Definition stale_entries (v : vault) (t : PyDatetime.datetime) (l : list string)
  : list WeeklyAudit.bottleneck :=
  flat_map
    (fun f =>
       match lookup_file v Needs_Action f with
       | Some x =>
           let age_days := PyDatetime.days (t - mtime x) in
           if 3 <? age_days then [WeeklyAudit.stale_bottleneck f age_days] else []
       | None => []
       end) l.

(** Every character of [s] satisfies [p]. *)
Fixpoint all_chars (p : ascii -> bool) (s : string) : bool :=
  match s with
  | EmptyString => true
  | String c s' => p c && all_chars p s'
  end.


(** A text without a line end. *)
Definition one_line (s : string) : bool :=
  all_chars (fun c => negb (Ascii.eqb c PyStr.NL)) s.

(** A step of the vault that loses no record: Approved gains nothing, a
    record of Approved stays or is in Done instead, and a record of Done
    stays unless the record of Approved of that name has been moved onto
    it. *)
Definition conserves (v v' : vault) : Prop :=
  (forall n x, lookup_file v' Approved n = Some x -> lookup_file v Approved n = Some x) /\
  (forall n x, lookup_file v Approved n = Some x ->
     lookup_file v' Approved n = Some x
     \/ (lookup_file v' Approved n = None /\ lookup_file v' Done n = Some x)) /\
  (forall n, lookup_file v' Done n = lookup_file v Done n
     \/ exists x, lookup_file v Approved n = Some x /\
                  lookup_file v' Done n = Some x /\ lookup_file v' Approved n = None).

(** A step of the vault under which log files only grow at their end. *)
Definition log_grows (v v' : vault) : Prop :=
  (logs v = None -> logs v' = None) /\
  forall l, logs v = Some l ->
    exists l', logs v' = Some l' /\
               forall n c, l !! n = Some c -> exists c', l' !! n = Some (c +:+ c').

(** The literal with which a pattern begins. *)
Definition marker (r : Re.regex) : string :=
  match r with
  | Re.Lit l :: _ => l
  | _ => ""
  end.

(** The patterns that [update_dashboard] substitutes. *)
Definition update_patterns : list Re.regex :=
  [re_last_updated; re_status; re_watchers_running; re_last_check;
   re_pending_actions; re_completed_tasks; re_awaiting_approval; re_plans_created;
   re_files_in_needs_action; re_tasks_completed;
   re_watchers_active; re_mcp_servers; re_approvals_pending].

(** The file [f] of folder [X] was last modified in the seven days that
    start at [week_start]. *)
Definition in_week (v : vault) (X : folder) (week_start : PyDatetime.datetime)
    (f : string) : bool :=
  match lookup_file v X f with
  | Some x => (week_start <=? mtime x)
              && (mtime x <? week_start + PyDatetime.timedelta_days 7)
  | None => false
  end.

(** The file [f] of folder [X] is there and is text. *)
Definition is_text (v : vault) (X : folder) (f : string) : bool :=
  match lookup_file v X f with
  | Some x => bool_decide (is_Some (text x))
  | None => false
  end.

(** The file [f] of folder [X] is text that [categorize_files] files under
    [key]. *)
Definition has_category (v : vault) (X : folder) (key f : string) : bool :=
  match lookup_file v X f with
  | Some x =>
      match text x with
      | Some c => String.eqb (WeeklyAudit.category_of (PyStr.lower c)) key
      | None => false
      end
  | None => false
  end.

End Run.

(** ** Worlds and inputs of the examples *)

Module Examples.
Import PyStr PyDatetime Vault Run WeeklyAudit.

Definition t0 : datetime := mk 2026 11 3 13 35 0 0.

(** A text file last modified on 2026-10-01 at 09:00. *)
Definition note (s : string) : file := File (Some s) (mk 2026 10 1 9 0 0 0).

(** A file whose bytes are not UTF-8. *)
Definition garbled : file := File None (mk 2026 10 1 9 0 0 0).

(** A new vault with the files [d] in folder [f]. *)
Definition vault_with (f : folder) (d : gmap string file) : vault :=
  MkVault (<[f := d]> (dirs empty_vault)) (logs empty_vault) (dashboard empty_vault).

(** The world of a vault at 2026-11-03T13:35:00, the clock advancing by one
    second per reading. *)
Definition world_of (v : vault) : world := MkWorld v (ticking t0 1000000) 0 [].

Definition digit (c : ascii) : option Z :=
  if isdigit c then Some (Z.of_nat (nat_of_ascii c) - 48) else None.

Fixpoint number (s : string) (acc : Z) : option Z :=
  match s with
  | EmptyString => Some acc
  | String c s' => d ← digit c; number s' (10 * acc + d)
  end.

(** A parser for the plainest form that every version of
    [datetime.fromisoformat] accepts: YYYY-MM-DD, a valid date; the result
    is naive, at midnight. *)
Definition fromisoformat_date (s : string) : option parsed :=
  if negb (String.length s =? 10)%nat then None
  else if negb (String.eqb (take 1 (drop 4 s)) "-" && String.eqb (take 1 (drop 7 s)) "-")
  then None
  else
    y ← number (take 4 s) 0;
    m ← number (take 2 (drop 5 s)) 0;
    d ← number (drop 8 s) 0;
    if (1 <=? y) && (1 <=? m) && (m <=? 12) && (1 <=? d)
       && (d <=? days_in_month m + (if (m =? 2) && is_leap y then 1 else 0))
    then Some (Naive (mk y m d 0 0 0 0))
    else None.

(** Two files dropped into the Inbox: same stem, different suffix. *)
Definition report_txt : FilesystemWatcher.source :=
  FilesystemWatcher.Source "report.txt" "/home/me/vault/Inbox/report.txt" (Some 120%nat).

Definition report_pdf : FilesystemWatcher.source :=
  FilesystemWatcher.Source "report.pdf" "/home/me/vault/Inbox/report.pdf" (Some 4096%nat).

(** A mail as [_extract_email_content] returns it. *)
Definition invoice_mail : GmailWatcher.email :=
  GmailWatcher.Email "18c2f0" "Ann <ann@client.example>" (Some "me@example.org")
    "Invoice overdue" (Some "Tue, 3 Nov 2026 13:30:00 +0000") "Please pay." "Please".

(** The third line of the text of a file of Needs_Action. *)
Definition third_line (v : vault) (name : string) : option string :=
  x ← lookup_file v Needs_Action name; c ← text x; split NL c !! 2%nat.


(** [GmailWatcher.create_action_file] as [BaseWatcher.run] calls it: the
    name of the file is what comes back. *)
Definition gmail_create (mail : GmailWatcher.email) : M string :=
  r ← GmailWatcher.create_action_file ∅ mail; mret r.1.

End Examples.

(** * Properties *)

Import PyStr PyDatetime Vault Re Orchestrator WeeklyAudit Run Examples.

(** ** The string, date and pattern operations on examples *)

Example isoformat_ex :
  isoformat (mk 2026 2 28 23 59 7 120) = "2026-02-28T23:59:07.000120"
  /\ isoformat (mk 2024 2 29 0 0 0 0) = "2024-02-29T00:00:00"
  /\ strftime_stamp (mk 2024 12 31 23 59 59 999999) = "20241231_235959"
  /\ weekday (mk 2026 11 3 13 35 0 0) = 1.
Proof. vm_compute. repeat split; reflexivity. Qed.

Example split_strip_replace_ex :
  split NL ("a" +:+ String NL "b" +:+ String NL "") = ["a"; "b"; ""]
  /\ strip "  a b  " = "a b"
  /\ replace "+00:00" "" (replace "Z" "+00:00" "2020-01-01T00:00:00Z") = "2020-01-01T00:00:00"
  /\ replace "aa" "b" "aaaaa" = "bba"
  /\ with_commas 4096 = "4,096".
Proof. vm_compute. repeat split; reflexivity. Qed.

(** The field is found at a line start, whatever its case; [\s*] runs over
    the end of a line; a value of blanks only is the empty string. *)
Example orchestrator_extract_field_ex :
  Orchestrator.extract_field ("xaction: 1" +:+ String NL "ACTION:2 : 3") "action"
  = Some "2 : 3"
  /\ Orchestrator.extract_field ("action:" +:+ String NL " reply ") "action" = Some "reply"
  /\ Orchestrator.extract_field "action:  " "action" = Some ""
  /\ Orchestrator.extract_field ("action:" +:+ String NL "") "action" = None.
Proof. vm_compute. repeat split; reflexivity. Qed.

(** [.*] before a literal gives characters back; matches do not overlap. *)
Example sub_ex :
  sub re_watchers_active "X" "a | Watchers Active | 3 | 4 | 5" = "a X 5"
  /\ sub re_files_in_needs_action "Y"
       "| Files in Needs_Action | 12 || Files in Needs_Action | 1 | Files in Needs_Action | 7|"
     = "YY Files in Needs_Action | 7|"
  /\ sub re_pending_actions "- Pending Actions: 3" "- Pending Actions: 1234, - Pending Actions: x"
     = "- Pending Actions: 3, - Pending Actions: x".
Proof. vm_compute. repeat split; reflexivity. Qed.

Example stem_suffix_ex :
  FilesystemWatcher.stem "report.final.txt" = "report.final"
  /\ FilesystemWatcher.suffix "report.final.txt" = ".txt"
  /\ FilesystemWatcher.stem ".profile" = ".profile"
  /\ FilesystemWatcher.suffix "notes." = ""
  /\ GmailWatcher.safe_subject "Re: Invoice #42 (overdue)!" = "Re_Invoice_42_overdue".
Proof. vm_compute. repeat split; reflexivity. Qed.

(** ** The monad *)

Lemma bind_run {A B} (m : M A) (f : A -> M B) (w : world) :
  (m ≫= f) w =
  match m w with
  | (Ok a, w') => f a w'
  | (Raise e, w') => (Raise e, w')
  end.
Proof. reflexivity. Qed.

Lemma exec_bind_ok {A B} (m : M A) (f : A -> M B) (w : world) (a : A) :
  eval m w = Ok a -> exec (m ≫= f) w = exec (f a) (exec m w).
Proof.
  unfold eval, exec. rewrite bind_run. destruct (m w) as [r w']; simpl.
  intros ->. reflexivity.
Qed.

Lemma eval_bind_ok {A B} (m : M A) (f : A -> M B) (w : world) (a : A) :
  eval m w = Ok a -> eval (m ≫= f) w = eval (f a) (exec m w).
Proof.
  unfold eval, exec. rewrite bind_run. destruct (m w) as [r w']; simpl.
  intros ->. reflexivity.
Qed.

Section Benign.

Lemma benign_ret {A} (a : A) : benign (mret a : M A).
Proof. intros w. repeat split. exists []. by rewrite app_nil_r. Qed.

Lemma benign_raise {A} (e : exn) : benign (raise e : M A).
Proof. intros w. repeat split. exists []. by rewrite app_nil_r. Qed.

Lemma benign_bind {A B} (m : M A) (f : A -> M B) :
  benign m -> (forall a, benign (f a)) -> benign (m ≫= f).
Proof.
  intros Hm Hf w. specialize (Hm w). unfold exec in *. rewrite bind_run.
  destruct (m w) as [[a|e] w']; simpl in *; [|exact Hm].
  destruct Hm as (Hd & Hl & Hc & tr & Ht & Hq).
  destruct (Hf a w') as (Hd' & Hl' & Hc' & tr' & Ht' & Hq'). unfold exec in *.
  split; [congruence|]. split; [congruence|]. split; [congruence|].
  exists (tr ++ tr'). split.
  - rewrite Ht', Ht. by rewrite app_assoc.
  - by apply Forall_app.
Qed.

Lemma benign_try {A} (body : M A) (h : exn -> M A) :
  benign body -> (forall e, benign (h e)) -> benign (try_except body h).
Proof.
  intros Hm Hf w. specialize (Hm w). unfold exec, try_except in *.
  destruct (body w) as [[a|e] w']; simpl in *; [exact Hm|].
  destruct Hm as (Hd & Hl & Hc & tr & Ht & Hq).
  destruct (Hf e w') as (Hd' & Hl' & Hc' & tr' & Ht' & Hq'). unfold exec in *.
  split; [congruence|]. split; [congruence|]. split; [congruence|].
  exists (tr ++ tr'). split.
  - rewrite Ht', Ht. by rewrite app_assoc.
  - by apply Forall_app.
Qed.

Lemma benign_for_each {A} (xs : list A) (body : A -> M unit) :
  (forall x, benign (body x)) -> benign (for_each xs body).
Proof.
  intros Hb. induction xs as [|x xs IH]; simpl.
  - apply benign_ret.
  - apply benign_bind; [apply Hb | intros _; exact IH].
Qed.

Lemma benign_get_fs : benign get_fs.
Proof. intros w. repeat split. exists []. by rewrite app_nil_r. Qed.

Lemma benign_now : benign now.
Proof. intros w. repeat split. exists []. by rewrite app_nil_r. Qed.

Lemma benign_emit (e : effect) : is_moved e = false -> benign (emit e).
Proof. intros He w. repeat split. exists [e]. split; [done|]. by constructor. Qed.

Lemma benign_write_dashboard (c : string) : benign (write_dashboard c).
Proof. intros w. repeat split. exists []. by rewrite app_nil_r. Qed.

End Benign.

Create HintDb vault discriminated.

#[export] Hint Resolve benign_ret benign_raise benign_get_fs benign_now
  benign_write_dashboard : vault.

(** Decomposes a goal [benign m] along the structure of [m]. *)
Ltac benign_step :=
  first
    [ solve [eauto with vault]
    | apply benign_emit; reflexivity
    | apply benign_for_each; intros ?
    | apply benign_try; [|intros ?]
    | apply benign_bind; [|intros ?]
    | match goal with
      | |- benign (match ?x with _ => _ end) => destruct x
      | |- benign (if ?x then _ else _) => destruct x
      end ].

Ltac benign_all := repeat benign_step.

Lemma benign_glob_md (f : folder) : benign (glob_md f).
Proof. unfold glob_md. benign_all. Qed.

Lemma benign_exists_dir (f : folder) : benign (exists_dir f).
Proof. unfold exists_dir. benign_all. Qed.

Lemma benign_read_text (f : folder) (name : string) : benign (read_text f name).
Proof. unfold read_text. benign_all. Qed.

Lemma benign_stat_mtime (f : folder) (name : string) : benign (stat_mtime f name).
Proof. unfold stat_mtime. benign_all. Qed.

#[export] Hint Resolve benign_glob_md benign_exists_dir benign_read_text
  benign_stat_mtime : vault.

Lemma benign_logger_info (msg : string) : benign (logger_info msg).
Proof. unfold logger_info. benign_all. Qed.

Lemma benign_logger_debug (msg : string) (e : exn) : benign (logger_debug msg e).
Proof. unfold logger_debug. benign_all. Qed.

Lemma benign_logger_error (msg : string) (e : exn) : benign (logger_error msg e).
Proof. unfold logger_error. benign_all. Qed.

#[export] Hint Resolve benign_logger_info benign_logger_debug benign_logger_error
  : vault.

Lemma benign_check_needs_action : benign check_needs_action.
Proof. unfold check_needs_action. benign_all. Qed.

Lemma benign_check_pending_approvals : benign check_pending_approvals.
Proof. unfold check_pending_approvals. benign_all. Qed.

Lemma benign_check_approved_actions : benign check_approved_actions.
Proof. unfold check_approved_actions. benign_all. Qed.

Lemma benign_active_plans_loop (l acc : list string) : benign (active_plans_loop l acc).
Proof. revert acc. induction l as [|f l IH]; intros acc; simpl; benign_all. Qed.

#[export] Hint Resolve benign_check_needs_action benign_check_pending_approvals
  benign_check_approved_actions benign_active_plans_loop : vault.

Lemma benign_check_active_plans : benign check_active_plans.
Proof. unfold check_active_plans. benign_all. Qed.

#[export] Hint Resolve benign_check_active_plans : vault.

Lemma benign_count_files : benign count_files.
Proof. unfold count_files. benign_all. Qed.

#[export] Hint Resolve benign_count_files : vault.

Lemma benign_update_dashboard : benign update_dashboard.
Proof. unfold update_dashboard, _create_dashboard. benign_all. Qed.

#[export] Hint Resolve benign_update_dashboard : vault.

Lemma benign_process_rejected_actions : benign process_rejected_actions.
Proof. unfold process_rejected_actions. benign_all. Qed.

Lemma benign_trigger_claude_processing : benign trigger_claude_processing.
Proof. unfold trigger_claude_processing. benign_all. Qed.

#[export] Hint Resolve benign_process_rejected_actions
  benign_trigger_claude_processing : vault.

(** ** Computations that never raise *)

Lemma total_ret {A} (a : A) : total (mret a : M A).
Proof. intros w. by exists a. Qed.

Lemma total_bind {A B} (m : M A) (f : A -> M B) :
  total m -> (forall a, total (f a)) -> total (m ≫= f).
Proof.
  intros Hm Hf w. destruct (Hm w) as [a Ha].
  rewrite (eval_bind_ok _ _ _ _ Ha). apply Hf.
Qed.

Lemma total_try {A} (body : M A) (h : exn -> M A) :
  (forall e, total (h e)) -> total (try_except body h).
Proof.
  intros Hh w. unfold eval, try_except.
  destruct (body w) as [[a|e] w'] eqn:E; simpl; [by exists a|]. apply Hh.
Qed.

Lemma total_for_each {A} (xs : list A) (body : A -> M unit) :
  (forall x, total (body x)) -> total (for_each xs body).
Proof.
  intros Hb. induction xs as [|x xs IH]; simpl.
  - apply total_ret.
  - apply total_bind; [apply Hb | intros _; exact IH].
Qed.

Lemma total_get_fs : total get_fs.
Proof. intros w. by eexists. Qed.

Lemma total_now : total now.
Proof. intros w. by eexists. Qed.

Lemma total_emit (e : effect) : total (emit e).
Proof. intros w. by eexists. Qed.

Lemma total_put_fs (v : vault) : total (put_fs v).
Proof. intros w. by eexists. Qed.

#[export] Hint Resolve total_ret total_get_fs total_now total_emit total_put_fs
  : vault.

Ltac total_step :=
  first
    [ solve [eauto with vault]
    | apply total_for_each; intros ?
    | apply total_try; intros ?
    | apply total_bind; [|intros ?]
    | match goal with
      | |- total (match ?x with _ => _ end) => destruct x
      | |- total (if ?x then _ else _) => destruct x
      end ].

Ltac total_all := repeat total_step.

Lemma total_logger_info (msg : string) : total (logger_info msg).
Proof. unfold logger_info. total_all. Qed.

Lemma total_logger_debug (msg : string) (e : exn) : total (logger_debug msg e).
Proof. unfold logger_debug. total_all. Qed.

Lemma total_logger_error (msg : string) (e : exn) : total (logger_error msg e).
Proof. unfold logger_error. total_all. Qed.

Lemma total_glob_md (f : folder) : total (glob_md f).
Proof. unfold glob_md. total_all. Qed.

Lemma total_exists_dir (f : folder) : total (exists_dir f).
Proof. unfold exists_dir. total_all. Qed.

Lemma total_write_dashboard (c : string) : total (write_dashboard c).
Proof. unfold write_dashboard. total_all. Qed.

#[export] Hint Resolve total_logger_info total_logger_debug total_logger_error
  total_glob_md total_exists_dir total_write_dashboard : vault.

Lemma total_active_plans_loop (l acc : list string) : total (active_plans_loop l acc).
Proof. revert acc. induction l as [|f l IH]; intros acc; simpl; total_all. Qed.

#[export] Hint Resolve total_active_plans_loop : vault.

Lemma total_check_needs_action : total check_needs_action.
Proof. unfold check_needs_action. total_all. Qed.

Lemma total_check_approved_actions : total check_approved_actions.
Proof. unfold check_approved_actions. total_all. Qed.

Lemma total_check_active_plans : total check_active_plans.
Proof. unfold check_active_plans. total_all. Qed.

#[export] Hint Resolve total_check_needs_action total_check_approved_actions
  total_check_active_plans : vault.

Lemma total_count_files : total count_files.
Proof. unfold count_files. total_all. Qed.

#[export] Hint Resolve total_count_files : vault.

Lemma total_update_dashboard : total update_dashboard.
Proof. unfold update_dashboard, _create_dashboard. total_all. Qed.

Lemma total_process_rejected_actions : total process_rejected_actions.
Proof. unfold process_rejected_actions. total_all. Qed.

#[export] Hint Resolve total_update_dashboard total_process_rejected_actions : vault.

Lemma total_trigger_claude_processing : total trigger_claude_processing.
Proof. unfold trigger_claude_processing. total_all. Qed.

Lemma total_process_approved_file (f : string) : total (process_approved_file f).
Proof. unfold process_approved_file. apply total_try. intros e. total_all. Qed.

#[export] Hint Resolve total_trigger_claude_processing total_process_approved_file
  : vault.

Lemma total_process_approved_actions : total process_approved_actions.
Proof. unfold process_approved_actions. total_all. Qed.

#[export] Hint Resolve total_process_approved_actions : vault.

Lemma total_run_pass : total run_pass.
Proof. unfold run_pass. total_all. Qed.

#[export] Hint Resolve total_run_pass : vault.

Lemma total_run_passes (n : nat) : total (run_passes n).
Proof. induction n as [|n IH]; simpl; total_all. Qed.

(** A total computation returns [tt] when its type is [unit]. *)
Lemma total_unit (m : M unit) (w : world) : total m -> eval m w = Ok tt.
Proof. intros H. destruct (H w) as [[] E]. exact E. Qed.

(** ** What the read-only operations return *)

Lemma lookup_file_dirs (v v' : vault) (f : folder) (n : string) :
  dirs v = dirs v' -> lookup_file v f n = lookup_file v' f n.
Proof. unfold lookup_file. by intros ->. Qed.

Lemma is_active_dirs (v v' : vault) (n : string) :
  dirs v = dirs v' -> is_active v n = is_active v' n.
Proof. intros H. unfold is_active. by rewrite (lookup_file_dirs _ _ _ _ H). Qed.

Lemma counts_of_dirs (v v' : vault) : dirs v = dirs v' -> counts_of v = counts_of v'.
Proof.
  intros H. unfold counts_of. rewrite H. f_equal. f_equal.
  apply filter_ext. intros n. by apply is_active_dirs.
Qed.

Lemma glob_md_run (f : folder) (w : world) :
  glob_md f w = (Ok (glob_md_dir (dirs (fs w) !! f)), w).
Proof. reflexivity. Qed.

Lemma exists_dir_run (f : folder) (w : world) :
  exists_dir f w = (Ok (bool_decide (is_Some (dirs (fs w) !! f))), w).
Proof. reflexivity. Qed.

Lemma glob_md_dir_absent {d : option (gmap string file)} :
  bool_decide (is_Some d) = false -> glob_md_dir d = [].
Proof. destruct d; [|done]. intros H. by apply bool_decide_eq_false in H as []. Qed.

Lemma check_needs_action_run (w : world) :
  check_needs_action w = (Ok (glob_md_dir (dirs (fs w) !! Needs_Action)), w).
Proof.
  unfold check_needs_action. rewrite bind_run, exists_dir_run.
  destruct (bool_decide _) eqn:E; simpl; [done|]. by rewrite (glob_md_dir_absent E).
Qed.

Lemma check_pending_approvals_run (w : world) :
  check_pending_approvals w = (Ok (glob_md_dir (dirs (fs w) !! Pending_Approval)), w).
Proof.
  unfold check_pending_approvals. rewrite bind_run, exists_dir_run.
  destruct (bool_decide _) eqn:E; simpl; [done|]. by rewrite (glob_md_dir_absent E).
Qed.

Lemma check_approved_actions_run (w : world) :
  check_approved_actions w = (Ok (glob_md_dir (dirs (fs w) !! Approved)), w).
Proof.
  unfold check_approved_actions. rewrite bind_run, exists_dir_run.
  destruct (bool_decide _) eqn:E; simpl; [done|]. by rewrite (glob_md_dir_absent E).
Qed.

(** Runs the monadic primitives of a goal down to matches on the vault. *)
Ltac run_monad :=
  cbv [mbind M_bind mret M_ret get_fs put_fs emit now raise try_except
       read_text stat_mtime logger_info logger_debug logger_error
       glob_md exists_dir write_dashboard eval exec];
  cbn [fst snd fs trace ticks clock dirs logs dashboard].

Lemma eval_active_plans_loop (l acc : list string) (w : world) :
  eval (active_plans_loop l acc) w = Ok (acc ++ List.filter (is_active (fs w)) l).
Proof.
  revert acc w. induction l as [|f l IH]; intros acc w; simpl.
  - by rewrite app_nil_r.
  - unfold eval in *. rewrite bind_run. unfold is_active at 1. run_monad.
    destruct (lookup_file (fs w) Plans f) as [[[c|] t]|]; cbn [text].
    + destruct (contains _ _); rewrite IH; [|done].
      by rewrite <- app_assoc.
    + by rewrite IH.
    + by rewrite IH.
Qed.

Lemma eval_check_active_plans (w : world) :
  eval check_active_plans w
  = Ok (List.filter (is_active (fs w)) (glob_md_dir (dirs (fs w) !! Plans))).
Proof.
  unfold check_active_plans, eval. rewrite bind_run, exists_dir_run.
  destruct (bool_decide _) eqn:E; simpl.
  - rewrite bind_run, glob_md_run. apply (eval_active_plans_loop _ [] w).
  - by rewrite (glob_md_dir_absent E).
Qed.

Lemma eval_count_files (w : world) : eval count_files w = Ok (counts_of (fs w)).
Proof.
  unfold count_files, eval.
  rewrite bind_run, glob_md_run, bind_run, glob_md_run, bind_run, exists_dir_run.
  rewrite bind_run.
  assert (forall (b : bool),
    (if b then glob_md Pending_Approval else mret []) w
    = (Ok (if b then glob_md_dir (dirs (fs w) !! Pending_Approval) else []), w)) as Hp
    by (by intros []).
  rewrite Hp. rewrite bind_run.
  pose proof (eval_check_active_plans w) as Ha.
  pose proof (benign_check_active_plans w) as (Hd & _).
  unfold eval, exec in *.
  destruct (check_active_plans w) as [r w']; simpl in *. subst r. simpl.
  unfold counts_of. do 2 f_equal.
  destruct (bool_decide _) eqn:E; [done|]. by rewrite (glob_md_dir_absent E).
Qed.

(** ** Computations that only read *)

Lemma world_eta (w : world) : MkWorld (fs w) (clock w) (ticks w) (trace w) = w.
Proof. by destruct w. Qed.

Lemma readonly_ret {A} (a : A) : readonly (mret a : M A).
Proof. intros w. exists []. rewrite app_nil_r. symmetry. apply world_eta. Qed.

Lemma readonly_raise {A} (e : exn) : readonly (raise e : M A).
Proof. intros w. exists []. rewrite app_nil_r. symmetry. apply world_eta. Qed.

Lemma readonly_get_fs : readonly get_fs.
Proof. intros w. exists []. rewrite app_nil_r. symmetry. apply world_eta. Qed.

Lemma readonly_emit (e : effect) : readonly (emit e).
Proof. intros w. by exists [e]. Qed.

Lemma readonly_bind {A B} (m : M A) (f : A -> M B) :
  readonly m -> (forall a, readonly (f a)) -> readonly (m ≫= f).
Proof.
  intros Hm Hf w. destruct (Hm w) as [tr Ht]. unfold exec in *. rewrite bind_run.
  destruct (m w) as [[a|e] w']; simpl in *; [|by exists tr].
  destruct (Hf a w') as [tr' Ht']. unfold exec in *.
  exists (tr ++ tr'). rewrite Ht', Ht. cbn. by rewrite app_assoc.
Qed.

Lemma readonly_try {A} (body : M A) (h : exn -> M A) :
  readonly body -> (forall e, readonly (h e)) -> readonly (try_except body h).
Proof.
  intros Hm Hf w. destruct (Hm w) as [tr Ht]. unfold exec, try_except in *.
  destruct (body w) as [[a|e] w']; simpl in *; [by exists tr|].
  destruct (Hf e w') as [tr' Ht']. unfold exec in *.
  exists (tr ++ tr'). rewrite Ht', Ht. cbn. by rewrite app_assoc.
Qed.

#[export] Hint Resolve readonly_ret readonly_raise readonly_get_fs readonly_emit
  : vault.

Ltac readonly_step :=
  first
    [ solve [eauto with vault]
    | apply readonly_try; [|intros ?]
    | apply readonly_bind; [|intros ?]
    | match goal with
      | |- readonly (match ?x with _ => _ end) => destruct x
      | |- readonly (if ?x then _ else _) => destruct x
      end ].

Ltac readonly_all := repeat readonly_step.

Lemma readonly_glob_md (f : folder) : readonly (glob_md f).
Proof. unfold glob_md. readonly_all. Qed.

Lemma readonly_exists_dir (f : folder) : readonly (exists_dir f).
Proof. unfold exists_dir. readonly_all. Qed.

Lemma readonly_read_text (f : folder) (name : string) : readonly (read_text f name).
Proof. unfold read_text. readonly_all. Qed.

Lemma readonly_stat_mtime (f : folder) (name : string) : readonly (stat_mtime f name).
Proof. unfold stat_mtime. readonly_all. Qed.

Lemma readonly_logger_info (msg : string) : readonly (logger_info msg).
Proof. unfold logger_info. readonly_all. Qed.

Lemma readonly_logger_debug (msg : string) (e : exn) : readonly (logger_debug msg e).
Proof. unfold logger_debug. readonly_all. Qed.

#[export] Hint Resolve readonly_glob_md readonly_exists_dir readonly_read_text
  readonly_stat_mtime readonly_logger_info readonly_logger_debug : vault.

Lemma readonly_active_plans_loop (l acc : list string) :
  readonly (active_plans_loop l acc).
Proof. revert acc. induction l as [|f l IH]; intros acc; simpl; readonly_all. Qed.

#[export] Hint Resolve readonly_active_plans_loop : vault.

Lemma readonly_check_active_plans : readonly check_active_plans.
Proof. unfold check_active_plans. readonly_all. Qed.

#[export] Hint Resolve readonly_check_active_plans : vault.

Lemma readonly_count_files : readonly count_files.
Proof. unfold count_files. readonly_all. Qed.

(** [count_files], run: the counts of the vault, and some logging. *)
Lemma count_files_run (w : world) :
  exists tr,
    count_files w
    = (Ok (counts_of (fs w)), MkWorld (fs w) (clock w) (ticks w) (trace w ++ tr)).
Proof.
  destruct (readonly_count_files w) as [tr Ht]. exists tr.
  pose proof (eval_count_files w) as He. unfold eval, exec in *.
  destruct (count_files w) as [r w']. simpl in *. by subst.
Qed.

(** [update_dashboard], run: the dashboard is rewritten, or created, from the
    counts of the vault and one reading of the clock. *)
Lemma update_dashboard_run (w : world) :
  exists tr,
    update_dashboard w =
    (Ok tt,
     MkWorld
       (MkVault (dirs (fs w)) (logs (fs w))
          (Some (next_dashboard (clock w (ticks w)) (counts_of (fs w))
                   (dashboard (fs w)))))
       (clock w) (S (ticks w)) (trace w ++ tr)).
Proof.
  destruct (count_files_run w) as [tr Hc].
  unfold update_dashboard. rewrite bind_run, Hc.
  unfold _create_dashboard, next_dashboard. run_monad.
  destruct (dashboard (fs w)) as [content|].
  - exists (tr ++ [Logger INFO "Dashboard updated" None]).
    rewrite app_assoc. reflexivity.
  - exists tr. reflexivity.
Qed.

(** ** One approved record *)

Ltac run_approved :=
  unfold process_approved_file, process_approved_body, _write_log, shutil_move;
  run_monad.

(** The record is text and the Logs and Done directories exist: the whole
    body runs. *)
Lemma process_approved_file_moves (w : world) (f : string) (x : file) (c : string)
    (a d : gmap string file) (l : gmap string string) :
  dirs (fs w) !! Approved = Some a -> a !! f = Some x -> text x = Some c ->
  logs (fs w) = Some l -> dirs (fs w) !! Done = Some d ->
  let t0 := clock w (ticks w) in
  let t1 := clock w (S (ticks w)) in
  let act := Orchestrator.extract_field c "action" in
  process_approved_file f w =
  (Ok tt,
   MkWorld
     (MkVault (<[Done := <[f := x]> d]> (<[Approved := delete f a]> (dirs (fs w))))
        (Some (<[log_file_name t1 :=
                  default "" (l !! log_file_name t1) +:+ approval_log_entry t0 f act]> l))
        (dashboard (fs w)))
     (clock w) (S (S (ticks w)))
     (trace w ++ [Logger INFO (processing_message f act) None;
                  Appended (log_file_name t1) (approval_log_entry t0 f act);
                  Moved Approved Done f;
                  Logger INFO (moved_message f) None])).
Proof.
  intros Ha Hx Hc Hl Hd t0 t1 act. run_approved.
  unfold lookup_file. rewrite Ha. cbn [mbind option_bind]. rewrite Hx, Hc.
  cbn [fs logs dirs]. rewrite Hl. cbn [fs logs dirs]. rewrite Ha, Hx.
  rewrite lookup_insert_ne by done. rewrite Hd.
  cbn [fs logs dirs clock ticks trace dashboard default id].
  repeat rewrite <- app_assoc. reflexivity.
Qed.

(** Otherwise the body raises somewhere before the move is done, and the
    handler logs the error: no folder changes. *)
Lemma process_approved_file_fails (w : world) (f : string) :
  can_process (fs w) f = false ->
  exists e pre,
    eval (process_approved_file f) w = Ok tt /\
    dirs (fs (exec (process_approved_file f) w)) = dirs (fs w) /\
    (is_Some (logs (fs (exec (process_approved_file f) w))) <-> is_Some (logs (fs w))) /\
    dashboard (fs (exec (process_approved_file f) w)) = dashboard (fs w) /\
    clock (exec (process_approved_file f) w) = clock w /\
    trace (exec (process_approved_file f) w)
    = trace w ++ pre ++ [Logger ERROR (error_message f) (Some e)] /\
    Forall (fun e => is_moved e = false) pre.
Proof.
  unfold can_process, lookup_file. intros Hc. run_approved. unfold lookup_file.
  destruct (dirs (fs w) !! Approved) as [a|] eqn:Ha; cbn [mbind option_bind] in *.
  2:{ exists FileNotFoundError, []. cbn. by repeat split. }
  destruct (a !! f) as [x|] eqn:Hx.
  2:{ exists FileNotFoundError, []. cbn. by repeat split. }
  destruct (text x) as [c|] eqn:Ht.
  2:{ exists UnicodeDecodeError, []. cbn. by repeat split. }
  cbn [fs logs dirs].
  destruct (logs (fs w)) as [l|] eqn:Hl.
  2:{ exists FileNotFoundError, [Logger INFO (processing_message f (Orchestrator.extract_field c "action")) None].
      cbn. rewrite Hl. repeat split; try done. rewrite <- app_assoc. done.
      by repeat constructor. }
  cbn [fs logs dirs]. rewrite Ha, Hx.
  destruct (dirs (fs w) !! Done) as [d|] eqn:Hd.
  { exfalso. rewrite !bool_decide_eq_true_2 in Hc by eauto. done. }
  eexists FileNotFoundError, [_; _]. cbn.
  repeat split; eauto.
  - rewrite <- !app_assoc. reflexivity.
  - by repeat constructor.
Qed.

Lemma can_process_true (v : vault) (f : string) :
  can_process v f = true ->
  exists a x c l d,
    dirs v !! Approved = Some a /\ a !! f = Some x /\ text x = Some c /\
    logs v = Some l /\ dirs v !! Done = Some d.
Proof.
  unfold can_process, lookup_file.
  destruct (dirs v !! Approved) as [a|] eqn:Ha; cbn [mbind option_bind]; [|done].
  destruct (a !! f) as [x|] eqn:Hx; [|done].
  intros H. apply andb_prop in H as [H Hd]. apply andb_prop in H as [Hc Hl].
  apply bool_decide_eq_true in Hc as [c Hc], Hl as [l Hl], Hd as [d Hd].
  exists a, x, c, l, d. by repeat split.
Qed.

Lemma can_process_ext (v v' : vault) (f : string) :
  dirs v' = dirs v -> (is_Some (logs v') <-> is_Some (logs v)) ->
  can_process v' f = can_process v f.
Proof.
  intros Hd Hl. unfold can_process, lookup_file. rewrite Hd.
  destruct (dirs v !! Approved ≫= _); [|done].
  by rewrite (bool_decide_ext _ _ Hl).
Qed.

(** ** Steps that move nothing *)

Lemma quiet_refl (w : world) : quiet w w.
Proof. repeat split; try done. exists []. by rewrite app_nil_r. Qed.

Lemma quiet_trans (w1 w2 w3 : world) : quiet w1 w2 -> quiet w2 w3 -> quiet w1 w3.
Proof.
  intros (Hd & Hl & Hc & tr & Ht & Hq) (Hd' & Hl' & Hc' & tr' & Ht' & Hq').
  split; [congruence|]. split; [by rewrite Hl'|]. split; [congruence|].
  exists (tr ++ tr'). split; [by rewrite Ht', Ht, app_assoc|]. by apply Forall_app.
Qed.

Lemma benign_quiet {A} (m : M A) (w : world) : benign m -> quiet w (exec m w).
Proof.
  intros H. destruct (H w) as (Hd & Hl & Hc & Ht). repeat split; try done.
  all: by rewrite Hl.
Qed.

Lemma process_approved_file_quiet (w : world) (f : string) :
  can_process (fs w) f = false -> quiet w (exec (process_approved_file f) w).
Proof.
  intros H.
  destruct (process_approved_file_fails w f H)
    as (e & pre & _ & Hd & Hl & _ & Hc & Ht & Hq).
  repeat split; try done; try apply Hl.
  eexists. split; [exact Ht|]. apply Forall_app. split; [done|]. by repeat constructor.
Qed.

Lemma stuck_quiet (w w' : world) : quiet w w' -> stuck (fs w) -> stuck (fs w').
Proof.
  intros (Hd & Hl & _) Hs n Hn. rewrite (can_process_ext (fs w)) by done.
  apply Hs. by rewrite <- Hd.
Qed.

Lemma exec_seq {B} (m : M unit) (k : M B) (w : world) :
  total m -> exec (m ≫= fun _ => k) w = exec k (exec m w).
Proof. intros H. apply exec_bind_ok with (a := tt). by apply total_unit. Qed.

(** In a stuck vault the loop over any records of Approved moves nothing. *)
Lemma for_each_stuck_quiet (l : list string) (w : world) :
  (forall n, n ∈ l -> can_process (fs w) n = false) ->
  quiet w (exec (for_each l process_approved_file) w).
Proof.
  revert w. induction l as [|f l IH]; intros w Hl; cbn [for_each].
  - apply quiet_refl.
  - rewrite exec_seq by apply total_process_approved_file.
    assert (quiet w (exec (process_approved_file f) w)) as Hq
      by (apply process_approved_file_quiet, Hl; left).
    eapply quiet_trans; [exact Hq|]. apply IH. intros n Hn.
    destruct Hq as (Hd & Hlg & _). rewrite (can_process_ext (fs w)) by done.
    apply Hl. by right.
Qed.

Lemma process_approved_actions_stuck_quiet (w : world) :
  stuck (fs w) -> quiet w (exec process_approved_actions w).
Proof.
  intros Hs. unfold process_approved_actions, exec.
  rewrite bind_run, check_approved_actions_run. by apply for_each_stuck_quiet.
Qed.

(** ** Approved only shrinks *)

Lemma shrinks_refl (v : vault) : shrinks v v.
Proof. by repeat split. Qed.

Lemma shrinks_trans (v1 v2 v3 : vault) : shrinks v1 v2 -> shrinks v2 v3 -> shrinks v1 v3.
Proof.
  intros (Hl & Hd & Ha) (Hl' & Hd' & Ha').
  split; [by rewrite Hl'|]. split; [by rewrite Hd'|]. eauto.
Qed.

Lemma quiet_shrinks (w w' : world) : quiet w w' -> shrinks (fs w) (fs w').
Proof.
  intros (Hd & Hl & _). split; [done|]. split; [by rewrite Hd|].
  intros n x. by rewrite (lookup_file_dirs _ _ _ _ Hd).
Qed.

Lemma can_process_shrinks (v v' : vault) (n : string) :
  shrinks v v' -> can_process v n = false -> can_process v' n = false.
Proof.
  intros (Hl & Hd & Ha). unfold can_process.
  destruct (lookup_file v' Approved n) as [x|] eqn:E; [|done].
  rewrite (Ha _ _ E). intros H. rewrite <- H.
  by rewrite (bool_decide_ext _ _ Hl), (bool_decide_ext _ _ Hd).
Qed.

(** One record processed: Approved has lost it or it cannot be processed. *)
Lemma process_approved_file_step (w : world) (f : string) :
  shrinks (fs w) (fs (exec (process_approved_file f) w)) /\
  can_process (fs (exec (process_approved_file f) w)) f = false.
Proof.
  destruct (can_process (fs w) f) eqn:Hc.
  - destruct (can_process_true _ _ Hc) as (a & x & c & l & d & Ha & Hx & Ht & Hl & Hd).
    unfold exec. rewrite (process_approved_file_moves w f x c a d l) by done.
    cbn [snd fs]. split.
    + split; [cbn; rewrite Hl; split; eauto|].
      split; [cbn; rewrite lookup_insert_eq, Hd; split; eauto|].
      intros n y. unfold lookup_file. cbn [dirs].
      rewrite lookup_insert_ne by done. rewrite lookup_insert_eq, Ha.
      cbn [mbind option_bind]. intros Hn.
      apply lookup_delete_Some in Hn. tauto.
    + unfold can_process, lookup_file. cbn [dirs].
      rewrite lookup_insert_ne by done. rewrite lookup_insert_eq.
      cbn [mbind option_bind]. by rewrite lookup_delete_eq.
  - pose proof (process_approved_file_quiet w f Hc) as Hq. split.
    + by apply quiet_shrinks.
    + by apply (can_process_shrinks (fs w)); [apply quiet_shrinks|].
Qed.

(** The loop over a list of records: none of them can be processed after. *)
Lemma for_each_approved_step (l : list string) (w : world) :
  shrinks (fs w) (fs (exec (for_each l process_approved_file) w)) /\
  forall n, n ∈ l -> can_process (fs (exec (for_each l process_approved_file) w)) n = false.
Proof.
  revert w. induction l as [|f l IH]; intros w; cbn [for_each].
  - split; [apply shrinks_refl|]. intros n Hn. by apply elem_of_nil in Hn.
  - rewrite exec_seq by apply total_process_approved_file.
    destruct (process_approved_file_step w f) as [Hs Hf].
    destruct (IH (exec (process_approved_file f) w)) as [Hs' Hl].
    split; [by eapply shrinks_trans|].
    intros n [->|Hn]%elem_of_cons; [|by apply Hl].
    by eapply can_process_shrinks.
Qed.

Lemma elem_of_glob_md_dir (n : string) (d : option (gmap string file)) :
  n ∈ glob_md_dir d <-> is_md n = true /\ exists dd, d = Some dd /\ is_Some (dd !! n).
Proof.
  destruct d as [dd|]; cbn [glob_md_dir].
  - rewrite list_elem_of_In, filter_In, <- list_elem_of_In. unfold listdir.
    rewrite list_elem_of_fmap. split.
    + intros [[[k x] [-> Hk%elem_of_map_to_list]] Hmd]. split; [done|].
      exists dd. split; [done|]. by exists x.
    + intros [Hmd (dd' & [= <-] & [x Hx])]. split; [|done].
      exists (n, x). split; [done|]. by apply elem_of_map_to_list.
  - split; [by intros ?%elem_of_nil|]. by intros [_ (? & ? & _)].
Qed.

Lemma process_approved_actions_stuck (w : world) :
  stuck (fs (exec process_approved_actions w)).
Proof.
  unfold process_approved_actions, exec.
  rewrite bind_run, check_approved_actions_run.
  destruct (for_each_approved_step (glob_md_dir (dirs (fs w) !! Approved)) w)
    as [(_ & _ & Ha) Hl].
  unfold exec in *. intros n Hn. apply Hl.
  apply elem_of_glob_md_dir in Hn as [Hmd (dd & Hdd & [x Hx])].
  apply elem_of_glob_md_dir. split; [done|].
  specialize (Ha n x). unfold lookup_file in Ha. rewrite Hdd in Ha.
  specialize (Ha Hx).
  destruct (dirs (fs w) !! Approved) as [a|]; [|done].
  exists a. split; [done|]. by exists x.
Qed.

(** ** A whole pass *)

Lemma run_pass_exec (w : world) :
  exec run_pass w
  = exec update_dashboard
      (exec trigger_claude_processing
         (exec process_rejected_actions (exec process_approved_actions w))).
Proof.
  unfold run_pass.
  rewrite exec_seq by apply total_process_approved_actions.
  rewrite exec_seq by apply total_process_rejected_actions.
  by rewrite exec_seq by apply total_trigger_claude_processing.
Qed.

Lemma run_pass_stuck (w : world) : stuck (fs (exec run_pass w)).
Proof.
  rewrite run_pass_exec.
  eapply stuck_quiet; [apply benign_quiet, benign_update_dashboard|].
  eapply stuck_quiet; [apply benign_quiet, benign_trigger_claude_processing|].
  eapply stuck_quiet; [apply benign_quiet, benign_process_rejected_actions|].
  apply process_approved_actions_stuck.
Qed.

Lemma run_pass_stuck_quiet (w : world) : stuck (fs w) -> quiet w (exec run_pass w).
Proof.
  intros Hs. rewrite run_pass_exec.
  eapply quiet_trans; [|apply benign_quiet, benign_update_dashboard].
  eapply quiet_trans; [|apply benign_quiet, benign_trigger_claude_processing].
  eapply quiet_trans; [|apply benign_quiet, benign_process_rejected_actions].
  by apply process_approved_actions_stuck_quiet.
Qed.

(** The dashboard is not touched by the loop over Approved. *)
Lemma process_approved_file_dashboard (w : world) (f : string) :
  dashboard (fs (exec (process_approved_file f) w)) = dashboard (fs w).
Proof.
  destruct (can_process (fs w) f) eqn:Hc.
  - destruct (can_process_true _ _ Hc) as (a & x & c & l & d & Ha & Hx & Ht & Hl & Hd).
    unfold exec. by rewrite (process_approved_file_moves w f x c a d l).
  - by destruct (process_approved_file_fails w f Hc) as (e & pre & _ & _ & _ & Hd & _).
Qed.

Lemma for_each_approved_dashboard (l : list string) (w : world) :
  dashboard (fs (exec (for_each l process_approved_file) w)) = dashboard (fs w).
Proof.
  revert w. induction l as [|f l IH]; intros w; cbn [for_each]; [done|].
  rewrite exec_seq by apply total_process_approved_file.
  by rewrite IH, process_approved_file_dashboard.
Qed.

Lemma process_approved_actions_dashboard (w : world) :
  dashboard (fs (exec process_approved_actions w)) = dashboard (fs w).
Proof.
  unfold process_approved_actions, exec.
  rewrite bind_run, check_approved_actions_run. apply for_each_approved_dashboard.
Qed.

Lemma readonly_for_each {A} (xs : list A) (body : A -> M unit) :
  (forall x, readonly (body x)) -> readonly (for_each xs body).
Proof.
  intros Hb. induction xs as [|x xs IH]; cbn [for_each].
  - apply readonly_ret.
  - apply readonly_bind; [apply Hb | intros _; exact IH].
Qed.

Lemma readonly_process_rejected_actions : readonly process_rejected_actions.
Proof.
  unfold process_rejected_actions. readonly_all.
  apply readonly_for_each. intros x. readonly_all.
Qed.

Lemma readonly_fs {A} (m : M A) (w : world) : readonly m -> fs (exec m w) = fs w.
Proof. intros H. destruct (H w) as [tr ->]. reflexivity. Qed.

Lemma readonly_total_run (m : M unit) (w : world) :
  readonly m -> total m ->
  exists tr, m w = (Ok tt, MkWorld (fs w) (clock w) (ticks w) (trace w ++ tr)).
Proof.
  intros Hr Ht. destruct (Hr w) as [tr E]. exists tr.
  pose proof (total_unit m w Ht) as Hv. unfold exec, eval in *.
  destruct (m w) as [r w']. cbn in *. by subst.
Qed.

Lemma logger_info_run (msg : string) (w : world) :
  logger_info msg w
  = (Ok tt, MkWorld (fs w) (clock w) (ticks w) (trace w ++ [Logger INFO msg None])).
Proof. reflexivity. Qed.

(** [trigger_claude_processing] leaves the dashboard as it finds it, or
    rewrites it from the counts of the vault; it reads the clock at most
    once. *)
Lemma trigger_claude_processing_dashboard (w : world) :
  let w' := exec trigger_claude_processing w in
  (dashboard (fs w') = dashboard (fs w) /\ ticks w' = ticks w) \/
  (dashboard (fs w')
   = Some (next_dashboard (clock w (ticks w)) (counts_of (fs w)) (dashboard (fs w)))
   /\ ticks w' = S (ticks w)).
Proof.
  unfold trigger_claude_processing, exec.
  rewrite bind_run, check_needs_action_run.
  destruct (glob_md_dir _) as [|f l]; [by left|]. right.
  set (files := f :: l).
  rewrite bind_run, logger_info_run, bind_run, logger_info_run, bind_run.
  match goal with
  | |- context [for_each files ?b ?v] =>
      destruct (readonly_total_run (for_each files b) v) as [tr1 E1];
        [ apply readonly_for_each; intros; readonly_all
        | apply total_for_each; intros; total_all
        | rewrite E1 ]
  end.
  cbn [fs clock ticks trace]. rewrite bind_run.
  match goal with
  | |- context [update_dashboard ?v] =>
      destruct (update_dashboard_run v) as [tr Hu]; rewrite Hu
  end.
  cbn [fs clock ticks trace dirs logs dashboard].
  by rewrite bind_run, logger_info_run, logger_info_run.
Qed.




(** The dashboard that a pass leaves was written from the counts of the
    vault as the pass leaves it. *)
Lemma run_pass_dashboard (w : world) :
  exists t d,
    dashboard (fs (exec run_pass w))
    = Some (next_dashboard t (counts_of (fs (exec run_pass w))) d).
Proof.
  rewrite run_pass_exec.
  set (w' := exec trigger_claude_processing _).
  destruct (update_dashboard_run w') as [tr Hu].
  unfold exec. rewrite Hu. cbn [snd fs dashboard].
  exists (clock w' (ticks w')), (dashboard (fs w')). do 2 f_equal.
  all: by apply counts_of_dirs.
Qed.

(** From a stuck vault, it is the dashboard found, rewritten once or twice
    from the counts of that vault. *)
Lemma run_pass_dashboard_stuck (w : world) :
  stuck (fs w) ->
  exists t d,
    dashboard (fs (exec run_pass w)) = Some (next_dashboard t (counts_of (fs w)) d) /\
    (d = dashboard (fs w) \/
     exists t', d = Some (next_dashboard t' (counts_of (fs w)) (dashboard (fs w)))).
Proof.
  intros Hs. rewrite run_pass_exec.
  set (wa := exec process_approved_actions w).
  set (wr := exec process_rejected_actions wa).
  set (wt := exec trigger_claude_processing wr).
  assert (dirs (fs wa) = dirs (fs w)) as Da
    by apply (process_approved_actions_stuck_quiet w Hs).
  assert (fs wr = fs wa) as Fr
    by apply readonly_fs, readonly_process_rejected_actions.
  assert (dirs (fs wt) = dirs (fs wr)) as Dt
    by apply (benign_trigger_claude_processing wr).
  assert (dashboard (fs wr) = dashboard (fs w)) as Hd
    by (rewrite Fr; apply process_approved_actions_dashboard).
  assert (counts_of (fs wr) = counts_of (fs w)) as Cr
    by (apply counts_of_dirs; congruence).
  destruct (update_dashboard_run wt) as [tr Hu].
  unfold exec. rewrite Hu. cbn [snd fs dashboard].
  exists (clock wt (ticks wt)), (dashboard (fs wt)). split.
  - do 2 f_equal. apply counts_of_dirs. congruence.
  - destruct (trigger_claude_processing_dashboard wr) as [[H _]|[H _]]; fold wt in H.
    + left. congruence.
    + right. exists (clock wr (ticks wr)). by rewrite H, Cr, Hd.
Qed.


(** ** What one record's turn leaves alone *)

(** Processing [g] touches no file of another name, in any folder, and
    records no move of another name. *)
Lemma process_approved_file_frame (w : world) (g n : string) :
  n <> g ->
  (forall X, lookup_file (fs (exec (process_approved_file g) w)) X n
             = lookup_file (fs w) X n) /\
  exists tr, trace (exec (process_approved_file g) w) = trace w ++ tr /\
             Forall (fun e => moves_name n e = false) tr.
Proof.
  intros Hn. destruct (can_process (fs w) g) eqn:Hc.
  - destruct (can_process_true _ _ Hc) as (a & x & c & l & d & Ha & Hx & Ht & Hl & Hd).
    unfold exec. rewrite (process_approved_file_moves w g x c a d l) by done.
    cbn [snd fs trace]. split.
    + intros X. unfold lookup_file. cbn [dirs].
      destruct (decide (X = Done)) as [->|HD].
      { rewrite lookup_insert_eq, Hd. cbn [mbind option_bind].
        by rewrite lookup_insert_ne. }
      rewrite lookup_insert_ne by done.
      destruct (decide (X = Approved)) as [->|HA].
      { rewrite lookup_insert_eq, Ha. cbn [mbind option_bind].
        by rewrite lookup_delete_ne. }
      by rewrite lookup_insert_ne.
    + eexists. split; [reflexivity|]. repeat constructor. cbn.
      apply String.eqb_neq. congruence.
  - destruct (process_approved_file_fails w g Hc)
      as (e & pre & _ & Hd & _ & _ & _ & Ht & Hq). split.
    + intros X. by apply lookup_file_dirs.
    + eexists. split; [exact Ht|]. apply Forall_app. split.
      * eapply Forall_impl; [exact Hq|]. by intros [].
      * by repeat constructor.
Qed.

(** Folders other than Approved and Done are not touched at all. *)
Lemma process_approved_file_other_folders (w : world) (g : string) (X : folder) :
  X <> Approved -> X <> Done ->
  dirs (fs (exec (process_approved_file g) w)) !! X = dirs (fs w) !! X.
Proof.
  intros HA HD. destruct (can_process (fs w) g) eqn:Hc.
  - destruct (can_process_true _ _ Hc) as (a & x & c & l & d & Ha & Hx & Ht & Hl & Hd).
    unfold exec. rewrite (process_approved_file_moves w g x c a d l) by done.
    cbn [snd fs dirs]. by rewrite !lookup_insert_ne.
  - destruct (process_approved_file_fails w g Hc) as (e & pre & _ & Hd & _).
    by rewrite Hd.
Qed.

Lemma for_each_approved_frame (l : list string) (w : world) (n : string) :
  n ∉ l ->
  (forall X, lookup_file (fs (exec (for_each l process_approved_file) w)) X n
             = lookup_file (fs w) X n) /\
  exists tr, trace (exec (for_each l process_approved_file) w) = trace w ++ tr /\
             Forall (fun e => moves_name n e = false) tr.
Proof.
  revert w. induction l as [|g l IH]; intros w Hn; cbn [for_each].
  - split; [done|]. exists []. by rewrite app_nil_r.
  - apply not_elem_of_cons in Hn as [Hg Hl].
    rewrite exec_seq by apply total_process_approved_file.
    destruct (process_approved_file_frame w g n Hg) as (HX & tr & Ht & Hq).
    destruct (IH (exec (process_approved_file g) w) Hl) as (HX' & tr' & Ht' & Hq').
    split.
    + intros X. by rewrite HX', HX.
    + exists (tr ++ tr'). split; [by rewrite Ht', Ht, app_assoc|]. by apply Forall_app.
Qed.

Lemma for_each_approved_other_folders (l : list string) (w : world) (X : folder) :
  X <> Approved -> X <> Done ->
  dirs (fs (exec (for_each l process_approved_file) w)) !! X = dirs (fs w) !! X.
Proof.
  intros HA HD. revert w. induction l as [|g l IH]; intros w; cbn [for_each]; [done|].
  rewrite exec_seq by apply total_process_approved_file.
  by rewrite IH, process_approved_file_other_folders.
Qed.

Lemma NoDup_glob_md_dir (d : option (gmap string file)) : NoDup (glob_md_dir d).
Proof.
  destruct d as [d|]; cbn [glob_md_dir]; [|constructor].
  apply NoDup_ListNoDup, List.NoDup_filter, NoDup_ListNoDup, NoDup_fst_map_to_list.
Qed.

(** The two ways in which the turn of a record that is in Approved ends. *)
Lemma process_approved_file_outcome (w : world) (f : string) (x : file) :
  lookup_file (fs w) Approved f = Some x ->
  let w' := exec (process_approved_file f) w in
  (exists msg logfile entry,
     trace w' = trace w ++ [Logger INFO msg None; Appended logfile entry;
                            Moved Approved Done f; Logger INFO (moved_message f) None] /\
     lookup_file (fs w') Done f = Some x /\
     lookup_file (fs w') Approved f = None)
  \/
  (exists e pre,
     trace w' = trace w ++ pre ++ [Logger ERROR (error_message f) (Some e)] /\
     Forall (fun e => is_moved e = false) pre /\
     dirs (fs w') = dirs (fs w)).
Proof.
  intros Hx w'. subst w'. destruct (can_process (fs w) f) eqn:Hc.
  - left.
    destruct (can_process_true _ _ Hc) as (a & y & c & l & d & Ha & Hy & Ht & Hl & Hd).
    assert (y = x) as ->.
    { unfold lookup_file in Hx. rewrite Ha in Hx. cbn in Hx. congruence. }
    unfold exec. rewrite (process_approved_file_moves w f x c a d l) by done.
    cbn [snd fs trace]. do 3 eexists. split; [reflexivity|].
    unfold lookup_file. cbn [dirs]. split.
    + rewrite lookup_insert_eq. cbn. by rewrite lookup_insert_eq.
    + rewrite lookup_insert_ne by done. rewrite lookup_insert_eq. cbn.
      by rewrite lookup_delete_eq.
  - right.
    destruct (process_approved_file_fails w f Hc)
      as (e & pre & _ & Hd & _ & _ & _ & Ht & Hq).
    by exists e, pre.
Qed.

Lemma moves_name_is_moved (n : string) (e : effect) :
  is_moved e = false -> moves_name n e = false.
Proof. by destruct e. Qed.

(** The loop over distinct records, one of which is [f]. *)
Lemma for_each_approved_record (l : list string) (w : world) (f : string) (x : file) :
  NoDup l -> f ∈ l -> lookup_file (fs w) Approved f = Some x ->
  let w' := exec (for_each l process_approved_file) w in
  exists tr, trace w' = trace w ++ tr /\
  ((exists pre post logfile entry,
      tr = pre ++ [Appended logfile entry; Moved Approved Done f] ++ post /\
      lookup_file (fs w') Done f = Some x /\
      lookup_file (fs w') Approved f = None)
   \/
   (exists e, Logger ERROR (error_message f) (Some e) ∈ tr /\
      Forall (fun e => moves_name f e = false) tr /\
      lookup_file (fs w') Approved f = Some x /\
      lookup_file (fs w') Done f = lookup_file (fs w) Done f)).
Proof.
  revert w. induction l as [|g l IH]; intros w Hnd Hf Hx; cbn zeta.
  { by apply elem_of_nil in Hf. }
  apply NoDup_cons in Hnd as [Hg Hnd]. cbn [for_each].
  rewrite exec_seq by apply total_process_approved_file.
  set (w1 := exec (process_approved_file g) w).
  destruct (decide (f = g)) as [->|Hne].
  - destruct (for_each_approved_frame l w1 g Hg) as (HX & tr' & Ht' & Hq').
    destruct (process_approved_file_outcome w g x Hx)
      as [(msg & lf & en & Ht & HD & HA)|(e & pre & Ht & Hq & Hd)]; fold w1 in Ht.
    + fold w1 in HD, HA. eexists. split; [rewrite Ht', Ht, <- app_assoc; reflexivity|].
      left. exists [Logger INFO msg None], (Logger INFO (moved_message g) None :: tr'), lf, en.
      split; [done|]. by rewrite !HX.
    + fold w1 in Hd. eexists. split; [rewrite Ht', Ht, <- app_assoc; reflexivity|].
      right. exists e. split; [|split; [|split]].
      * rewrite !elem_of_app. left. right. by left.
      * repeat apply Forall_app_2; try done.
        -- eapply Forall_impl; [exact Hq|]. intros. by apply moves_name_is_moved.
        -- by repeat constructor.
      * by rewrite HX, (lookup_file_dirs _ _ _ _ Hd).
      * by rewrite HX, (lookup_file_dirs _ _ _ _ Hd).
  - apply elem_of_cons in Hf as [?|Hf]; [done|].
    destruct (process_approved_file_frame w g f Hne) as (HX & tr & Ht & Hq).
    fold w1 in HX, Ht.
    destruct (IH w1 Hnd Hf) as (tr' & Ht' & Hout); [by rewrite HX|].
    exists (tr ++ tr'). split; [by rewrite Ht', Ht, app_assoc|].
    destruct Hout as [(pre & post & lf & en & -> & HD & HA)|(e & He & Hq' & HA & HD)].
    + left. exists (tr ++ pre), post, lf, en. split; [by rewrite <- app_assoc|]. done.
    + right. exists e. split; [|split; [|split]]; try done.
      * rewrite elem_of_app. by right.
      * by apply Forall_app.
      * by rewrite HD, HX.
Qed.

(** ** When the body of the loop raises *)


Lemma process_approved_body_raises (w : world) (f : string) :
  can_process (fs w) f = false -> exists e, eval (process_approved_body f) w = Raise e.
Proof.
  unfold can_process, lookup_file. intros Hc.
  unfold process_approved_body, _write_log, shutil_move. run_monad. unfold lookup_file.
  destruct (dirs (fs w) !! Approved) as [a|] eqn:Ha; cbn [mbind option_bind] in *;
    [|by eexists].
  destruct (a !! f) as [x|] eqn:Hx; [|by eexists].
  destruct (text x) as [c|] eqn:Ht; [|by eexists].
  cbn [fs logs dirs].
  destruct (logs (fs w)) as [l|] eqn:Hl; [|by eexists].
  cbn [fs logs dirs]. rewrite Ha, Hx.
  destruct (dirs (fs w) !! Done) as [d|] eqn:Hd; [|by eexists].
  exfalso. rewrite !bool_decide_eq_true_2 in Hc by eauto. done.
Qed.


(** ** The folders after the loop depend on the folders before it only *)

Lemma process_approved_file_similar (w1 w2 : world) (f : string) :
  similar w1 w2 ->
  similar (exec (process_approved_file f) w1) (exec (process_approved_file f) w2).
Proof.
  intros [Hd Hl].
  assert (can_process (fs w1) f = can_process (fs w2) f) as Hc
    by (by apply can_process_ext).
  destruct (can_process (fs w2) f) eqn:Hc2.
  - destruct (can_process_true _ _ Hc) as (a & x & c & l & d & Ha & Hx & Ht & Hlg & HD).
    destruct (can_process_true _ _ Hc2) as (a' & x' & c' & l' & d' & Ha' & Hx' & Ht' & Hlg' & HD').
    unfold exec.
    rewrite (process_approved_file_moves w1 f x c a d l) by done.
    rewrite (process_approved_file_moves w2 f x' c' a' d' l') by done.
    rewrite Hd in Ha, HD. simplify_eq. split; cbn; [by rewrite Hd|]. split; eauto.
  - destruct (process_approved_file_fails w1 f Hc) as (e & pre & _ & D1 & L1 & _).
    destruct (process_approved_file_fails w2 f Hc2) as (e' & pre' & _ & D2 & L2 & _).
    split; [congruence|]. by rewrite L1, L2.
Qed.

Lemma for_each_approved_similar (l : list string) (w1 w2 : world) :
  similar w1 w2 ->
  similar (exec (for_each l process_approved_file) w1)
          (exec (for_each l process_approved_file) w2).
Proof.
  revert w1 w2. induction l as [|f l IH]; intros w1 w2 H; cbn [for_each]; [done|].
  rewrite !exec_seq by apply total_process_approved_file.
  by apply IH, process_approved_file_similar.
Qed.

(** ** Folders that a pass never touches *)

Lemma run_pass_other_folders (w : world) (X : folder) :
  X <> Approved -> X <> Done ->
  dirs (fs (exec run_pass w)) !! X = dirs (fs w) !! X.
Proof.
  intros HA HD. rewrite run_pass_exec.
  destruct (benign_update_dashboard
              (exec trigger_claude_processing
                 (exec process_rejected_actions (exec process_approved_actions w))))
    as [-> _].
  destruct (benign_trigger_claude_processing
              (exec process_rejected_actions (exec process_approved_actions w)))
    as [-> _].
  destruct (benign_process_rejected_actions (exec process_approved_actions w))
    as [-> _].
  unfold process_approved_actions, exec.
  rewrite bind_run, check_approved_actions_run.
  by apply for_each_approved_other_folders.
Qed.

Lemma run_passes_exec_S (n : nat) (w : world) :
  exec (run_passes (S n)) w = exec (run_passes n) (exec run_pass w).
Proof. cbn [run_passes]. by rewrite exec_seq by apply total_run_pass. Qed.

Lemma run_passes_other_folders (n : nat) (w : world) (X : folder) :
  X <> Approved -> X <> Done ->
  dirs (fs (exec (run_passes n) w)) !! X = dirs (fs w) !! X.
Proof.
  intros HA HD. revert w. induction n as [|n IH]; intros w; [done|].
  by rewrite run_passes_exec_S, IH, run_pass_other_folders.
Qed.

(** ** Files that are not [*.md] *)

Lemma length_filter_same (P P' : string -> bool) (l l' : list string) :
  NoDup l -> NoDup l' -> (forall m, m ∈ l' <-> m ∈ l) ->
  (forall m, m ∈ l -> P' m = P m) ->
  length (List.filter P' l') = length (List.filter P l).
Proof.
  intros Hl Hl' Hm HP. apply Permutation_length, NoDup_Permutation.
  - by apply NoDup_ListNoDup, List.NoDup_filter, NoDup_ListNoDup.
  - by apply NoDup_ListNoDup, List.NoDup_filter, NoDup_ListNoDup.
  - intros m. rewrite !list_elem_of_In, !filter_In, <- !list_elem_of_In, Hm.
    split; intros [Hin Hp]; (split; [done|]).
    + by rewrite <- HP.
    + by rewrite HP.
Qed.

Lemma glob_md_dir_place (v : vault) (f X : folder) (n m : string) (x : file) :
  is_md n = false ->
  m ∈ glob_md_dir (dirs (place v f n x) !! X) <-> m ∈ glob_md_dir (dirs v !! X).
Proof.
  intros Hn. unfold place. destruct (dirs v !! f) as [d|] eqn:Hd; [|done]. cbn [dirs].
  destruct (decide (X = f)) as [->|Hne]; [|by rewrite lookup_insert_ne].
  rewrite lookup_insert_eq, Hd, !elem_of_glob_md_dir.
  split; intros [Hmd (dd & [= <-] & Hs)]; (split; [done|]); eexists; (split; [done|]).
  - rewrite lookup_insert_ne in Hs; [done|]. congruence.
  - rewrite lookup_insert_ne; [done|]. congruence.
Qed.

Lemma lookup_file_place (v : vault) (f X : folder) (n m : string) (x : file) :
  m <> n -> lookup_file (place v f n x) X m = lookup_file v X m.
Proof.
  intros Hn. unfold place, lookup_file.
  destruct (dirs v !! f) as [d|] eqn:Hd; [|done]. cbn [dirs].
  destruct (decide (X = f)) as [->|Hne]; [|by rewrite lookup_insert_ne].
  rewrite lookup_insert_eq, Hd. cbn. by rewrite lookup_insert_ne.
Qed.

(** A file that is not [*.md], put into any folder, changes no count. *)
Lemma counts_of_place (v : vault) (f : folder) (n : string) (x : file) :
  is_md n = false -> counts_of (place v f n x) = counts_of v.
Proof.
  intros Hn. unfold counts_of.
  assert (forall X, length (glob_md_dir (dirs (place v f n x) !! X))
                    = length (glob_md_dir (dirs v !! X))) as HL.
  { intros X. apply Permutation_length, NoDup_Permutation;
      try apply NoDup_glob_md_dir.
    intros m. by apply glob_md_dir_place. }
  rewrite !HL. f_equal.
  apply length_filter_same; try apply NoDup_glob_md_dir.
  - intros m. by apply glob_md_dir_place.
  - intros m Hm. unfold is_active. rewrite lookup_file_place; [done|].
    apply elem_of_glob_md_dir in Hm as [Hm _]. congruence.
Qed.

(** The loop over Approved touches [*.md] files only. *)
Lemma process_approved_actions_frame (w : world) (n : string) :
  is_md n = false ->
  (forall X, lookup_file (fs (exec process_approved_actions w)) X n
             = lookup_file (fs w) X n) /\
  exists tr, trace (exec process_approved_actions w) = trace w ++ tr /\
             Forall (fun e => moves_name n e = false) tr.
Proof.
  intros Hn. unfold process_approved_actions, exec.
  rewrite bind_run, check_approved_actions_run.
  apply for_each_approved_frame. intros [Hmd _]%elem_of_glob_md_dir. congruence.
Qed.

Lemma benign_frame {A} (m : M A) (w : world) (n : string) :
  benign m ->
  (forall X, lookup_file (fs (exec m w)) X n = lookup_file (fs w) X n) /\
  exists tr, trace (exec m w) = trace w ++ tr /\
             Forall (fun e => moves_name n e = false) tr.
Proof.
  intros H. destruct (H w) as (Hd & _ & _ & tr & Ht & Hq). split.
  - intros X. by apply lookup_file_dirs.
  - exists tr. split; [done|]. eapply Forall_impl; [exact Hq|].
    intros e. apply moves_name_is_moved.
Qed.

Lemma run_pass_frame (w : world) (n : string) :
  is_md n = false ->
  (forall X, lookup_file (fs (exec run_pass w)) X n = lookup_file (fs w) X n) /\
  exists tr, trace (exec run_pass w) = trace w ++ tr /\
             Forall (fun e => moves_name n e = false) tr.
Proof.
  intros Hn. rewrite run_pass_exec.
  set (wa := exec process_approved_actions w).
  set (wr := exec process_rejected_actions wa).
  set (wt := exec trigger_claude_processing wr).
  destruct (process_approved_actions_frame w n Hn) as (X1 & t1 & T1 & Q1).
  destruct (benign_frame _ wa n benign_process_rejected_actions) as (X2 & t2 & T2 & Q2).
  destruct (benign_frame _ wr n benign_trigger_claude_processing) as (X3 & t3 & T3 & Q3).
  destruct (benign_frame _ wt n benign_update_dashboard) as (X4 & t4 & T4 & Q4).
  fold wa in X1, T1. fold wr in X2, T2. fold wt in X3, T3. split.
  - intros X. by rewrite X4, X3, X2, X1.
  - exists (t1 ++ t2 ++ t3 ++ t4). split.
    + rewrite T4, T3, T2, T1. by rewrite <- !app_assoc.
    + by repeat apply Forall_app_2.
Qed.

(** ** C1: two passes in a row *)

(** In a new vault, at 2026-11-03T13:35:00 and with a clock that advances by
    one second per reading, the fourth line of the dashboard after each of two
    passes. *)
Example fresh_world_dashboards :
  let w := world_of empty_vault in
  let w1 := exec run_pass w in
  let w2 := exec run_pass w1 in
  option_map (fun d => nth 3 (split NL d) "") (dashboard (fs w1))
  = Some "last_updated: 2026-11-03T13:35:00" /\
  option_map (fun d => nth 3 (split NL d) "") (dashboard (fs w2))
  = Some "last_updated: 2026-11-03T13:35:01".
Proof. vm_compute. split; reflexivity. Qed.

(** With a clock that stands still the second pass reproduces the dashboard
    of the first. *)
Example fresh_world_frozen_clock :
  let w := MkWorld empty_vault (ticking t0 0) 0 [] in
  let w1 := exec run_pass w in
  let w2 := exec run_pass w1 in
  dashboard (fs w2) = dashboard (fs w1).
Proof. vm_compute. reflexivity. Qed.

(** C1, as stated, fails: in a new vault, with a clock that advances by one
    second per reading, the dashboard after the second pass is not the
    dashboard after the first one (its [last_updated] line carries the time
    of the pass). *)
Lemma C1_dashboard_differs :
  let w := world_of empty_vault in
  let w1 := exec run_pass w in
  let w2 := exec run_pass w1 in
  dashboard (fs w2) <> dashboard (fs w1).
Proof.
  intros w w1 w2 H.
  assert (option_map (fun d => nth 3 (split NL d) "") (dashboard (fs w2))
          = option_map (fun d => nth 3 (split NL d) "") (dashboard (fs w1))) as H'
    by (by rewrite H).
  vm_compute in H'. discriminate H'.
Qed.

(** C1, amended: for every world, the second of two passes in a row returns
    normally, moves no file (the folders are as the first pass left them and
    its trace records no move), computes the same counts as the first pass
    ended with, and writes the dashboard from those counts: both dashboards
    are [next_dashboard _ c _] for the same [c], the second one made from the
    first by one or two rewritings, each at the time of its own reading of the
    clock. *)
Theorem C1_second_pass_moves_nothing (w : world) :
  let w1 := exec run_pass w in
  let w2 := exec run_pass w1 in
  eval run_pass w1 = Ok tt /\
  dirs (fs w2) = dirs (fs w1) /\
  (exists tr, trace w2 = trace w1 ++ tr /\ Forall (fun e => is_moved e = false) tr) /\
  exists c,
    eval count_files w1 = Ok c /\ eval count_files w2 = Ok c /\
    exists t1 d0 t2 d,
      dashboard (fs w1) = Some (next_dashboard t1 c d0) /\
      dashboard (fs w2) = Some (next_dashboard t2 c d) /\
      (d = dashboard (fs w1) \/
       exists t', d = Some (next_dashboard t' c (dashboard (fs w1)))).
Proof.
  intros w1 w2.
  pose proof (run_pass_stuck w) as Hs. fold w1 in Hs.
  destruct (run_pass_stuck_quiet w1 Hs) as (Hd & _ & _ & Ht). fold w2 in Hd, Ht.
  split; [apply total_unit, total_run_pass|].
  split; [exact Hd|]. split; [exact Ht|].
  exists (counts_of (fs w1)). split; [apply eval_count_files|].
  split; [rewrite eval_count_files; f_equal; by apply counts_of_dirs|].
  destruct (run_pass_dashboard w) as (t1 & d0 & H1). fold w1 in H1.
  destruct (run_pass_dashboard_stuck w1 Hs) as (t2 & d & H2 & Hdd). fold w2 in H2.
  by exists t1, d0, t2, d.
Qed.

(** ** C2: an approved record is logged, then moved; an error leaves it *)



(** ** C3: rejected records *)

(** C3 fails on the code.  A new vault with one record in Rejected: after a
    whole pass the record is still in Rejected and in no other folder; the
    pass has only logged that it is archiving it, and the trace holds no
    move. *)
Theorem C3_rejected_record_not_archived :
  let w := world_of (vault_with Rejected {["offer.md" := note "action: send_email"]}) in
  let w' := exec run_pass w in
  eval run_pass w = Ok tt /\
  dirs (fs w') !! Rejected = Some {["offer.md" := note "action: send_email"]} /\
  (forall X, X <> Rejected -> lookup_file (fs w') X "offer.md" = None) /\
  trace w' = [Logger INFO "Archiving rejected action: offer.md" None;
              Logger INFO "No files to process" None].
Proof.
  intros w w'. split; [apply total_unit, total_run_pass|].
  split; [vm_compute; reflexivity|].
  split; [|vm_compute; reflexivity].
  intros [] HX; try done; vm_compute; reflexivity.
Qed.

(** ** C5: a record that is gone when its turn comes *)

(** C5, as stated, fails: Approved is empty, a record listed before is gone.
    The move raises [FileNotFoundError] (there is no conflict result), and
    the loop logs an error for the record. *)
Lemma C5_vanished_record_is_logged_as_error :
  let w := world_of empty_vault in
  eval (shutil_move Approved Done "gone.md") w = Raise FileNotFoundError /\
  trace (exec (for_each ["gone.md"] process_approved_file) w)
  = [Logger ERROR "Error processing approved action gone.md: " (Some FileNotFoundError)].
Proof. split; vm_compute; reflexivity. Qed.

(** C5, amended: when a listed record [f] is no longer in Approved, the move
    raises [FileNotFoundError]; the loop catches it, logs it as an error like
    any other failure and changes nothing else (so no copy appears in Done);
    the loop goes on and returns normally, and the folders end up as if [f]
    had not been listed. *)
Theorem C5_vanished_record_skipped (w : world) (f : string) (rest : list string) :
  lookup_file (fs w) Approved f = None ->
  eval (shutil_move Approved Done f) w = Raise FileNotFoundError /\
  exec (process_approved_file f) w
  = MkWorld (fs w) (clock w) (ticks w)
      (trace w ++ [Logger ERROR (error_message f) (Some FileNotFoundError)]) /\
  eval (for_each (f :: rest) process_approved_file) w = Ok tt /\
  dirs (fs (exec (for_each (f :: rest) process_approved_file) w))
  = dirs (fs (exec (for_each rest process_approved_file) w)).
Proof.
  intros Hf.
  assert (exec (process_approved_file f) w
          = MkWorld (fs w) (clock w) (ticks w)
              (trace w ++ [Logger ERROR (error_message f) (Some FileNotFoundError)]))
    as Hstep.
  { unfold exec. run_approved. by rewrite Hf. }
  split; [|split; [exact Hstep|split]].
  - unfold shutil_move. run_monad. unfold lookup_file in Hf.
    destruct (dirs (fs w) !! Approved) as [a|]; [|done]. cbn in Hf. by rewrite Hf.
  - apply total_unit, total_for_each. intros. apply total_process_approved_file.
  - cbn [for_each]. rewrite exec_seq by apply total_process_approved_file.
    apply for_each_approved_similar. by rewrite Hstep.
Qed.

(** The theorem at a vault whose Approved holds reply.md, for a listed record gone.md that is not there. *)
Lemma C5_vanished_record_witness :
  let w := world_of (vault_with Approved {["reply.md" := note "action: send_email"]}) in
  lookup_file (fs w) Approved "gone.md" = None /\
  dirs (fs (exec (for_each ["gone.md"; "reply.md"] process_approved_file) w))
  = dirs (fs (exec (for_each ["reply.md"] process_approved_file) w)).
Proof.
  intros w.
  assert (lookup_file (fs w) Approved "gone.md" = None) as H by (vm_compute; reflexivity).
  split; [exact H|].
  exact (proj2 (proj2 (proj2 (C5_vanished_record_skipped w "gone.md" ["reply.md"] H)))).
Defined.

(** ** C9: one bad record does not stop the others *)



(** ** C10: only [*.md] files count *)

(** C10.  A file whose name does not end in [.md] is in no list that the check
    operations return, changes no count of the dashboard when it is put into
    a folder, and is left where it is by a pass, which records no move of
    it. *)
Theorem C10_only_md_files_are_seen (w : world) (n : string) :
  is_md n = false ->
  (forall l,
     eval check_needs_action w = Ok l \/ eval check_pending_approvals w = Ok l \/
     eval check_approved_actions w = Ok l \/ eval check_active_plans w = Ok l ->
     n ∉ l) /\
  (forall f x, eval count_files (with_fs w (place (fs w) f n x)) = eval count_files w) /\
  (forall X, lookup_file (fs (exec run_pass w)) X n = lookup_file (fs w) X n) /\
  (exists tr, trace (exec run_pass w) = trace w ++ tr /\
              Forall (fun e => moves_name n e = false) tr).
Proof.
  intros Hn. split; [|split; [|by apply run_pass_frame]].
  - intros l H Hin.
    assert (forall X, n ∉ glob_md_dir (dirs (fs w) !! X)) as Hg.
    { intros X [Hmd _]%elem_of_glob_md_dir. congruence. }
    unfold eval in H.
    rewrite check_needs_action_run, check_pending_approvals_run,
      check_approved_actions_run in H.
    fold (eval check_active_plans w) in H. rewrite eval_check_active_plans in H.
    cbn [fst] in H.
    destruct H as [[= <-]|[[= <-]|[[= <-]|[= <-]]]]; try by eapply Hg.
    apply list_elem_of_In, filter_In in Hin as [Hin _].
    apply list_elem_of_In in Hin. by eapply Hg.
  - intros f x. rewrite !eval_count_files. cbn [with_fs fs]. f_equal.
    by apply counts_of_place.
Qed.

(** The theorem for notes.txt put into Needs_Action. *)
Lemma C10_only_md_files_witness :
  let w := world_of (vault_with Approved {["reply.md" := note "action: send_email"]}) in
  is_md "notes.txt" = false /\
  eval count_files
    (with_fs w (place (fs w) Needs_Action "notes.txt" (note "to do"))) = eval count_files w.
Proof.
  intros w.
  assert (is_md "notes.txt" = false) as H by reflexivity.
  split; [exact H|].
  exact (proj1 (proj2 (C10_only_md_files_are_seen w "notes.txt" H)) Needs_Action (note "to do")).
Defined.

(** ** The weekly audit *)

Lemma stale_loop_run (t : datetime) (l : list string) (acc : list bottleneck)
    (w : world) :
  stale_loop t l acc w = (Ok (acc ++ stale_entries (fs w) t l), w).
Proof.
  revert acc. induction l as [|f l IH]; intros acc; cbn [stale_loop stale_entries flat_map].
  - by rewrite app_nil_r.
  - rewrite bind_run. run_monad.
    destruct (lookup_file (fs w) Needs_Action f) as [x|]; cbn zeta.
    + destruct (3 <? days (t - mtime x)); rewrite IH; [|done].
      by rewrite <- app_assoc.
    + by rewrite IH.
Qed.

(** The second loop, when every pending file can be read: it returns, the
    vault is as before, and what it adds are entries for expired approvals,
    among them one for each file whose [expires] field parses to a naive
    datetime that every later reading of the clock is past. *)
Lemma expired_loop_run (fi : string -> option parsed) (l : list string)
    (acc : list bottleneck) (w : world) :
  readable (fs w) Pending_Approval l ->
  exists bs k,
    expired_loop fi l acc w = (Ok (acc ++ bs), MkWorld (fs w) (clock w) k (trace w)) /\
    (ticks w <= k)%nat /\
    (forall b, b ∈ bs -> exists g, g ∈ l /\ b = expired_bottleneck g) /\
    (forall f x c e d,
       f ∈ l -> lookup_file (fs w) Pending_Approval f = Some x -> text x = Some c ->
       WeeklyAudit.extract_field c "expires" = Some e -> e <> "" ->
       fi (replace "+00:00" "" (replace "Z" "+00:00" e)) = Some (Naive d) ->
       (forall j, (ticks w <= j)%nat -> d < clock w j) ->
       expired_bottleneck f ∈ bs).
Proof.
  revert acc w. induction l as [|g l IH]; intros acc w Hr.
  { exists [], (ticks w). cbn [expired_loop]. rewrite app_nil_r.
    split; [by destruct w|]. split; [done|]. split; intros; by apply elem_of_nil in H. }
  destruct (Hr g) as (y & c & Hy & Hc); [by left|].
  assert (readable (fs w) Pending_Approval l) as Hr' by (intros h Hh; apply Hr; by right).
  destruct w as [v ck tk tr]. cbn [fs clock ticks trace] in *.
  cbn [expired_loop]. rewrite bind_run. run_monad. rewrite Hy, Hc.
  (* the accumulator and the ticks after the turn of [g] *)
  assert (forall acc' k',
    (tk <= k')%nat ->
    (exists bs0, acc' = acc ++ bs0 /\
       (forall b, b ∈ bs0 -> b = expired_bottleneck g) /\
       (forall e d, WeeklyAudit.extract_field c "expires" = Some e -> e <> "" ->
          fi (replace "+00:00" "" (replace "Z" "+00:00" e)) = Some (Naive d) ->
          (forall j, (tk <= j)%nat -> d < ck j) ->
          expired_bottleneck g ∈ bs0)) ->
    exists bs k,
      expired_loop fi l acc' (MkWorld v ck k' tr)
      = (Ok (acc ++ bs), MkWorld v ck k tr) /\
      (tk <= k)%nat /\
      (forall b, b ∈ bs -> exists h, h ∈ g :: l /\ b = expired_bottleneck h) /\
      (forall f x c0 e d,
         f ∈ g :: l -> lookup_file v Pending_Approval f = Some x ->
         text x = Some c0 ->
         WeeklyAudit.extract_field c0 "expires" = Some e -> e <> "" ->
         fi (replace "+00:00" "" (replace "Z" "+00:00" e)) = Some (Naive d) ->
         (forall j, (tk <= j)%nat -> d < ck j) ->
         expired_bottleneck f ∈ bs)) as Hrest.
  { intros acc' k' Hk (bs0 & -> & Hb0 & Hg0).
    destruct (IH (acc ++ bs0) (MkWorld v ck k' tr) Hr')
      as (bs & k & Hrun & Hk2 & Hb & Hf).
    cbn [fs clock ticks trace] in *.
    exists (bs0 ++ bs), k. split; [by rewrite Hrun, app_assoc|].
    split; [lia|]. split.
    - intros b [Hin|Hin]%elem_of_app.
      + exists g. split; [by left|]. by apply Hb0.
      + destruct (Hb b Hin) as (h & Hh & ->). exists h. split; [by right|done].
    - intros f x c0 e d [->|Hin]%elem_of_cons Hx Hc0 He Hne Hfi Hpast.
      + rewrite Hy in Hx. simplify_eq. apply elem_of_app. left. by eapply Hg0.
      + apply elem_of_app. right. eapply Hf; eauto. intros j Hj. apply Hpast. lia. }
  destruct (WeeklyAudit.extract_field c "expires") as [[|a e]|] eqn:He.
  - apply Hrest; [done|].
    exists []. rewrite app_nil_r. split; [done|]. split; [by intros b ?%elem_of_nil|].
    by intros e d [= <-].
  - destruct (fi (replace "+00:00" "" (replace "Z" "+00:00" (String a e))))
      as [[d|d]|] eqn:Hfi; cbn [fs clock ticks trace].
    + destruct (d <? ck tk) eqn:Hlt; cbn [fs clock ticks trace].
      * apply Hrest; [lia|]. exists [expired_bottleneck g]. split; [done|]. split.
        -- by intros b ->%list_elem_of_singleton.
        -- intros. by left.
      * apply Hrest; [lia|]. exists []. rewrite app_nil_r. split; [done|]. split.
        -- by intros b ?%elem_of_nil.
        -- intros e' d' [= <-] _ Hfi' Hpast. rewrite Hfi in Hfi'. simplify_eq.
           specialize (Hpast tk). apply Z.ltb_ge in Hlt. lia.
    + apply Hrest; [lia|]. exists []. rewrite app_nil_r. split; [done|]. split.
      * by intros b ?%elem_of_nil.
      * intros e' d' [= <-] _ Hfi'. by rewrite Hfi in Hfi'.
    + apply Hrest; [done|].
      exists []. rewrite app_nil_r. split; [done|]. split.
      * by intros b ?%elem_of_nil.
      * intros e' d' [= <-] _ Hfi'. by rewrite Hfi in Hfi'.
  - apply Hrest; [done|].
    exists []. rewrite app_nil_r. split; [done|]. split; [by intros b ?%elem_of_nil|].
    by intros e d.
Qed.

Lemma elem_of_stale_entries (v : vault) (t : datetime) (l : list string)
    (b : bottleneck) :
  b ∈ stale_entries v t l <->
  exists g y, g ∈ l /\ lookup_file v Needs_Action g = Some y /\
              3 < days (t - mtime y) /\ b = stale_bottleneck g (days (t - mtime y)).
Proof.
  unfold stale_entries. rewrite list_elem_of_In, in_flat_map. split.
  - intros (g & Hg & Hb). apply list_elem_of_In in Hg.
    destruct (lookup_file v Needs_Action g) as [y|] eqn:Hy; [|done].
    cbn zeta in Hb. destruct (3 <? days (t - mtime y)) eqn:Hlt; [|done].
    destruct Hb as [<-|[]]. exists g, y. repeat split; try done. by apply Z.ltb_lt.
  - intros (g & y & Hg & Hy & Hlt & ->). exists g. split; [by apply list_elem_of_In|].
    rewrite Hy. cbn zeta. apply Z.ltb_lt in Hlt. rewrite Hlt. by left.
Qed.

(** [analyze_bottlenecks], when every pending file can be read. *)
Lemma analyze_bottlenecks_run (fi : string -> option parsed)
    (needs pending : list string) (w : world) :
  readable (fs w) Pending_Approval pending ->
  exists bs k,
    analyze_bottlenecks fi needs pending w
    = (Ok (stale_entries (fs w) (clock w (ticks w)) needs ++ bs),
       MkWorld (fs w) (clock w) k (trace w)) /\
    (S (ticks w) <= k)%nat /\
    (forall b, b ∈ bs -> exists g, g ∈ pending /\ b = expired_bottleneck g) /\
    (forall f x c e d,
       f ∈ pending -> lookup_file (fs w) Pending_Approval f = Some x ->
       text x = Some c ->
       WeeklyAudit.extract_field c "expires" = Some e -> e <> "" ->
       fi (replace "+00:00" "" (replace "Z" "+00:00" e)) = Some (Naive d) ->
       (forall j, (S (ticks w) <= j)%nat -> d < clock w j) ->
       expired_bottleneck f ∈ bs).
Proof.
  intros Hr.
  assert (analyze_bottlenecks fi needs pending w
          = expired_loop fi pending (stale_entries (fs w) (clock w (ticks w)) needs)
              (MkWorld (fs w) (clock w) (S (ticks w)) (trace w))) as Hstep.
  { unfold analyze_bottlenecks. rewrite bind_run.
    change (now w) with (Ok (clock w (ticks w)),
                         MkWorld (fs w) (clock w) (S (ticks w)) (trace w)).
    cbn beta iota. by rewrite bind_run, stale_loop_run. }
  destruct (expired_loop_run fi pending (stale_entries (fs w) (clock w (ticks w)) needs)
              (MkWorld (fs w) (clock w) (S (ticks w)) (trace w)) Hr)
    as (bs & k & Hrun & Hk & Hb & Hf).
  exists bs, k. by rewrite Hstep, Hrun.
Qed.

(** ** C7: an expired approval is flagged, not moved *)

Lemma readonly_files_in_week_loop (X : folder) (a b : datetime) (l acc : list string) :
  readonly (files_in_week_loop X a b l acc).
Proof.
  revert acc. induction l as [|f l IH]; intros acc; cbn [files_in_week_loop];
    readonly_all.
Qed.

Lemma total_files_in_week_loop (X : folder) (a b : datetime) (l acc : list string) :
  total (files_in_week_loop X a b l acc).
Proof.
  revert acc. induction l as [|f l IH]; intros acc; cbn [files_in_week_loop];
    total_all.
Qed.

#[export] Hint Resolve readonly_files_in_week_loop total_files_in_week_loop : vault.

Lemma readonly_get_files_in_week (X : folder) (a : datetime) :
  readonly (get_files_in_week X a).
Proof. unfold get_files_in_week. readonly_all. Qed.

Lemma total_get_files_in_week (X : folder) (a : datetime) :
  total (get_files_in_week X a).
Proof. unfold get_files_in_week. total_all. Qed.

(** The audit reads the clock once, gathers the Needs_Action files of the
    week and all pending approvals, and runs the analysis on them. *)
Lemma generate_audit_bottlenecks_run (fi : string -> option parsed) (w : world) :
  exists needs tr,
    generate_audit_bottlenecks fi w
    = analyze_bottlenecks fi needs (glob_md_dir (dirs (fs w) !! Pending_Approval))
        (MkWorld (fs w) (clock w) (S (ticks w)) (trace w ++ tr)) /\
    eval (get_files_in_week Needs_Action (get_week_start (clock w (ticks w))))
      (MkWorld (fs w) (clock w) (S (ticks w)) (trace w)) = Ok needs.
Proof.
  unfold generate_audit_bottlenecks. rewrite bind_run.
  change (now w) with (Ok (clock w (ticks w)),
                       MkWorld (fs w) (clock w) (S (ticks w)) (trace w)).
  cbn beta iota. rewrite bind_run.
  set (w1 := MkWorld (fs w) (clock w) (S (ticks w)) (trace w)).
  set (m := get_files_in_week Needs_Action (get_week_start (clock w (ticks w)))).
  destruct (readonly_get_files_in_week Needs_Action
              (get_week_start (clock w (ticks w))) w1) as [tr Hro].
  destruct (total_get_files_in_week Needs_Action
              (get_week_start (clock w (ticks w))) w1) as [needs Hev].
  fold m in Hro, Hev. unfold exec in Hro. unfold eval in Hev |- *.
  destruct (m w1) as [r w2]. cbn in Hro, Hev. subst r w2.
  exists needs, tr. split; [|done]. rewrite bind_run, exists_dir_run. cbn [fs fst snd].
  rewrite bind_run.
  destruct (bool_decide _) eqn:E; cbn [fs].
  - by rewrite glob_md_run.
  - cbn. by rewrite (glob_md_dir_absent E).
Qed.



(** ** C8: stale records of Needs_Action *)

(** What [analyze_bottlenecks] does with a Needs_Action file that it is
    given.  Let every file of the pending list be readable, and let [f] be
    one of the files handed to the analysis, present in the folder, of age
    [age_days] (whole days between its modification time and the time the
    analysis reads).  The analysis returns; its list holds the entry of [f],
    with impact Medium below 7 days and High otherwise, when [age_days]
    exceeds 3; when it does not, an entry with that item can only be an
    expired approval. *)
Lemma analyze_bottlenecks_flags_stale (fi : string -> option parsed)
    (w : world) (needs pending : list string) (f : string) (x : file) :
  readable (fs w) Pending_Approval pending ->
  f ∈ needs -> lookup_file (fs w) Needs_Action f = Some x ->
  let age_days := days (clock w (ticks w) - mtime x) in
  exists bs,
    eval (analyze_bottlenecks fi needs pending) w = Ok bs /\
    (3 < age_days ->
     Bottleneck ("Item in Needs_Action for " +:+ of_Z age_days +:+ " days") f
       (if age_days <? 7 then "Medium" else "High")
       "Review and process or archive" ∈ bs) /\
    (age_days <= 3 ->
     forall b, b ∈ bs -> item b = f -> b = expired_bottleneck f).
Proof.
  intros Hr Hf Hx age_days.
  destruct (analyze_bottlenecks_run fi needs pending w Hr)
    as (bs & k & Hrun & Hk & Hb & _).
  unfold eval. rewrite Hrun. cbn [fst]. eexists. split; [reflexivity|]. split.
  - intros Hage. apply elem_of_app. left. apply elem_of_stale_entries.
    by exists f, x.
  - intros Hage b [Hin|Hin]%elem_of_app Hitem.
    + apply elem_of_stale_entries in Hin as (g & y & Hg & Hy & Hlt & ->).
      cbn in Hitem. subst g. rewrite Hx in Hy. simplify_eq. unfold age_days in Hage. lia.
    + destruct (Hb b Hin) as (g & _ & ->). cbn in Hitem. by subst g.
Qed.

(** The files that [get_files_in_week] returns were modified on or after the
    start of the week. *)
Lemma files_in_week_loop_recent (X : folder) (a b : datetime) (l acc : list string)
    (w : world) (r : list string) :
  eval (files_in_week_loop X a b l acc) w = Ok r ->
  forall f, f ∈ r ->
    f ∈ acc \/ exists x, lookup_file (fs w) X f = Some x /\ a <= mtime x < b.
Proof.
  revert acc w. induction l as [|g l IH]; intros acc w; cbn [files_in_week_loop].
  - unfold eval. cbn. intros [= <-] f Hf. by left.
  - unfold eval. rewrite bind_run. run_monad.
    destruct (lookup_file (fs w) X g) as [x|] eqn:Hx.
    + destruct ((a <=? mtime x) && (mtime x <? b)) eqn:Hin; intros Hr f Hf.
      * destruct (IH _ _ Hr f Hf) as [[Hacc| ->%list_elem_of_singleton]%elem_of_app|H];
          [by left| |by right].
        right. exists x. split; [done|]. apply andb_prop in Hin as [H1 H2].
        apply Z.leb_le in H1. apply Z.ltb_lt in H2. lia.
      * exact (IH _ _ Hr f Hf).
    + intros Hr f Hf.
      destruct (IH acc (MkWorld (fs w) (clock w) (ticks w)
                          (trace w ++ [Logger DEBUG ("Error checking file " +:+ g +:+ ": ")
                                         (Some FileNotFoundError)])) Hr f Hf)
        as [?|?]; [by left|by right].
Qed.

Lemma get_files_in_week_recent (X : folder) (a : datetime) (w : world)
    (r : list string) :
  eval (get_files_in_week X a) w = Ok r ->
  forall f, f ∈ r ->
    exists x, lookup_file (fs w) X f = Some x /\ a <= mtime x < a + timedelta_days 7.
Proof.
  unfold get_files_in_week, eval. rewrite bind_run, exists_dir_run.
  destruct (bool_decide _); cbn [negb].
  - rewrite bind_run, glob_md_run. intros Hr f Hf.
    destruct (files_in_week_loop_recent _ _ _ _ _ _ _ Hr f Hf) as [Hin|H]; [|done].
    by apply elem_of_nil in Hin.
  - cbn. intros [= <-] f Hf. by apply elem_of_nil in Hf.
Qed.

(** A record of Needs_Action last modified before the start of the week
    never gets an entry of the first loop in the audit, whatever its age: an
    entry of the audit with its name can only be an expired approval. *)
Lemma audit_skips_records_before_week (fi : string -> option parsed) (w : world)
    (f : string) (x : file) (bs : list bottleneck) :
  readable (fs w) Pending_Approval (glob_md_dir (dirs (fs w) !! Pending_Approval)) ->
  lookup_file (fs w) Needs_Action f = Some x ->
  mtime x < get_week_start (clock w (ticks w)) ->
  eval (generate_audit_bottlenecks fi) w = Ok bs ->
  forall b, b ∈ bs -> item b = f -> b = expired_bottleneck f.
Proof.
  intros Hr Hx Hold Hev b Hb Hitem.
  destruct (generate_audit_bottlenecks_run fi w) as (needs & tr & Hgen & Hneeds).
  set (w1 := MkWorld (fs w) (clock w) (S (ticks w)) (trace w ++ tr)) in *.
  destruct (analyze_bottlenecks_run fi needs
              (glob_md_dir (dirs (fs w) !! Pending_Approval)) w1 Hr)
    as (bs' & k & Hrun & _ & Hexp & _).
  unfold eval in Hev. rewrite Hgen, Hrun in Hev. cbn [fst] in Hev.
  injection Hev as <-. apply elem_of_app in Hb as [Hb|Hb].
  - apply elem_of_stale_entries in Hb as (g & y & Hg & Hy & _ & ->).
    cbn in Hitem. subst g. cbn [fs w1] in Hy. rewrite Hx in Hy. simplify_eq.
    destruct (get_files_in_week_recent _ _ _ _ Hneeds f Hg) as (z & Hz & Hrecent & _).
    cbn [fs] in Hz. rewrite Hx in Hz. simplify_eq. lia.
  - destruct (Hexp b Hb) as (g & _ & ->). cbn in Hitem. by subst g.
Qed.

(** C8 fails on the code.  Needs_Action holds one record, last modified on
    2026-10-01; the audit runs on 2026-11-03, a Tuesday, 33 days later.  The
    analysis, given the record, lists it with impact High; but the audit hands
    the analysis only the files modified since the start of the week
    (2026-11-02T13:35:00), so its bottleneck list is empty. *)
Theorem C8_old_record_not_analysed :
  let w := world_of (vault_with Needs_Action {["todo.md" := note "type: email"]}) in
  days (clock w 0 - mtime (note "type: email")) = 33 /\
  isoformat (get_week_start (clock w 0)) = "2026-11-02T13:35:00" /\
  eval (analyze_bottlenecks fromisoformat_date ["todo.md"] []) w
  = Ok [Bottleneck "Item in Needs_Action for 33 days" "todo.md" "High"
          "Review and process or archive"] /\
  eval (get_files_in_week Needs_Action (get_week_start (clock w 0))) w = Ok [] /\
  eval (generate_audit_bottlenecks fromisoformat_date) w = Ok [].
Proof. repeat split; vm_compute; reflexivity. Qed.

(** ** The audit looks at Needs_Action and Pending_Approval only *)

Lemma agree_refl (w : world) : agree w w.
Proof. by repeat split. Qed.

Lemma respects_ret {A} (a : A) : respects (mret a : M A).
Proof. by intros w1 w2 H. Qed.

Lemma respects_raise {A} (e : exn) : respects (raise e : M A).
Proof. by intros w1 w2 H. Qed.

Lemma respects_bind {A B} (m : M A) (f : A -> M B) :
  respects m -> (forall a, respects (f a)) -> respects (m ≫= f).
Proof.
  intros Hm Hf w1 w2 H. destruct (Hm w1 w2 H) as [He Ha].
  unfold eval, exec in *. rewrite !bind_run.
  destruct (m w1) as [[a1|e1] w1'], (m w2) as [[a2|e2] w2']; cbn in *; simplify_eq.
  - by apply Hf.
  - done.
Qed.

Lemma respects_try {A} (body : M A) (h : exn -> M A) :
  respects body -> (forall e, respects (h e)) -> respects (try_except body h).
Proof.
  intros Hm Hf w1 w2 H. destruct (Hm w1 w2 H) as [He Ha].
  unfold eval, exec, try_except in *.
  destruct (body w1) as [[a1|e1] w1'], (body w2) as [[a2|e2] w2']; cbn in *; simplify_eq.
  - done.
  - by apply Hf.
Qed.

Lemma respects_now : respects now.
Proof.
  intros w1 w2 (Hc & Ht & Hn & Hp). unfold eval, exec. cbn.
  rewrite Hc, Ht. by repeat split.
Qed.

Lemma respects_emit (e : effect) : respects (emit e).
Proof. by intros w1 w2 H. Qed.

Lemma lookup_file_agree (w1 w2 : world) (X : folder) (n : string) :
  agree w1 w2 -> X = Needs_Action \/ X = Pending_Approval ->
  lookup_file (fs w1) X n = lookup_file (fs w2) X n.
Proof.
  intros (_ & _ & Hn & Hp) [->| ->]; unfold lookup_file; by rewrite ?Hn, ?Hp.
Qed.

Lemma respects_read_text (X : folder) (n : string) :
  X = Needs_Action \/ X = Pending_Approval -> respects (read_text X n).
Proof.
  intros HX w1 w2 H. unfold read_text. run_monad.
  rewrite (lookup_file_agree w1 w2 X n H HX).
  destruct (lookup_file (fs w2) X n) as [[[c|] t]|]; by split.
Qed.

Lemma respects_stat_mtime (X : folder) (n : string) :
  X = Needs_Action \/ X = Pending_Approval -> respects (stat_mtime X n).
Proof.
  intros HX w1 w2 H. unfold stat_mtime. run_monad.
  rewrite (lookup_file_agree w1 w2 X n H HX).
  destruct (lookup_file (fs w2) X n) as [[c t]|]; by split.
Qed.

Lemma respects_glob_md (X : folder) :
  X = Needs_Action \/ X = Pending_Approval -> respects (glob_md X).
Proof.
  intros HX w1 w2 H. unfold eval, exec. rewrite !glob_md_run. cbn. split; [|done].
  destruct H as (_ & _ & Hn & Hp). destruct HX as [-> | ->]; by rewrite ?Hn, ?Hp.
Qed.

Lemma respects_exists_dir (X : folder) :
  X = Needs_Action \/ X = Pending_Approval -> respects (exists_dir X).
Proof.
  intros HX w1 w2 H. unfold eval, exec. rewrite !exists_dir_run. cbn. split; [|done].
  destruct H as (_ & _ & Hn & Hp). destruct HX as [-> | ->]; by rewrite ?Hn, ?Hp.
Qed.

#[export] Hint Resolve respects_ret respects_raise respects_now respects_emit : vault.
#[export] Hint Extern 1 (respects (read_text _ _)) =>
  apply respects_read_text; auto : vault.
#[export] Hint Extern 1 (respects (stat_mtime _ _)) =>
  apply respects_stat_mtime; auto : vault.
#[export] Hint Extern 1 (respects (glob_md _)) =>
  apply respects_glob_md; auto : vault.
#[export] Hint Extern 1 (respects (exists_dir _)) =>
  apply respects_exists_dir; auto : vault.

Ltac respects_step :=
  first
    [ solve [eauto with vault]
    | apply respects_try; [|intros ?]
    | apply respects_bind; [|intros ?]
    | match goal with
      | |- respects (match ?x with _ => _ end) => destruct x
      | |- respects (if ?x then _ else _) => destruct x
      end ].

Ltac respects_all := repeat respects_step.

Lemma respects_logger_debug (msg : string) (e : exn) : respects (logger_debug msg e).
Proof. unfold logger_debug. respects_all. Qed.

#[export] Hint Resolve respects_logger_debug : vault.

Lemma respects_files_in_week_loop (X : folder) (a b : datetime) (l acc : list string) :
  X = Needs_Action \/ X = Pending_Approval ->
  respects (files_in_week_loop X a b l acc).
Proof.
  intros HX. revert acc.
  induction l as [|f l IH]; intros acc; cbn [files_in_week_loop]; respects_all.
Qed.

Lemma respects_get_files_in_week (X : folder) (a : datetime) :
  X = Needs_Action \/ X = Pending_Approval -> respects (get_files_in_week X a).
Proof.
  intros HX. unfold get_files_in_week. respects_all.
  by apply respects_files_in_week_loop.
Qed.

Lemma respects_stale_loop (t : datetime) (l : list string) (acc : list bottleneck) :
  respects (stale_loop t l acc).
Proof. revert acc. induction l as [|f l IH]; intros acc; cbn [stale_loop]; respects_all. Qed.

Lemma respects_expired_loop (fi : string -> option parsed) (l : list string)
    (acc : list bottleneck) :
  respects (expired_loop fi l acc).
Proof.
  revert acc. induction l as [|f l IH]; intros acc; cbn [expired_loop]; respects_all.
Qed.

#[export] Hint Resolve respects_stale_loop respects_expired_loop : vault.

Lemma respects_analyze_bottlenecks (fi : string -> option parsed)
    (needs pending : list string) :
  respects (analyze_bottlenecks fi needs pending).
Proof. unfold analyze_bottlenecks. respects_all. Qed.

#[export] Hint Resolve respects_analyze_bottlenecks : vault.
#[export] Hint Extern 1 (respects (get_files_in_week _ _)) =>
  apply respects_get_files_in_week; auto : vault.

(** The bottleneck list of the audit is the same whatever the other folders,
    the Logs directory and the dashboard hold. *)
Lemma respects_generate_audit_bottlenecks (fi : string -> option parsed) :
  respects (generate_audit_bottlenecks fi).
Proof. unfold generate_audit_bottlenecks. respects_all. Qed.

(** ** C4: records that keep failing *)

Lemma run_passes_stuck_quiet (n : nat) (w : world) :
  stuck (fs w) -> quiet w (exec (run_passes n) w).
Proof.
  revert w. induction n as [|n IH]; intros w Hs; [apply quiet_refl|].
  rewrite run_passes_exec_S.
  pose proof (run_pass_stuck_quiet w Hs) as Hq.
  eapply quiet_trans; [exact Hq|]. apply IH. by eapply stuck_quiet.
Qed.

(** In a stuck vault a pass attempts every record of Approved and logs its
    error. *)
Lemma stuck_pass_logs_error (w : world) (f : string) (x : file) :
  stuck (fs w) -> is_md f = true -> lookup_file (fs w) Approved f = Some x ->
  exists e tr, trace (exec run_pass w) = trace w ++ tr /\
               Logger ERROR (error_message f) (Some e) ∈ tr.
Proof.
  intros Hs Hmd Hx.
  assert (f ∈ glob_md_dir (dirs (fs w) !! Approved)) as Hf.
  { apply elem_of_glob_md_dir. split; [done|]. unfold lookup_file in Hx.
    destruct (dirs (fs w) !! Approved) as [a|]; [|done]. exists a. split; [done|].
    by exists x. }
  destruct (for_each_approved_record _ w f x (NoDup_glob_md_dir _) Hf Hx)
    as (tr & Ht & Hout).
  pose proof (for_each_stuck_quiet _ w Hs) as (Hd & _).
  assert (exec process_approved_actions w
          = exec (for_each (glob_md_dir (dirs (fs w) !! Approved))
                    process_approved_file) w) as Hw'.
  { unfold process_approved_actions, exec.
    by rewrite bind_run, check_approved_actions_run. }
  rewrite <- Hw' in Ht, Hout, Hd.
  destruct Hout as [(pre & post & lf & en & _ & _ & HA)|(e & He & _)].
  { rewrite (lookup_file_dirs _ _ _ _ Hd), Hx in HA. done. }
  rewrite run_pass_exec.
  set (wa := exec process_approved_actions w) in *.
  set (wr := exec process_rejected_actions wa).
  set (wt := exec trigger_claude_processing wr).
  destruct (benign_process_rejected_actions wa) as (_ & _ & _ & t2 & T2 & _).
  destruct (benign_trigger_claude_processing wr) as (_ & _ & _ & t3 & T3 & _).
  destruct (benign_update_dashboard wt) as (_ & _ & _ & t4 & T4 & _).
  fold wr in T2. fold wt in T3.
  exists e, (tr ++ t2 ++ t3 ++ t4). split.
  - rewrite T4, T3, T2, Ht. by rewrite <- !app_assoc.
  - apply elem_of_app. by left.
Qed.

(** C4, as stated, fails: a record of Approved that cannot be read fails on
    three passes in a row; after them the folders are exactly as before (the
    record carries no annotation), the three errors are in the trace, and the
    bottleneck list of the audit is empty. *)
Lemma C4_three_failures_leave_no_mark :
  let w := world_of (vault_with Approved {["R3.md" := garbled]}) in
  let w3 := exec (run_passes 3) w in
  dirs (fs w3) = dirs (fs w) /\
  length (List.filter (is_error_for "R3.md") (trace w3)) = 3%nat /\
  eval (generate_audit_bottlenecks fromisoformat_date) w3 = Ok [].
Proof. repeat split; vm_compute; reflexivity. Qed.

(** C4, amended: a record [f] that a pass has left in Approved (its
    processing raised) stays there: after any number [n] of further passes
    all folders are as that pass left them, so the record is unchanged and
    nothing marks it as stalled; the pass after those still attempts it and
    logs its error; and the bottleneck list of the audit depends on the
    Needs_Action and Pending_Approval folders only, so it is the same
    whatever Approved holds. *)
Theorem C4_failed_record_retried_not_flagged (fi : string -> option parsed)
    (w : world) (f : string) (x : file) (n : nat) :
  is_md f = true ->
  lookup_file (fs (exec run_pass w)) Approved f = Some x ->
  let w1 := exec run_pass w in
  let wn := exec (run_passes n) w1 in
  dirs (fs wn) = dirs (fs w1) /\
  lookup_file (fs wn) Approved f = Some x /\
  (exists e tr, trace (exec run_pass wn) = trace wn ++ tr /\
                Logger ERROR (error_message f) (Some e) ∈ tr) /\
  (forall v',
     dirs v' !! Needs_Action = dirs (fs wn) !! Needs_Action ->
     dirs v' !! Pending_Approval = dirs (fs wn) !! Pending_Approval ->
     eval (generate_audit_bottlenecks fi) (with_fs wn v')
     = eval (generate_audit_bottlenecks fi) wn).
Proof.
  intros Hmd Hx w1 wn.
  pose proof (run_pass_stuck w) as Hs. fold w1 in Hs.
  pose proof (run_passes_stuck_quiet n w1 Hs) as Hq. fold wn in Hq.
  assert (dirs (fs wn) = dirs (fs w1)) as Hd by apply Hq.
  assert (lookup_file (fs wn) Approved f = Some x) as Hxn
    by (by rewrite (lookup_file_dirs _ _ _ _ Hd)).
  split; [done|]. split; [done|]. split.
  - apply (stuck_pass_logs_error wn f x); try done. by eapply stuck_quiet.
  - intros v' Hna Hpa.
    apply (respects_generate_audit_bottlenecks fi). by repeat split.
Qed.

(** The theorem at a vault whose Approved holds a file that is not text, after three further passes. *)
Lemma C4_failed_record_witness :
  let w := world_of (vault_with Approved {["R3.md" := garbled]}) in
  is_md "R3.md" = true /\
  lookup_file (fs (exec run_pass w)) Approved "R3.md" = Some garbled /\
  lookup_file (fs (exec (run_passes 3) (exec run_pass w))) Approved "R3.md" = Some garbled.
Proof.
  intros w.
  assert (is_md "R3.md" = true) as H1 by reflexivity.
  assert (lookup_file (fs (exec run_pass w)) Approved "R3.md" = Some garbled) as H2
    by (vm_compute; reflexivity).
  split; [exact H1|]. split; [exact H2|].
  exact (proj1 (proj2 (C4_failed_record_retried_not_flagged fromisoformat_date w
                         "R3.md" garbled 3 H1 H2))).
Defined.

(** ** C6: creating a record *)

(** [DropFolderHandler.create_action_file], run in a vault that has a
    Needs_Action folder, for a source that is there. *)
Lemma fs_create_action_file_run (w : world) (source : FilesystemWatcher.source)
    (d : gmap string file) (size : nat) :
  dirs (fs w) !! Needs_Action = Some d ->
  FilesystemWatcher.st_size source = Some size ->
  let name := FilesystemWatcher.action_file_name (clock w (ticks w)) source in
  let content :=
    FilesystemWatcher.action_file_content source size
      (FilesystemWatcher.suffix (FilesystemWatcher.src_name source))
      (clock w (S (ticks w))) in
  FilesystemWatcher.create_action_file source w
  = (Ok tt,
     MkWorld
       (MkVault
          (<[Needs_Action := <[name := File (Some content) (clock w (S (S (ticks w))))]> d]>
             (dirs (fs w)))
          (logs (fs w)) (dashboard (fs w)))
       (clock w) (S (S (S (ticks w))))
       (trace w ++ [Logger INFO ("Created action file: " +:+ name) None])).
Proof.
  intros Hd Hs name content.
  unfold FilesystemWatcher.create_action_file, write_text. run_monad.
  rewrite Hs. cbn [fs dirs]. rewrite Hd. reflexivity.
Qed.

(** [GmailWatcher.create_action_file], run in a vault that has a Needs_Action
    folder, for a mail with all its keys. *)
Lemma gmail_create_action_file_run (w : world) (ids : gset string)
    (mail : GmailWatcher.email) (d : gmap string file) (to date : string) :
  dirs (fs w) !! Needs_Action = Some d ->
  GmailWatcher.em_to mail = Some to -> GmailWatcher.em_date mail = Some date ->
  let name := GmailWatcher.action_file_name (clock w (ticks w)) mail in
  exists content,
    GmailWatcher.create_action_file ids mail w
    = (Ok (name, {[GmailWatcher.em_id mail]} ∪ ids),
       MkWorld
         (MkVault
            (<[Needs_Action :=
                 <[name := File (Some content) (clock w (S (S (S (ticks w)))))]> d]>
               (dirs (fs w)))
            (logs (fs w)) (dashboard (fs w)))
         (clock w) (S (S (S (S (ticks w)))))
         (trace w ++ [Logger INFO
                        ("Created action file for email from "
                         +:+ (if contains "<" (GmailWatcher.em_from mail)
                              then strip (nth 0 (split "<" (GmailWatcher.em_from mail)) "")
                              else GmailWatcher.em_from mail)
                         +:+ ": " +:+ name) None])).
Proof.
  intros Hd Hto Hdate name.
  unfold GmailWatcher.create_action_file, GmailWatcher.get_key, write_text.
  run_monad. rewrite Hto, Hdate.
  destruct (contains "<" (GmailWatcher.em_from mail)); cbn [fs dirs]; rewrite Hd;
    eexists; reflexivity.
Qed.

Example same_second_same_name :
  FilesystemWatcher.action_file_name (ticking t0 100000 0) report_txt
  = FilesystemWatcher.action_file_name (ticking t0 100000 3) report_pdf.
Proof. vm_compute. reflexivity. Qed.

(** C6, as stated, fails: report.txt and report.pdf are dropped within the
    same second.  Both creations return normally, under the same file name;
    Needs_Action holds one record, and the second creation has replaced the
    text of the first. *)
Lemma C6_same_second_same_stem_overwrites :
  let w := MkWorld empty_vault (ticking t0 100000) 0 [] in
  let w1 := exec (FilesystemWatcher.create_action_file report_txt) w in
  let w2 := exec (FilesystemWatcher.create_action_file report_pdf) w1 in
  eval (FilesystemWatcher.create_action_file report_txt) w = Ok tt /\
  eval (FilesystemWatcher.create_action_file report_pdf) w1 = Ok tt /\
  glob_md_dir (dirs (fs w1) !! Needs_Action) = ["FILE_20261103_133500_report.md"] /\
  glob_md_dir (dirs (fs w2) !! Needs_Action) = ["FILE_20261103_133500_report.md"] /\
  third_line (fs w1) "FILE_20261103_133500_report.md" = Some "original_name: report.txt" /\
  third_line (fs w2) "FILE_20261103_133500_report.md" = Some "original_name: report.pdf".
Proof. repeat split; vm_compute; reflexivity. Qed.

(** C6, amended: creating a record never fails with a duplicate id.  The id
    is the creation time to the second and the stem of the dropped file (for
    a mail: the sanitized subject); in a vault that has a Needs_Action folder
    the creation returns normally and the file of that name holds the new
    text, whether or not a record of that name was there before; every other
    file of the vault is as before. *)
Theorem C6_creation_replaces_same_name (w : world)
    (source : FilesystemWatcher.source) (size : nat)
    (ids : gset string) (mail : GmailWatcher.email) (to date : string)
    (d : gmap string file) :
  dirs (fs w) !! Needs_Action = Some d ->
  FilesystemWatcher.st_size source = Some size ->
  GmailWatcher.em_to mail = Some to -> GmailWatcher.em_date mail = Some date ->
  let t := clock w (ticks w) in
  let file_name :=
    "FILE_" +:+ strftime_stamp t +:+ "_"
    +:+ FilesystemWatcher.stem (FilesystemWatcher.src_name source) +:+ ".md" in
  let mail_name :=
    "EMAIL_" +:+ strftime_stamp t +:+ "_"
    +:+ GmailWatcher.safe_subject (GmailWatcher.em_subject mail) +:+ ".md" in
  let wf := exec (FilesystemWatcher.create_action_file source) w in
  let wm := exec (GmailWatcher.create_action_file ids mail) w in
  (eval (FilesystemWatcher.create_action_file source) w = Ok tt /\
   lookup_file (fs wf) Needs_Action file_name
   = Some (File (Some (FilesystemWatcher.action_file_content source size
                         (FilesystemWatcher.suffix (FilesystemWatcher.src_name source))
                         (clock w (S (ticks w)))))
             (clock w (S (S (ticks w))))) /\
   (forall X n, n <> file_name -> lookup_file (fs wf) X n = lookup_file (fs w) X n)) /\
  (eval (GmailWatcher.create_action_file ids mail) w
   = Ok (mail_name, {[GmailWatcher.em_id mail]} ∪ ids) /\
   (exists content t', lookup_file (fs wm) Needs_Action mail_name
                       = Some (File (Some content) t')) /\
   (forall X n, n <> mail_name -> lookup_file (fs wm) X n = lookup_file (fs w) X n)).
Proof.
  intros Hd Hs Hto Hdate t file_name mail_name wf wm.
  assert (forall (v : gmap folder (gmap string file)) name y X n,
            v !! Needs_Action = Some d -> n <> name ->
            (<[Needs_Action := <[name := y]> d]> v !! X) ≫= (fun dd => dd !! n)
            = (v !! X) ≫= (fun dd => dd !! n)) as Hframe.
  { intros v name y X n Hv Hn. destruct (decide (X = Needs_Action)) as [->|HX].
    - rewrite lookup_insert_eq, Hv. cbn. by rewrite lookup_insert_ne.
    - by rewrite lookup_insert_ne. }
  split.
  - unfold wf, eval, exec. rewrite (fs_create_action_file_run w source d size Hd Hs).
    cbn [fst snd fs]. split; [done|]. unfold lookup_file. cbn [dirs]. split.
    + rewrite lookup_insert_eq. cbn. by rewrite lookup_insert_eq.
    + intros X n Hn. by apply Hframe.
  - destruct (gmail_create_action_file_run w ids mail d to date Hd Hto Hdate)
      as [content Hrun].
    unfold wm, eval, exec. rewrite Hrun.
    cbn [fst snd fs]. split; [done|]. unfold lookup_file. cbn [dirs]. split.
    + exists content, (clock w (S (S (S (ticks w))))).
      rewrite lookup_insert_eq. cbn. by rewrite lookup_insert_eq.
    + intros X n Hn. by apply Hframe.
Qed.

(** The theorem at a vault whose Needs_Action already holds a record under the name that the new one gets. *)
Lemma C6_creation_witness :
  let w := MkWorld (vault_with Needs_Action
                      {["FILE_20261103_133500_report.md" := note "an older record"]})
             (ticking t0 100000) 0 [] in
  dirs (fs w) !! Needs_Action
  = Some {["FILE_20261103_133500_report.md" := note "an older record"]} /\
  eval (FilesystemWatcher.create_action_file report_pdf) w = Ok tt /\
  eval (GmailWatcher.create_action_file ∅ invoice_mail) w
  = Ok ("EMAIL_20261103_133500_Invoice_overdue.md", {["18c2f0"]} ∪ ∅).
Proof.
  intros w.
  assert (dirs (fs w) !! Needs_Action
          = Some {["FILE_20261103_133500_report.md" := note "an older record"]}) as Hd
    by (vm_compute; reflexivity).
  pose proof (C6_creation_replaces_same_name w report_pdf 4096 ∅ invoice_mail
                "me@example.org" "Tue, 3 Nov 2026 13:30:00 +0000" _
                Hd eq_refl eq_refl eq_refl) as [[H1 _] [H2 _]].
  split; [exact Hd|]. split; [exact H1|].
  etrans; [exact H2|]. vm_compute. reflexivity.
Defined.

(** ** Further properties of the orchestrator, the audit and the watchers *)

(** ** Names of dropped files; the start of the week *)

Lemma append_cons (c : ascii) (s t : string) : String c s +:+ t = String c (s +:+ t).
Proof. reflexivity. Qed.

Lemma append_nil_r (s : string) : s +:+ "" = s.
Proof. induction s as [|c s IH]; [done|]. by rewrite append_cons, IH. Qed.

Lemma append_assoc (s t u : string) : (s +:+ t) +:+ u = s +:+ (t +:+ u).
Proof. induction s as [|c s IH]; [done|]. by rewrite !append_cons, IH. Qed.

Lemma take_drop (n : nat) (s : string) : take n s +:+ drop n s = s.
Proof.
  revert n. induction s as [|c s IH]; intros [|n]; cbn; try done.
  by rewrite append_cons, IH.
Qed.

Lemma rfind_Some (c : ascii) (s : string) (i : nat) :
  rfind c s = Some i -> exists r, drop i s = String c r /\ rfind c r = None.
Proof.
  revert i. induction s as [|d s IH]; intros i; cbn; [done|].
  destruct (rfind c s) as [j|] eqn:E.
  - intros [= <-]. cbn. by apply IH.
  - destruct (Ascii.eqb d c) eqn:Hd; [|done]. intros [= <-].
    apply Ascii.eqb_eq in Hd as ->. by exists s.
Qed.

(** X1.  [Path.stem] and [Path.suffix] split a file name: put together they
    give the name back, and the suffix is empty or begins with the last dot of
    the name and holds no other dot. *)
Theorem stem_suffix_name (name : string) :
  FilesystemWatcher.stem name +:+ FilesystemWatcher.suffix name = name /\
  (FilesystemWatcher.suffix name = ""
   \/ exists r, FilesystemWatcher.suffix name = String "." r /\ rfind "." r = None).
Proof.
  unfold FilesystemWatcher.stem, FilesystemWatcher.suffix.
  destruct (rfind "." name) as [i|] eqn:E.
  - destruct ((0 <? i)%nat && (i <? String.length name - 1)%nat).
    + split; [apply take_drop|]. right. by apply rfind_Some.
    + split; [apply append_nil_r|by left].
  - split; [apply append_nil_r|by left].
Qed.

Lemma weekday_range (d : datetime) : 0 <= weekday d < 7.
Proof. unfold weekday. apply Z.mod_pos_bound. lia. Qed.

(** X2.  [get_week_start] returns a Monday: at the time of day of the date it
    is given, on or before that date and less than seven days before it; six
    days later ([week_end] in [generate_audit]) is a Sunday; and the week
    start of the date seven days earlier ([last_week_start]) is seven days
    earlier. *)
Theorem week_start_is_monday (d : datetime) :
  weekday (get_week_start d) = 0 /\
  weekday (get_week_start d + timedelta_days 6) = 6 /\
  get_week_start d <= d < get_week_start d + timedelta_days 7 /\
  (get_week_start d) mod US_PER_DAY = d mod US_PER_DAY /\
  get_week_start (d - timedelta_days 7) = get_week_start d - timedelta_days 7.
Proof.
  pose proof (weekday_range d) as Hr.
  unfold get_week_start, weekday, toordinal, timedelta_days in *.
  assert (0 < US_PER_DAY) as HD by (vm_compute; reflexivity).
  set (D := US_PER_DAY) in *.
  set (k := (d / D + 1 + 6) mod 7) in *.
  assert ((d - k * D) / D = d / D - k) as E1.
  { replace (d - k * D) with (d + (- k) * D) by lia. rewrite Z.div_add by lia. lia. }
  assert ((d - 7 * D) / D = d / D - 7) as E2.
  { replace (d - 7 * D) with (d + (- 7) * D) by lia. rewrite Z.div_add by lia. lia. }
  repeat split.
  - rewrite E1. subst k. 
    rewrite <- (Z.mod_small 0 7) by lia.
    replace (d / D - (d / D + 1 + 6) mod 7 + 1 + 6) with ((d / D + 1 + 6) - (d / D + 1 + 6) mod 7) by lia.
    rewrite Zminus_mod_idemp_r. by rewrite Z.sub_diag.
  - replace (d - k * D + 6 * D) with (d + (6 - k) * D) by lia.
    rewrite Z.div_add by lia.
    replace (d / D + (6 - k) + 1 + 6) with ((d / D + 1 + 6) - k + 6) by lia.
    subst k. rewrite <- Zplus_mod_idemp_l. rewrite Zminus_mod_idemp_r, Z.sub_diag. done.
  - nia.
  - nia.
  - replace (d - k * D) with (d + (- k) * D) by lia. by rewrite Z.mod_add by lia.
  - fold k. rewrite E2.
    replace (d / D - 7 + 1 + 6) with ((d / D + 1 + 6) + (-1) * 7) by lia.
    rewrite Z.mod_add by lia. fold k. lia.
Qed.

(** ** The sanitized subject and the priority of a mail *)












Lemma lower_app (a b : string) : lower (a +:+ b) = lower a +:+ lower b.
Proof.
  induction a as [|c a IH]; [done|]. rewrite append_cons. cbn [lower].
  by rewrite append_cons, IH.
Qed.

Lemma startswith_app (p s : string) : startswith p (p +:+ s) = true.
Proof.
  unfold startswith. induction p as [|c p IH]; [by destruct s|].
  rewrite append_cons. cbn. by destruct (ascii_dec c c).
Qed.

Lemma contains_app (p a b : string) : contains p (a +:+ p +:+ b) = true.
Proof.
  induction a as [|c a IH].
  - change (contains p (p +:+ b) = true).
    pose proof (startswith_app p b) as H.
    destruct (p +:+ b); cbn [contains]; by rewrite H.
  - rewrite append_cons. cbn [contains]. rewrite IH. by rewrite orb_true_r.
Qed.

(** X4.  A mail whose subject or body holds one of URGENT_KEYWORDS anywhere,
    in any mix of upper and lower case and also inside a longer word, gets
    priority high, whoever sent it. *)
Theorem urgent_keyword_gives_high (mail : GmailWatcher.email) (a k b : string) :
  In (lower k) GmailWatcher.URGENT_KEYWORDS ->
  GmailWatcher.em_subject mail = a +:+ k +:+ b
  \/ GmailWatcher.em_body mail = a +:+ k +:+ b ->
  GmailWatcher._calculate_priority mail = "high".
Proof.
  intros Hk Hm. unfold GmailWatcher._calculate_priority.
  assert (existsb (fun keyword => contains keyword (lower (GmailWatcher.em_subject mail))
                                  || contains keyword (lower (GmailWatcher.em_body mail)))
            GmailWatcher.URGENT_KEYWORDS = true) as ->; [|done].
  apply existsb_exists. exists (lower k). split; [done|].
  destruct Hm as [-> | ->]; rewrite !lower_app, contains_app; [done|apply orb_true_r].
Qed.

(** A mail whose subject begins with the word Invoice. *)
Lemma urgent_keyword_witness :
  GmailWatcher._calculate_priority invoice_mail = "high".
Proof.
  apply (urgent_keyword_gives_high invoice_mail "" "Invoice" " overdue").
  - vm_compute. tauto.
  - left. reflexivity.
Defined.

(** ** What passes conserve *)

Lemma conserves_refl (v : vault) : conserves v v.
Proof. repeat split; eauto. Qed.

Lemma conserves_dirs (v v' : vault) : dirs v' = dirs v -> conserves v v'.
Proof.
  intros H. repeat split; intros n; rewrite ?(lookup_file_dirs v' v) by done; eauto.
Qed.

Lemma conserves_trans (v1 v2 v3 : vault) :
  conserves v1 v2 -> conserves v2 v3 -> conserves v1 v3.
Proof.
  intros (A1 & C1 & B1) (A2 & C2 & B2). repeat split.
  - eauto.
  - intros n x H1. destruct (C1 n x H1) as [H2|[H2 D2]].
    + destruct (C2 n x H2) as [H3|[H3 D3]]; eauto.
    + right. split.
      * destruct (lookup_file v3 Approved n) as [y|] eqn:E; [|done].
        apply A2 in E. congruence.
      * destruct (B2 n) as [E|(y & Hy & _)]; congruence.
  - intros n. destruct (B2 n) as [E|(y & Hy & D3 & H3)].
    + destruct (B1 n) as [E1|(x & Hx & D2 & H2)].
      * left. congruence.
      * right. exists x. split; [done|]. split; [congruence|].
        destruct (lookup_file v3 Approved n) as [z|] eqn:E3; [|done].
        apply A2 in E3. congruence.
    + right. exists y. eauto.
Qed.

Lemma process_approved_file_conserves (w : world) (f : string) :
  conserves (fs w) (fs (exec (process_approved_file f) w)).
Proof.
  destruct (can_process (fs w) f) eqn:Hc.
  - destruct (can_process_true _ _ Hc) as (a & x & c & l & d & Ha & Hx & Ht & Hl & Hd).
    unfold exec. rewrite (process_approved_file_moves w f x c a d l) by done.
    cbn [snd fs]. unfold conserves, lookup_file. cbn [dirs].
    rewrite lookup_insert_eq, (lookup_insert_ne _ Done Approved) by done.
    rewrite lookup_insert_eq, Ha, Hd. cbn [mbind option_bind].
    repeat split.
    + intros n y Hn. apply lookup_delete_Some in Hn. tauto.
    + intros n y Hn. destruct (decide (n = f)) as [->|Hne].
      * right. rewrite lookup_delete_eq, lookup_insert_eq. split; congruence.
      * left. by rewrite lookup_delete_ne.
    + intros n. destruct (decide (n = f)) as [->|Hne].
      * right. exists x. by rewrite lookup_insert_eq, lookup_delete_eq.
      * left. by rewrite lookup_insert_ne.
  - destruct (process_approved_file_fails w f Hc) as (e & pre & _ & Hd & _).
    by apply conserves_dirs.
Qed.

Lemma for_each_approved_conserves (l : list string) (w : world) :
  conserves (fs w) (fs (exec (for_each l process_approved_file) w)).
Proof.
  revert w. induction l as [|f l IH]; intros w; cbn [for_each]; [apply conserves_refl|].
  rewrite exec_seq by apply total_process_approved_file.
  eapply conserves_trans; [apply process_approved_file_conserves|apply IH].
Qed.

Lemma benign_conserves {A} (m : M A) (w : world) :
  benign m -> conserves (fs w) (fs (exec m w)).
Proof. intros H. destruct (H w) as [Hd _]. by apply conserves_dirs. Qed.

Lemma run_pass_conserves (w : world) : conserves (fs w) (fs (exec run_pass w)).
Proof.
  rewrite run_pass_exec.
  eapply conserves_trans; [|apply benign_conserves, benign_update_dashboard].
  eapply conserves_trans; [|apply benign_conserves, benign_trigger_claude_processing].
  eapply conserves_trans; [|apply benign_conserves, benign_process_rejected_actions].
  unfold process_approved_actions, exec.
  rewrite bind_run, check_approved_actions_run.
  apply for_each_approved_conserves.
Qed.

Lemma run_passes_conserves (k : nat) (w : world) :
  conserves (fs w) (fs (exec (run_passes k) w)).
Proof.
  revert w. induction k as [|k IH]; intros w; [apply conserves_refl|].
  rewrite run_passes_exec_S.
  eapply conserves_trans; [apply run_pass_conserves|apply IH].
Qed.

(** X5.  No number of passes loses a record of Approved: each one is still in
    Approved, unchanged, or it has left Approved and is in Done, unchanged.
    A record of Done stays as it is unless a [*.md] record of Approved with
    the same name was moved onto it.  Approved gains nothing, and the other
    folders are not touched. *)
Theorem passes_lose_no_record (k : nat) (w : world) :
  let w' := exec (run_passes k) w in
  (forall n x, lookup_file (fs w) Approved n = Some x ->
     lookup_file (fs w') Approved n = Some x
     \/ (lookup_file (fs w') Approved n = None /\ lookup_file (fs w') Done n = Some x)) /\
  (forall n y, lookup_file (fs w) Done n = Some y ->
     lookup_file (fs w') Done n = Some y
     \/ exists x, lookup_file (fs w) Approved n = Some x /\ is_md n = true /\
                  lookup_file (fs w') Done n = Some x) /\
  (forall n x, lookup_file (fs w') Approved n = Some x ->
     lookup_file (fs w) Approved n = Some x) /\
  (forall X, X <> Approved -> X <> Done -> dirs (fs w') !! X = dirs (fs w) !! X).
Proof.
  cbn zeta. destruct (run_passes_conserves k w) as (A & C & B).
  split; [exact C|]. split; [|split; [exact A|]].
  - intros n y Hy. destruct (B n) as [E|(x & Hx & HD & HA)].
    + left. congruence.
    + right. exists x. split; [done|]. split; [|done].
      destruct (is_md n) eqn:Hmd; [done|]. exfalso.
      assert (forall j v, lookup_file (fs (exec (run_passes j) v)) Approved n
                          = lookup_file (fs v) Approved n) as Hfr.
      { induction j as [|j IH]; intros v; [done|].
        rewrite run_passes_exec_S, IH. by apply run_pass_frame. }
      rewrite Hfr in HA. congruence.
  - intros X. apply run_passes_other_folders.
Qed.

Lemma length_glob_le (d d' : option (gmap string file)) :
  (forall n, n ∈ glob_md_dir d -> n ∈ glob_md_dir d') ->
  (length (glob_md_dir d) <= length (glob_md_dir d'))%nat.
Proof.
  intros H. apply submseteq_length, NoDup_submseteq; [apply NoDup_glob_md_dir|done].
Qed.

Lemma elem_of_glob_lookup (v : vault) (X : folder) (n : string) :
  n ∈ glob_md_dir (dirs v !! X) <-> is_md n = true /\ is_Some (lookup_file v X n).
Proof.
  rewrite elem_of_glob_md_dir. unfold lookup_file. split.
  - intros [Hmd (dd & -> & Hs)]. done.
  - intros [Hmd Hs]. split; [done|]. destruct (dirs v !! X) as [dd|]; [|by destruct Hs].
    by exists dd.
Qed.

(** X6.  Of the four counts of the dashboard a pass changes only the number
    of completed tasks: it does not lower it, and raises it by at most the
    number of [*.md] records that Approved held; pending actions, awaiting
    approval and active plans are counted as before the pass. *)
Theorem pass_changes_completed_count_only (w : world) :
  let c := counts_of (fs w) in
  let c' := counts_of (fs (exec run_pass w)) in
  eval count_files (exec run_pass w) = Ok c' /\
  needs_action_count c' = needs_action_count c /\
  pending_approval_count c' = pending_approval_count c /\
  active_plans_count c' = active_plans_count c /\
  (done_count c <= done_count c')%nat /\
  (done_count c' <= done_count c + length (glob_md_dir (dirs (fs w) !! Approved)))%nat.
Proof.
  cbn zeta. split; [apply eval_count_files|].
  unfold counts_of. cbn [needs_action_count pending_approval_count active_plans_count done_count].
  rewrite !(run_pass_other_folders w) by done.
  split; [done|]. split; [done|]. split.
  { f_equal. apply List.filter_ext_in_iff. intros n _. unfold is_active, lookup_file.
    by rewrite run_pass_other_folders. }
  destruct (run_pass_conserves w) as (A & C & B). split.
  - apply length_glob_le. intros n [Hmd [y Hy]]%elem_of_glob_lookup.
    apply elem_of_glob_lookup. split; [done|].
    destruct (B n) as [E|(x & _ & E & _)]; rewrite E; eauto.
  - rewrite <- length_app. apply submseteq_length, NoDup_submseteq; [apply NoDup_glob_md_dir|].
    intros n [Hmd [y Hy]]%elem_of_glob_lookup. apply elem_of_app.
    destruct (B n) as [E|(x & Hx & _)].
    + left. apply elem_of_glob_lookup. split; [done|]. rewrite <- E. eauto.
    + right. apply elem_of_glob_lookup. eauto.
Qed.

(** X7.  After one pass, any number of further passes leaves every folder as
    the first pass left it and records no move. *)
Theorem first_pass_reaches_fixed_point (k : nat) (w : world) :
  let w1 := exec run_pass w in
  let wk := exec (run_passes k) w1 in
  dirs (fs wk) = dirs (fs w1) /\
  exists tr, trace wk = trace w1 ++ tr /\ Forall (fun e => is_moved e = false) tr.
Proof.
  cbn zeta.
  destruct (run_passes_stuck_quiet k (exec run_pass w) (run_pass_stuck w))
    as (Hd & _ & _ & Ht).
  by split.
Qed.

(** ** The log files only grow *)

Lemma log_grows_logs (v v' : vault) : logs v' = logs v -> log_grows v v'.
Proof.
  intros H. split; [congruence|]. intros l Hl. exists l. split; [congruence|].
  intros n c Hc. exists "". by rewrite append_nil_r.
Qed.

Lemma log_grows_trans (v1 v2 v3 : vault) :
  log_grows v1 v2 -> log_grows v2 v3 -> log_grows v1 v3.
Proof.
  intros [N1 S1] [N2 S2]. split; [eauto|].
  intros l Hl. destruct (S1 l Hl) as (l' & Hl' & H1).
  destruct (S2 l' Hl') as (l'' & Hl'' & H2). exists l''. split; [done|].
  intros n c Hc. destruct (H1 n c Hc) as [c' Hc']. destruct (H2 _ _ Hc') as [c'' Hc''].
  exists (c' +:+ c''). by rewrite <- append_assoc.
Qed.

Lemma log_grows_insert (v : vault) (l : gmap string string) (k msg : string)
    (ds : gmap folder (gmap string file)) (db : option string) :
  logs v = Some l ->
  log_grows v (MkVault ds (Some (<[k := default "" (l !! k) +:+ msg]> l)) db).
Proof.
  intros Hl. split; [congruence|]. intros l0 Hl0. assert (l0 = l) as -> by congruence.
  eexists. split; [reflexivity|]. intros n c Hc.
  destruct (decide (n = k)) as [->|Hne].
  - rewrite lookup_insert_eq, Hc. by exists msg.
  - rewrite lookup_insert_ne by done. exists "". by rewrite append_nil_r.
Qed.

Lemma process_approved_file_log_grows (w : world) (f : string) :
  log_grows (fs w) (fs (exec (process_approved_file f) w)).
Proof.
  unfold exec. run_approved. unfold lookup_file.
  destruct (dirs (fs w) !! Approved) as [a|] eqn:Ha; cbn [mbind option_bind] in *;
    [|by apply log_grows_logs].
  destruct (a !! f) as [x|] eqn:Hx; [|by apply log_grows_logs].
  destruct (text x) as [c|] eqn:Ht; [|by apply log_grows_logs].
  cbn [fs logs dirs].
  destruct (logs (fs w)) as [l|] eqn:Hl; [|by apply log_grows_logs; cbn; rewrite Hl].
  cbn [fs logs dirs]. rewrite Ha, Hx.
  destruct (dirs (fs w) !! Done) as [d|] eqn:Hd; cbn [snd fs]; by apply log_grows_insert.
Qed.

Lemma for_each_approved_log_grows (l : list string) (w : world) :
  log_grows (fs w) (fs (exec (for_each l process_approved_file) w)).
Proof.
  revert w. induction l as [|f l IH]; intros w; cbn [for_each]; [by apply log_grows_logs|].
  rewrite exec_seq by apply total_process_approved_file.
  eapply log_grows_trans; [apply process_approved_file_log_grows|apply IH].
Qed.

Lemma benign_log_grows {A} (m : M A) (w : world) :
  benign m -> log_grows (fs w) (fs (exec m w)).
Proof. intros H. destruct (H w) as (_ & Hl & _). by apply log_grows_logs. Qed.

Lemma run_pass_log_grows (w : world) : log_grows (fs w) (fs (exec run_pass w)).
Proof.
  rewrite run_pass_exec.
  eapply log_grows_trans; [|apply benign_log_grows, benign_update_dashboard].
  eapply log_grows_trans; [|apply benign_log_grows, benign_trigger_claude_processing].
  eapply log_grows_trans; [|apply benign_log_grows, benign_process_rejected_actions].
  unfold process_approved_actions, exec.
  rewrite bind_run, check_approved_actions_run.
  apply for_each_approved_log_grows.
Qed.

(** X8.  The log files are append-only under any number of passes: a missing
    Logs directory stays missing, an existing one stays, and every log file
    keeps its old text as the beginning of its new text. *)
Theorem passes_only_append_to_logs (k : nat) (w : world) :
  let w' := exec (run_passes k) w in
  (logs (fs w) = None -> logs (fs w') = None) /\
  forall l, logs (fs w) = Some l ->
    exists l', logs (fs w') = Some l' /\
               forall n c, l !! n = Some c -> exists c', l' !! n = Some (c +:+ c').
Proof.
  cbn zeta. change (log_grows (fs w) (fs (exec (run_passes k) w))).
  revert w. induction k as [|k IH]; intros w; [by apply log_grows_logs|].
  rewrite run_passes_exec_S.
  eapply log_grows_trans; [apply run_pass_log_grows|apply IH].
Qed.

(** ** [_ensure_directories] *)

Lemma mkdir_run (f : folder) (w : world) :
  mkdir f w
  = (Ok tt,
     MkWorld (MkVault (match dirs (fs w) !! f with
                       | Some _ => dirs (fs w)
                       | None => <[f := ∅]> (dirs (fs w))
                       end) (logs (fs w)) (dashboard (fs w)))
       (clock w) (ticks w) (trace w)).
Proof.
  unfold mkdir. run_monad. destruct w as [[ds lg db] ck tk tr]. cbn.
  by destruct (ds !! f).
Qed.

Lemma mkdir_logs_run (w : world) :
  mkdir_logs w
  = (Ok tt,
     MkWorld (MkVault (dirs (fs w))
                (Some (default ∅ (logs (fs w)))) (dashboard (fs w)))
       (clock w) (ticks w) (trace w)).
Proof.
  unfold mkdir_logs. run_monad. destruct w as [[ds lg db] ck tk tr]. cbn.
  by destruct lg.
Qed.

Lemma total_mkdir (f : folder) : total (mkdir f).
Proof. intros w. exists tt. unfold eval. by rewrite mkdir_run. Qed.

(** The loop over the folders: each of them is there afterwards, no file
    and nothing else has changed. *)
Lemma for_each_mkdir (l : list folder) (w : world) :
  let w' := exec (for_each l mkdir) w in
  (forall X, X ∈ l -> is_Some (dirs (fs w') !! X)) /\
  (forall X d, dirs (fs w) !! X = Some d -> dirs (fs w') !! X = Some d) /\
  (forall X n, lookup_file (fs w') X n = lookup_file (fs w) X n) /\
  logs (fs w') = logs (fs w) /\ dashboard (fs w') = dashboard (fs w) /\
  clock w' = clock w /\ ticks w' = ticks w /\ trace w' = trace w /\
  ((forall X, X ∈ l -> is_Some (dirs (fs w) !! X)) -> w' = w).
Proof.
  revert w. induction l as [|f l IH]; intros w; cbn zeta; cbn [for_each].
  { repeat split; try done. intros X HX. by apply elem_of_nil in HX. }
  rewrite exec_seq by apply total_mkdir.
  set (w1 := exec (mkdir f) w).
  assert (is_Some (dirs (fs w1) !! f) /\
          (forall X d, dirs (fs w) !! X = Some d -> dirs (fs w1) !! X = Some d) /\
          (forall X n, lookup_file (fs w1) X n = lookup_file (fs w) X n) /\
          logs (fs w1) = logs (fs w) /\ dashboard (fs w1) = dashboard (fs w) /\
          clock w1 = clock w /\ ticks w1 = ticks w /\ trace w1 = trace w /\
          (is_Some (dirs (fs w) !! f) -> w1 = w)) as (H1 & H2 & H3 & H4 & H5 & H6 & H7 & H8 & H9).
  { unfold w1, exec. rewrite mkdir_run. cbn [snd fs dirs logs dashboard clock ticks trace].
    destruct (dirs (fs w) !! f) as [d|] eqn:E.
    - repeat split; eauto. intros _. by destruct w as [[] ? ? ?].
    - split; [by rewrite lookup_insert_eq|]. split.
      { intros X d Hd. rewrite lookup_insert_ne; [done|]. congruence. }
      split.
      { intros X n. unfold lookup_file. cbn [dirs].
        destruct (decide (X = f)) as [->|Hne].
        * rewrite lookup_insert_eq, E. done.
        * by rewrite lookup_insert_ne. }
      repeat split; try done. }
  destruct (IH w1) as (I1 & I2 & I3 & I4 & I5 & I6 & I7 & I8 & I9).
  split.
  { intros X [->|HX]%elem_of_cons; [|by apply I1].
    destruct H1 as [d Hd]. rewrite (I2 _ _ Hd). eauto. }
  split; [eauto|]. split; [intros X n; by rewrite I3|].
  do 5 (split; [congruence|]).
  intros Hall. rewrite I9.
  - apply H9, Hall. by left.
  - intros X HX. destruct (Hall X) as [d Hd]; [by right|]. rewrite (H2 _ _ Hd). eauto.
Qed.

Lemma total_for_each_mkdir (l : list folder) : total (for_each l mkdir).
Proof. apply total_for_each. intros. apply total_mkdir. Qed.

Lemma all_folders (X : folder) :
  X ∈ [Needs_Action; Done; Pending_Approval; Approved; Rejected; Plans].
Proof. destruct X; set_solver. Qed.

Lemma ensure_directories_run (w : world) :
  exists w1,
    exec (for_each [Needs_Action; Done; Pending_Approval; Approved; Rejected; Plans] mkdir) w
    = w1 /\
    _ensure_directories w
    = (Ok tt,
       MkWorld (MkVault (dirs (fs w1)) (Some (default ∅ (logs (fs w))))
                  (dashboard (fs w)))
         (clock w) (ticks w) (trace w)) /\
    (forall X, is_Some (dirs (fs w1) !! X)) /\
    (forall X n, lookup_file (fs w1) X n = lookup_file (fs w) X n) /\
    ((forall X, is_Some (dirs (fs w) !! X)) -> dirs (fs w1) = dirs (fs w)).
Proof.
  set (l := [Needs_Action; Done; Pending_Approval; Approved; Rejected; Plans]).
  destruct (for_each_mkdir l w) as (I1 & I2 & I3 & I4 & I5 & I6 & I7 & I8 & I9).
  set (w1 := exec (for_each l mkdir) w) in *.
  exists w1. split; [done|]. split; [|split; [|split]].
  - unfold _ensure_directories. fold l. rewrite bind_run.
    pose proof (total_unit _ w (total_for_each_mkdir l)) as E.
    unfold eval in E. unfold w1, exec in *.
    destruct (for_each l mkdir w) as [r v1]. cbn [fst snd] in *. subst r.
    rewrite mkdir_logs_run. by rewrite I4, I5, I6, I7, I8.
  - intros X. apply I1, all_folders.
  - done.
  - intros Hall. rewrite I9; [done|]. intros X _. apply Hall.
Qed.


(** X9.  [_ensure_directories] returns normally; afterwards the six record
    folders and the Logs directory exist, every file of the vault, every log
    file and the dashboard are as before and nothing is logged; running it
    again changes nothing. *)
Theorem ensure_directories_creates_and_keeps (w : world) :
  let w' := exec _ensure_directories w in
  eval _ensure_directories w = Ok tt /\
  (forall X, is_Some (dirs (fs w') !! X)) /\
  is_Some (logs (fs w')) /\
  (forall X n, lookup_file (fs w') X n = lookup_file (fs w) X n) /\
  (forall l, logs (fs w) = Some l -> logs (fs w') = Some l) /\
  dashboard (fs w') = dashboard (fs w) /\
  trace w' = trace w /\
  exec _ensure_directories w' = w'.
Proof.
  cbn zeta. destruct (ensure_directories_run w) as (w1 & _ & E & H1 & H2 & _).
  assert (exists w', exec _ensure_directories w = w' /\
            w' = MkWorld (MkVault (dirs (fs w1)) (Some (default ∅ (logs (fs w))))
                            (dashboard (fs w)))
                   (clock w) (ticks w) (trace w)) as (w' & -> & Ew).
  { eexists. split; [reflexivity|]. unfold exec. by rewrite E. }
  split; [unfold eval; by rewrite E|].
  destruct (ensure_directories_run w') as (w2 & _ & E' & _ & _ & H3).
  rewrite Ew in *. cbn [fs dirs logs dashboard trace clock ticks default] in *.
  split; [done|]. split; [eauto|]. split; [done|].
  split; [by intros l ->|]. split; [done|]. split; [done|].
  unfold exec. rewrite E'. cbn [snd]. rewrite H3; [done|]. intros X. apply H1.
Qed.




(** ** A dashboard without the expected lines *)

Lemma sub_no_marker (l : string) (r : regex) (repl s : string) :
  contains l s = false -> sub (Lit l :: r) repl s = s.
Proof.
  unfold sub. induction s as [|c s IH]; [done|].
  cbn [contains]. intros [Hs Hc]%orb_false_elim. cbn [sub_go].
  unfold match_here. cbn [match_re match_atom]. rewrite Hs. cbn [flat_map head].
  by rewrite IH.
Qed.

(** X11.  [update_dashboard] only substitutes lines that are there: when the
    dashboard holds none of the literals with which the thirteen patterns
    begin, the update returns normally and writes the text back as it was, so
    no count and no time appears in it. *)
Theorem dashboard_without_markers_is_kept (w : world) (content : string) :
  dashboard (fs w) = Some content ->
  forallb (fun r => negb (contains (marker r) content)) update_patterns = true ->
  eval update_dashboard w = Ok tt /\
  dashboard (fs (exec update_dashboard w)) = Some content.
Proof.
  intros Hd Hm. destruct (update_dashboard_run w) as [tr E].
  unfold eval, exec. rewrite E. cbn [fst snd fs dashboard]. split; [done|].
  rewrite Hd. cbn [next_dashboard]. f_equal.
  cbn [forallb update_patterns] in Hm.
  repeat (apply andb_prop in Hm as [?%negb_true_iff Hm]).
  unfold rewrite_dashboard.
  unfold re_last_updated, re_status, re_watchers_running, re_last_check,
    re_pending_actions, re_completed_tasks, re_awaiting_approval, re_plans_created,
    re_files_in_needs_action, re_tasks_completed, re_watchers_active, re_mcp_servers,
    re_approvals_pending in *.
  cbn [marker] in *.
  cbv zeta. repeat rewrite (sub_no_marker _ _ _ content) by assumption.
  destruct (contains "## Silver Tier Metrics" content); [|done].
  by repeat rewrite (sub_no_marker _ _ _ content) by assumption.
Qed.

(** A dashboard of one heading. *)
Lemma dashboard_without_markers_witness :
  let w := world_of (MkVault (dirs empty_vault) (logs empty_vault) (Some "# My own notes")) in
  dashboard (fs (exec update_dashboard w)) = Some "# My own notes".
Proof.
  intros w.
  assert (dashboard (fs w) = Some "# My own notes") as H1 by reflexivity.
  assert (forallb (fun r => negb (contains (marker r) "# My own notes")) update_patterns
          = true) as H2 by (vm_compute; reflexivity).
  exact (proj2 (dashboard_without_markers_is_kept w _ H1 H2)).
Defined.

(** ** The files of a week *)

Lemma files_in_week_loop_run (X : folder) (a : datetime) (l acc : list string) (w : world) :
  exists tr,
    files_in_week_loop X a (a + timedelta_days 7) l acc w
    = (Ok (acc ++ List.filter (in_week (fs w) X a) l),
       MkWorld (fs w) (clock w) (ticks w) (trace w ++ tr)).
Proof.
  revert acc w. induction l as [|g l IH]; intros acc w; cbn [files_in_week_loop List.filter].
  - exists []. run_monad. rewrite !app_nil_r. by rewrite world_eta.
  - rewrite bind_run. run_monad.
    assert (in_week (fs w) X a g
            = match lookup_file (fs w) X g with
              | Some x => (a <=? mtime x) && (mtime x <? a + timedelta_days 7)
              | None => false
              end) as -> by done.
    destruct (lookup_file (fs w) X g) as [x|] eqn:Hx.
    + destruct ((a <=? mtime x) && (mtime x <? a + timedelta_days 7)) eqn:Hin.
      * destruct (IH (acc ++ [g]) w) as [tr E]. exists tr. rewrite E.
        by rewrite <- app_assoc.
      * apply IH.
    + set (w1 := MkWorld _ _ _ _). destruct (IH acc w1) as [tr E].
      eexists. rewrite E. unfold w1. cbn [fs clock ticks trace].
      rewrite <- app_assoc. reflexivity.
Qed.

Lemma get_files_in_week_run (X : folder) (a : datetime) (w : world) :
  exists tr,
    get_files_in_week X a w
    = (Ok (List.filter (in_week (fs w) X a) (glob_md_dir (dirs (fs w) !! X))),
       MkWorld (fs w) (clock w) (ticks w) (trace w ++ tr)).
Proof.
  unfold get_files_in_week. rewrite bind_run, exists_dir_run.
  destruct (bool_decide _) eqn:Hb; cbn [negb].
  - rewrite bind_run, glob_md_run.
    destruct (files_in_week_loop_run X a (glob_md_dir (dirs (fs w) !! X)) [] w) as [tr E].
    exists tr. by rewrite E.
  - exists []. run_monad. rewrite app_nil_r. apply bool_decide_eq_false in Hb.
    destruct (dirs (fs w) !! X) eqn:E; [by destruct Hb|]. by rewrite world_eta.
Qed.

Lemma elem_of_in_week (v : vault) (X : folder) (a : datetime) (f : string) :
  f ∈ List.filter (in_week v X a) (glob_md_dir (dirs v !! X))
  <-> is_md f = true /\
      exists x, lookup_file v X f = Some x /\ a <= mtime x < a + timedelta_days 7.
Proof.
  rewrite list_elem_of_In, filter_In, <- list_elem_of_In, elem_of_glob_lookup.
  unfold in_week. split.
  - intros [[Hmd [x Hx]] Hin]. split; [done|]. exists x. split; [done|].
    rewrite Hx in Hin. apply andb_prop in Hin as [H1%Z.leb_le H2%Z.ltb_lt]. lia.
  - intros [Hmd (x & Hx & H1 & H2)]. rewrite Hx. split; [eauto|].
    apply andb_true_intro. split; [by apply Z.leb_le|by apply Z.ltb_lt].
Qed.

(** X12.  [get_files_in_week] returns exactly the [*.md] files of the folder
    last modified in the seven days from [week_start] on, the end excluded;
    [get_previous_week_files] those of the seven days before; neither raises
    nor changes the vault, and no file is in both lists. *)
Theorem week_and_previous_week_are_disjoint (X : folder) (week_start : datetime)
    (w : world) :
  exists this_week previous_week,
    eval (get_files_in_week X week_start) w = Ok this_week /\
    eval (get_previous_week_files X week_start) w = Ok previous_week /\
    fs (exec (get_files_in_week X week_start) w) = fs w /\
    (forall f, f ∈ this_week <->
       is_md f = true /\
       exists x, lookup_file (fs w) X f = Some x /\
                 week_start <= mtime x < week_start + timedelta_days 7) /\
    (forall f, f ∈ previous_week <->
       is_md f = true /\
       exists x, lookup_file (fs w) X f = Some x /\
                 week_start - timedelta_days 7 <= mtime x < week_start) /\
    (forall f, f ∈ this_week -> f ∉ previous_week).
Proof.
  destruct (get_files_in_week_run X week_start w) as [tr E].
  destruct (get_files_in_week_run X (week_start - timedelta_days 7) w) as [tr' E'].
  do 2 eexists. unfold get_previous_week_files, eval, exec. rewrite E, E'.
  cbn [fst snd fs]. split; [done|]. split; [done|]. split; [done|].
  split; [apply elem_of_in_week|].
  assert (week_start - timedelta_days 7 + timedelta_days 7 = week_start) as Hw by lia.
  split.
  - intros f. rewrite elem_of_in_week. by rewrite Hw.
  - intros f [_ (x & Hx & H1 & _)]%elem_of_in_week [_ (y & Hy & _ & H2)]%elem_of_in_week.
    rewrite Hw in H2. assert (x = y) as -> by congruence. lia.
Qed.

(** ** [extract_field] of the audit *)

Lemma split_one_line (a : string) : one_line a = true -> split NL a = [a].
Proof.
  unfold one_line. induction a as [|c a IH]; [done|]. cbn [all_chars split].
  intros [Hc Ha]%andb_prop. apply negb_true_iff in Hc. rewrite Hc, (IH Ha). done.
Qed.

Lemma split_app_NL (a rest : string) :
  one_line a = true -> split NL (a +:+ String NL rest) = a :: split NL rest.
Proof.
  unfold one_line. induction a as [|c a IH].
  - intros _. change (split NL (String NL rest) = "" :: split NL rest).
    cbn [split]. by rewrite Ascii.eqb_refl.
  - cbn [all_chars]. intros [Hc Ha]%andb_prop. apply negb_true_iff in Hc.
    rewrite append_cons. cbn [split]. by rewrite Hc, (IH Ha).
Qed.

Lemma split_concat (lines : list string) :
  lines <> [] -> Forall (fun l => one_line l = true) lines ->
  split NL (String.concat (String NL "") lines) = lines.
Proof.
  induction lines as [|a lines IH]; [done|]. intros _ Hall.
  apply Forall_cons in Hall as [Ha Hall]. destruct lines as [|b lines].
  - cbn [String.concat]. by apply split_one_line.
  - change (String.concat (String NL "") (a :: b :: lines))
      with (a +:+ String NL "" +:+ String.concat (String NL "") (b :: lines)).
    change (String NL "" +:+ ?s) with (String NL s).
    rewrite split_app_NL by done. by rewrite IH.
Qed.

Lemma extract_field_lines_none (lines : list string) (field : string) :
  Forall (fun line => startswith (field +:+ ":") (lower line) = false) lines ->
  extract_field_lines lines field = None.
Proof.
  induction 1 as [|line lines H _ IH]; [done|]. cbn [extract_field_lines]. by rewrite H.
Qed.

(** X13.  [extract_field] of the audit looks at the first 30 lines only: when
    none of them begins with the field, the result is [None], whatever the
    later lines hold. *)
Theorem extract_field_reads_30_lines (field : string) (head rest : list string) :
  (30 <= length head)%nat ->
  Forall (fun line => one_line line = true) (head ++ rest) ->
  Forall (fun line => startswith (field +:+ ":") (lower line) = false) (firstn 30 head) ->
  WeeklyAudit.extract_field (String.concat (String NL "") (head ++ rest)) field = None.
Proof.
  intros Hlen Hone Hno. unfold WeeklyAudit.extract_field.
  rewrite split_concat; [|by destruct head; [cbn in Hlen; lia|]|done].
  rewrite firstn_app. replace (30 - length head)%nat with 0%nat by lia.
  cbn [firstn]. rewrite app_nil_r. by apply extract_field_lines_none.
Qed.

(** Thirty empty lines, then the field. *)
Lemma extract_field_30_lines_witness :
  WeeklyAudit.extract_field
    (String.concat (String NL "") (repeat "" 30 ++ ["expires: 2026-01-01"])) "expires"
  = None.
Proof.
  apply (extract_field_reads_30_lines "expires" (repeat "" 30) ["expires: 2026-01-01"]).
  - vm_compute. lia.
  - vm_compute. repeat constructor.
  - vm_compute. repeat constructor.
Defined.

Lemma isupper_lower_char (c : ascii) : isupper (lower_char c) = false.
Proof. destruct c as [[] [] [] [] [] [] [] []]; reflexivity. Qed.

Lemma startswith_lower (p s : string) :
  startswith p (lower s) = true -> all_chars (fun c => negb (isupper c)) p = true.
Proof.
  unfold startswith. revert s. induction p as [|a p IH]; intros s; [done|].
  destruct s as [|b s]; [done|]. cbn [lower String.prefix all_chars].
  destruct (ascii_dec a (lower_char b)) as [->|]; [|done].
  intros H. by rewrite isupper_lower_char, (IH s H).
Qed.

Lemma all_chars_app (p : ascii -> bool) (s t : string) :
  all_chars p (s +:+ t) = all_chars p s && all_chars p t.
Proof.
  induction s as [|c s IH]; [done|]. rewrite append_cons. cbn [all_chars].
  by rewrite IH, andb_assoc.
Qed.

(** X14.  [extract_field] of the audit lowers the line but not the field
    name: a field name with an upper-case letter is never found, in any
    text. *)
Theorem extract_field_wants_lower_case_name (content field : string) :
  all_chars (fun c => negb (isupper c)) field = false ->
  WeeklyAudit.extract_field content field = None.
Proof.
  intros Hf. unfold WeeklyAudit.extract_field. apply extract_field_lines_none.
  apply Forall_forall. intros line _.
  destruct (startswith (field +:+ ":") (lower line)) eqn:E; [|done].
  apply startswith_lower in E. rewrite all_chars_app, Hf in E. done.
Qed.

(** The same line, asked for Expires and for expires. *)
Lemma extract_field_lower_case_witness :
  WeeklyAudit.extract_field "Expires: 2026-01-01" "Expires" = None
  /\ WeeklyAudit.extract_field "Expires: 2026-01-01" "expires" = Some "2026-01-01".
Proof.
  split.
  - apply (extract_field_wants_lower_case_name "Expires: 2026-01-01" "Expires").
    vm_compute. reflexivity.
  - vm_compute. reflexivity.
Defined.

(** ** [on_created] *)

(** [DropFolderHandler.create_action_file] when [stat] raises or the
    Needs_Action folder is missing: it raises, and no file has changed. *)
Lemma fs_create_action_file_fails (w : world) (source : FilesystemWatcher.source) :
  FilesystemWatcher.st_size source = None \/ dirs (fs w) !! Needs_Action = None ->
  exists k,
    FilesystemWatcher.create_action_file source w
    = (Raise FileNotFoundError, MkWorld (fs w) (clock w) (k + ticks w) (trace w)).
Proof.
  intros H. unfold FilesystemWatcher.create_action_file, write_text. run_monad.
  destruct (FilesystemWatcher.st_size source) as [n|] eqn:Hs.
  - destruct H as [?|Hd]; [done|]. cbn [fs dirs]. rewrite Hd. by exists 2%nat.
  - by exists 1%nat.
Qed.

Lemma fs_create_action_file_cases (w : world) (source : FilesystemWatcher.source) :
  (exists size d, FilesystemWatcher.st_size source = Some size /\
                  dirs (fs w) !! Needs_Action = Some d)
  \/ (FilesystemWatcher.st_size source = None \/ dirs (fs w) !! Needs_Action = None).
Proof.
  destruct (FilesystemWatcher.st_size source) as [n|]; [|right; by left].
  destruct (dirs (fs w) !! Needs_Action) as [d|]; [|right; by right].
  left. by exists n, d.
Qed.

(** X15.  [on_created] never raises.  The set of processed paths only grows,
    by the path of the event at most; no folder other than Needs_Action is
    touched; and for a directory, or for a path that is in the set, nothing
    happens at all: same set, same world, no log line. *)
Theorem on_created_skips_what_it_has_seen (processed_files : gset string)
    (event : FilesystemWatcher.event) (w : world) :
  let path := FilesystemWatcher.src_absolute (FilesystemWatcher.ev_source event) in
  let w' := exec (FilesystemWatcher.on_created processed_files event) w in
  exists processed_files',
    eval (FilesystemWatcher.on_created processed_files event) w = Ok processed_files' /\
    processed_files ⊆ processed_files' /\
    processed_files' ⊆ {[path]} ∪ processed_files /\
    (forall X, X <> Needs_Action -> dirs (fs w') !! X = dirs (fs w) !! X) /\
    (FilesystemWatcher.is_directory event = true \/ path ∈ processed_files ->
     processed_files' = processed_files /\ w' = w).
Proof.
  cbn zeta. unfold FilesystemWatcher.on_created, eval, exec.
  destruct (FilesystemWatcher.is_directory event) eqn:Hdir.
  { exists processed_files. cbn. repeat split; try done. set_solver. }
  destruct (bool_decide _) eqn:Hin.
  { exists processed_files. cbn. repeat split; try done. set_solver. }
  apply bool_decide_eq_false in Hin.
  set (source := FilesystemWatcher.ev_source event) in *.
  unfold try_except. rewrite bind_run, logger_info_run, bind_run.
  set (w1 := MkWorld _ _ _ _).
  destruct (fs_create_action_file_cases w1 source) as [(size & d & Hs & Hd)|Hf].
  - rewrite (fs_create_action_file_run w1 source d size Hd Hs).
    eexists. cbn [fst snd mret M_ret fs dirs]. split; [reflexivity|].
    split; [set_solver|]. split; [done|]. split.
    + intros X HX. by rewrite lookup_insert_ne.
    + intros [?|?]; done.
  - destruct (fs_create_action_file_fails w1 source Hf) as [k E]. rewrite E.
    exists processed_files. run_monad. split; [done|]. split; [done|].
    split; [apply union_subseteq_r|]. split; [done|]. intros [?|?]; done.
Qed.

(** X16.  When the dropped file is gone before [stat], or the Needs_Action
    folder is missing, [on_created] logs the error and returns normally; the
    vault is as before and the path is not added to the processed set, so a
    later event for it is handled again. *)
Theorem on_created_failure_is_not_marked (processed_files : gset string)
    (event : FilesystemWatcher.event) (w : world) :
  let source := FilesystemWatcher.ev_source event in
  let w' := exec (FilesystemWatcher.on_created processed_files event) w in
  FilesystemWatcher.is_directory event = false ->
  FilesystemWatcher.src_absolute source ∉ processed_files ->
  FilesystemWatcher.st_size source = None \/ dirs (fs w) !! Needs_Action = None ->
  eval (FilesystemWatcher.on_created processed_files event) w = Ok processed_files /\
  fs w' = fs w /\
  trace w'
  = trace w ++ [Logger INFO ("New file detected: " +:+ FilesystemWatcher.src_name source) None;
                Logger ERROR ("Error processing " +:+ FilesystemWatcher.src_name source
                              +:+ ": ") (Some FileNotFoundError)].
Proof.
  cbn zeta. intros Hdir Hin Hf. unfold FilesystemWatcher.on_created, eval, exec.
  rewrite Hdir, bool_decide_eq_false_2 by done.
  unfold try_except. rewrite bind_run, logger_info_run, bind_run.
  set (w1 := MkWorld _ _ _ _).
  destruct (fs_create_action_file_fails w1 (FilesystemWatcher.ev_source event) Hf) as [k E].
  rewrite E. run_monad. split; [done|]. split; [done|]. unfold w1. cbn [trace]. by rewrite <- app_assoc.
Qed.

(** A file that is gone when its event is handled. *)
Lemma on_created_failure_witness :
  let ev := FilesystemWatcher.Event false
              (FilesystemWatcher.Source "gone.txt" "/home/me/vault/Inbox/gone.txt" None) in
  eval (FilesystemWatcher.on_created ∅ ev) (world_of empty_vault) = Ok ∅.
Proof.
  intros ev.
  assert ("/home/me/vault/Inbox/gone.txt" ∉ (∅ : gset string)) as H by set_solver.
  exact (proj1 (on_created_failure_is_not_marked ∅ ev (world_of empty_vault)
                  eq_refl H (or_introl eq_refl))).
Defined.

(** X17.  When the action file can be written, [on_created] writes it into
    Needs_Action and adds the path to the processed set; any later event for
    that path is then ignored: it changes neither the set nor the world. *)
Theorem on_created_success_is_marked (processed_files : gset string)
    (event : FilesystemWatcher.event) (w : world) (size : nat) (d : gmap string file) :
  let source := FilesystemWatcher.ev_source event in
  let path := FilesystemWatcher.src_absolute source in
  let w' := exec (FilesystemWatcher.on_created processed_files event) w in
  FilesystemWatcher.is_directory event = false ->
  path ∉ processed_files ->
  FilesystemWatcher.st_size source = Some size ->
  dirs (fs w) !! Needs_Action = Some d ->
  eval (FilesystemWatcher.on_created processed_files event) w
  = Ok ({[path]} ∪ processed_files) /\
  is_Some (lookup_file (fs w') Needs_Action
             (FilesystemWatcher.action_file_name (clock w (ticks w)) source)) /\
  forall event' w2,
    FilesystemWatcher.src_absolute (FilesystemWatcher.ev_source event') = path ->
    FilesystemWatcher.on_created ({[path]} ∪ processed_files) event' w2
    = (Ok ({[path]} ∪ processed_files), w2).
Proof.
  cbn zeta. intros Hdir Hin Hs Hd. unfold FilesystemWatcher.on_created, eval, exec.
  rewrite Hdir, bool_decide_eq_false_2 by done.
  unfold try_except. rewrite bind_run, logger_info_run, bind_run.
  set (w1 := MkWorld _ _ _ _).
  rewrite (fs_create_action_file_run w1 _ d size Hd Hs).
  cbn [fst snd mret M_ret fs dirs]. split; [done|]. split.
  - unfold lookup_file. cbn [dirs]. rewrite lookup_insert_eq. cbn.
    rewrite lookup_insert_eq. eauto.
  - intros event' w2 Hp. destruct (FilesystemWatcher.is_directory event'); [done|].
    rewrite Hp, bool_decide_eq_true_2; [done|]. set_solver.
Qed.

(** report.txt, dropped into a new vault. *)
Lemma on_created_success_witness :
  let ev := FilesystemWatcher.Event false report_txt in
  eval (FilesystemWatcher.on_created ∅ ev) (world_of empty_vault)
  = Ok ({["/home/me/vault/Inbox/report.txt"]} ∪ ∅).
Proof.
  intros ev.
  assert ("/home/me/vault/Inbox/report.txt" ∉ (∅ : gset string)) as H by set_solver.
  assert (dirs (fs (world_of empty_vault)) !! Needs_Action = Some ∅) as Hd
    by (vm_compute; reflexivity).
  exact (proj1 (on_created_success_is_marked ∅ ev (world_of empty_vault) 120 ∅
                  eq_refl H eq_refl Hd)).
Defined.

(** ** One turn of [BaseWatcher.run] *)

Section RunTurn.
Context {item : Type}.
Variable check_for_updates : M (list item).
Variable create_action_file : item -> M string.

Lemma create_all_app (pre post : list item) (w : world) :
  eval (BaseWatcher.create_all create_action_file pre) w = Ok tt ->
  BaseWatcher.create_all create_action_file (pre ++ post) w
  = BaseWatcher.create_all create_action_file post
      (exec (BaseWatcher.create_all create_action_file pre) w).
Proof.
  unfold BaseWatcher.create_all.
  set (body := fun item => _). revert w.
  induction pre as [|y pre IH]; intros w; cbn [app for_each]; [intros _; reflexivity|].
  unfold eval, exec. rewrite !bind_run.
  destruct (body y w) as [[[]|e] w1]; cbn [fst snd]; [|done].
  intros H. by apply IH.
Qed.

(** X18.  One turn of [BaseWatcher.run], for any watcher: when
    [create_action_file] raises for an item, the turn logs that one error and
    returns normally; the items before it have been created, the items after
    it are not attempted in this turn. *)
Theorem run_turn_stops_at_first_failure (pre post : list item) (x : item) (e : exn)
    (w : world) :
  let found := "Found " +:+ of_nat (length (pre ++ x :: post)) +:+ " new items" in
  let w0 := exec (logger_info found) (exec check_for_updates w) in
  let w1 := exec (BaseWatcher.create_all create_action_file pre) w0 in
  eval check_for_updates w = Ok (pre ++ x :: post) ->
  eval (BaseWatcher.create_all create_action_file pre) w0 = Ok tt ->
  eval (create_action_file x) w1 = Raise e ->
  BaseWatcher.run_turn check_for_updates create_action_file w
  = (Ok tt, exec (logger_error "Error: " e) (exec (create_action_file x) w1)).
Proof.
  cbn zeta. intros Hc Hpre Hx.
  unfold BaseWatcher.run_turn, try_except. rewrite bind_run.
  unfold eval, exec in *.
  destruct (check_for_updates w) as [r wc]. cbn [fst snd] in *. subst r.
  assert (BaseWatcher.process_items create_action_file (pre ++ x :: post)
          = (logger_info ("Found " +:+ of_nat (length (pre ++ x :: post)) +:+ " new items") ;;
             BaseWatcher.create_all create_action_file (pre ++ x :: post))) as ->.
  { unfold BaseWatcher.process_items. destruct (pre ++ x :: post) eqn:Ei; [|done].
    by destruct pre. }
  rewrite bind_run, logger_info_run.
  rewrite logger_info_run in Hpre, Hx. cbn [snd] in *.
  set (w0 := MkWorld _ _ _ _) in *.
  pose proof (create_all_app pre (x :: post) w0) as Happ. unfold eval, exec in Happ.
  rewrite Happ by done.
  unfold BaseWatcher.create_all at 1. cbn [for_each]. rewrite !bind_run.
  destruct (create_action_file x _) as [[a|e'] w2]; cbn [fst snd] in *; [done|].
  injection Hx as ->. reflexivity.
Qed.

End RunTurn.

(** Three mails, the second of which could not be extracted. *)
Lemma run_turn_witness :
  let second := GmailWatcher.extraction_failed "18c2f1" "timed out" in
  let w := world_of empty_vault in
  eval (BaseWatcher.run_turn (mret [invoice_mail; second; invoice_mail]) gmail_create) w
  = Ok tt.
Proof.
  intros second w.
  assert (eval (mret [invoice_mail; second; invoice_mail] : M _) w
          = Ok ([invoice_mail] ++ second :: [invoice_mail])) as H1 by reflexivity.
  assert (eval (BaseWatcher.create_all gmail_create [invoice_mail])
            (exec (logger_info ("Found " +:+ of_nat (length ([invoice_mail] ++ second :: [invoice_mail]))
                                +:+ " new items"))
               (exec (mret [invoice_mail; second; invoice_mail] : M _) w)) = Ok tt) as H2
    by (vm_compute; reflexivity).
  assert (eval (gmail_create second)
            (exec (BaseWatcher.create_all gmail_create [invoice_mail])
               (exec (logger_info ("Found " +:+ of_nat (length ([invoice_mail] ++ second :: [invoice_mail]))
                                   +:+ " new items"))
                  (exec (mret [invoice_mail; second; invoice_mail] : M _) w)))
          = Raise KeyError) as H3 by (vm_compute; reflexivity).
  unfold eval at 1.
  rewrite (run_turn_stops_at_first_failure _ gmail_create [invoice_mail] [invoice_mail]
             second KeyError w H1 H2 H3).
  reflexivity.
Defined.

(** ** From the watchers to the orchestrator *)


Lemma string_length_app (s t : string) :
  String.length (s +:+ t) = (String.length s + String.length t)%nat.
Proof. induction s as [|c s IH]; [done|]. rewrite append_cons. cbn. by rewrite IH. Qed.

Lemma drop_app_length (s t : string) (k : nat) :
  drop (String.length s + k) (s +:+ t) = drop k t.
Proof. induction s as [|c s IH]; [done|]. rewrite append_cons. cbn. exact IH. Qed.

Lemma is_md_app (a s : string) : is_md s = true -> is_md (a +:+ s) = true.
Proof.
  unfold is_md, endswith. intros [H1 H2]%andb_prop. apply Nat.leb_le in H1.
  apply andb_true_intro. rewrite string_length_app. split.
  - apply Nat.leb_le. lia.
  - replace (String.length a + String.length s - String.length ".md")%nat
      with (String.length a + (String.length s - String.length ".md"))%nat by lia.
    by rewrite drop_app_length.
Qed.

Lemma fs_action_file_name_is_md (t : datetime) (source : FilesystemWatcher.source) :
  is_md (FilesystemWatcher.action_file_name t source) = true.
Proof. unfold FilesystemWatcher.action_file_name. by repeat apply is_md_app. Qed.

Lemma gmail_action_file_name_is_md (t : datetime) (mail : GmailWatcher.email) :
  is_md (GmailWatcher.action_file_name t mail) = true.
Proof. unfold GmailWatcher.action_file_name. by repeat apply is_md_app. Qed.

Lemma length_glob_insert (d : gmap string file) (name : string) (x : file) :
  is_md name = true ->
  length (glob_md_dir (Some (<[name := x]> d)))
  = if bool_decide (is_Some (d !! name)) then length (glob_md_dir (Some d))
    else S (length (glob_md_dir (Some d))).
Proof.
  intros Hmd. destruct (bool_decide _) eqn:Hb.
  - apply bool_decide_eq_true in Hb.
    apply Permutation_length, NoDup_Permutation; try apply NoDup_glob_md_dir.
    intros m. rewrite !elem_of_glob_md_dir.
    split; intros [Hm (dd & [= <-] & Hs)]; (split; [done|]); eexists; (split; [done|]).
    + destruct (decide (m = name)) as [->|Hne]; [done|]. by rewrite lookup_insert_ne in Hs.
    + destruct (decide (m = name)) as [->|Hne]; [by rewrite lookup_insert_eq|].
      by rewrite lookup_insert_ne.
  - apply bool_decide_eq_false in Hb.
    change (S (length (glob_md_dir (Some d)))) with (length (name :: glob_md_dir (Some d))).
    apply Permutation_length, NoDup_Permutation; try apply NoDup_glob_md_dir.
    { constructor; [|apply NoDup_glob_md_dir].
      intros [_ (dd & [= <-] & Hs)]%elem_of_glob_md_dir. done. }
    intros m. rewrite elem_of_cons, !elem_of_glob_md_dir. split.
    + intros [Hm (dd & [= <-] & Hs)].
      destruct (decide (m = name)) as [->|Hne]; [by left|]. right. split; [done|].
      exists d. split; [done|]. by rewrite lookup_insert_ne in Hs.
    + intros [->|[Hm (dd & [= <-] & Hs)]]; (split; [done|]); eexists; (split; [done|]).
      * by rewrite lookup_insert_eq.
      * destruct (decide (m = name)) as [->|Hne]; [by rewrite lookup_insert_eq|].
        by rewrite lookup_insert_ne.
Qed.

(** X20.  A record that the file watcher has written is seen by the
    orchestrator: its name ends in [.md], [check_needs_action] lists it, and
    the count of pending actions is one more than before, or the same when a
    record of that name was replaced; the other counts of files are as
    before. *)
Theorem created_record_is_counted (w : world) (source : FilesystemWatcher.source)
    (size : nat) (d : gmap string file) :
  dirs (fs w) !! Needs_Action = Some d ->
  FilesystemWatcher.st_size source = Some size ->
  let name := FilesystemWatcher.action_file_name (clock w (ticks w)) source in
  let w' := exec (FilesystemWatcher.create_action_file source) w in
  (exists l, eval check_needs_action w' = Ok l /\ name ∈ l) /\
  needs_action_count (counts_of (fs w'))
  = (if bool_decide (is_Some (d !! name)) then needs_action_count (counts_of (fs w))
     else S (needs_action_count (counts_of (fs w)))) /\
  done_count (counts_of (fs w')) = done_count (counts_of (fs w)) /\
  pending_approval_count (counts_of (fs w')) = pending_approval_count (counts_of (fs w)).
Proof.
  intros Hd Hs. cbn zeta. unfold exec.
  rewrite (fs_create_action_file_run w source d size Hd Hs). cbn [snd].
  set (name := FilesystemWatcher.action_file_name (clock w (ticks w)) source).
  pose proof (fs_action_file_name_is_md (clock w (ticks w)) source) as Hmd. fold name in Hmd.
  split.
  - eexists. unfold eval. rewrite check_needs_action_run. cbn [fst fs dirs].
    split; [reflexivity|]. rewrite lookup_insert_eq. apply elem_of_glob_md_dir.
    split; [done|]. eexists. split; [done|]. by rewrite lookup_insert_eq.
  - unfold counts_of. cbn [needs_action_count done_count pending_approval_count fs dirs].
    rewrite lookup_insert_eq, !lookup_insert_ne by done. rewrite Hd.
    split; [|done]. by apply length_glob_insert.
Qed.

(** report.txt, dropped into a new vault: one pending action. *)
Lemma created_record_witness :
  let w := world_of empty_vault in
  needs_action_count (counts_of (fs (exec (FilesystemWatcher.create_action_file report_txt) w)))
  = 1%nat.
Proof.
  intros w.
  assert (dirs (fs w) !! Needs_Action = Some ∅) as Hd by (vm_compute; reflexivity).
  pose proof (created_record_is_counted w report_txt 120 ∅ Hd eq_refl) as (_ & H & _).
  exact H.
Defined.

Lemma append_inj_l (a s t : string) : a +:+ s = a +:+ t -> s = t.
Proof. induction a as [|c a IH]; [done|]. rewrite !append_cons. intros [= H]. by apply IH. Qed.

Lemma append_inj_r (s t z : string) : s +:+ z = t +:+ z -> s = t.
Proof.
  revert t. induction s as [|c s IH]; intros [|d t]; try done.
  - intros H. exfalso. apply (f_equal String.length) in H.
    rewrite !string_length_app in H. cbn in H. lia.
  - intros H. exfalso. apply (f_equal String.length) in H.
    rewrite !string_length_app in H. cbn in H. lia.
  - rewrite !append_cons. intros [= -> H]. f_equal. by apply IH.
Qed.

(** X21.  Two files dropped at the same time get the same record name exactly
    when their names have the same stem. *)
Theorem same_time_names_collide_iff_same_stem (t : datetime)
    (s1 s2 : FilesystemWatcher.source) :
  FilesystemWatcher.action_file_name t s1 = FilesystemWatcher.action_file_name t s2
  <-> FilesystemWatcher.stem (FilesystemWatcher.src_name s1)
      = FilesystemWatcher.stem (FilesystemWatcher.src_name s2).
Proof.
  unfold FilesystemWatcher.action_file_name. split; [|by intros ->].
  intros H. do 3 apply append_inj_l in H. by apply append_inj_r in H.
Qed.

(** ** The categories of the audit *)

Lemma category_size_append_to (key k f : string) (cats : categories) :
  category_size key (append_to k f cats)
  = (category_size key cats + (if String.eqb k key then 1 else 0))%nat.
Proof.
  induction cats as [|[k0 l] cats IH]; cbn [append_to category_size].
  - destruct (String.eqb k key); done.
  - destruct (String.eqb k0 k) eqn:E0; cbn [category_size].
    + apply String.eqb_eq in E0 as ->. destruct (String.eqb k key); [|lia].
      rewrite length_app. done.
    + destruct (String.eqb k0 key) eqn:E1; [|exact IH].
      apply String.eqb_eq in E1 as ->.
      rewrite String.eqb_sym, E0. lia.
Qed.

Lemma categorize_loop_sizes (X : folder) (files : list string) (cats : categories)
    (w : world) (cats' : categories) (key : string) :
  eval (categorize_loop X files cats) w = Ok cats' ->
  category_size key cats'
  = (category_size key cats + length (List.filter (has_category (fs w) X key) files))%nat.
Proof.
  revert cats w. induction files as [|f files IH]; intros cats w;
    cbn [categorize_loop List.filter].
  - unfold eval. cbn. intros [= <-]. cbn. lia.
  - unfold eval. rewrite bind_run. unfold read_text. run_monad.
    assert (has_category (fs w) X key f
            = match lookup_file (fs w) X f with
              | Some x => match text x with
                          | Some c => String.eqb (category_of (lower c)) key
                          | None => false
                          end
              | None => false
              end) as -> by done.
    destruct (lookup_file (fs w) X f) as [x|] eqn:Hx.
    + destruct (text x) as [c|] eqn:Hc.
      * intros H. rewrite (IH _ _ H), category_size_append_to.
        destruct (String.eqb _ key); cbn [length]; lia.
      * intros H. by rewrite (IH _ _ H).
    + intros H. by rewrite (IH _ _ H).
Qed.

Lemma concat_append_to (key f : string) (cats : categories) :
  concat (append_to key f cats).*2 ≡ₚ concat cats.*2 ++ [f].
Proof.
  induction cats as [|[k l] cats IH]; cbn [append_to]; [done|].
  destruct (String.eqb k key); cbn [fmap list_fmap snd concat].
  - rewrite <- !app_assoc. apply Permutation_app_head, Permutation_app_comm.
  - rewrite IH. by rewrite app_assoc.
Qed.

Lemma append_to_inv (Q : string -> string -> Prop) (key f : string) (cats : categories) :
  (forall k l g, (k, l) ∈ cats -> g ∈ l -> Q k g) -> Q key f ->
  forall k l g, (k, l) ∈ append_to key f cats -> g ∈ l -> Q k g.
Proof.
  intros Hc Hf. induction cats as [|[k0 l0] cats IH]; cbn [append_to]; intros k l g.
  - intros [= -> ->]%list_elem_of_singleton ->%list_elem_of_singleton. done.
  - destruct (String.eqb k0 key) eqn:E.
    + apply String.eqb_eq in E as ->.
      intros [[= -> ->]|Hin]%elem_of_cons.
      * intros [Hg| ->%list_elem_of_singleton]%elem_of_app; [|done].
        apply (Hc key l0); [by left|done].
      * apply Hc. by right.
    + intros [[= -> ->]|Hin]%elem_of_cons.
      * apply Hc. by left.
      * apply IH; [|done]. intros k' l' g' H. apply Hc. by right.
Qed.

Lemma categorize_loop_run (X : folder) (files : list string) (cats : categories)
    (w : world) :
  exists cats' tr,
    categorize_loop X files cats w
    = (Ok cats', MkWorld (fs w) (clock w) (ticks w) (trace w ++ tr)) /\
    concat cats'.*2 ≡ₚ concat cats.*2 ++ List.filter (is_text (fs w) X) files /\
    forall Q : string -> string -> Prop,
      (forall k l g, (k, l) ∈ cats -> g ∈ l -> Q k g) ->
      (forall f x c, f ∈ files -> lookup_file (fs w) X f = Some x -> text x = Some c ->
                     Q (category_of (lower c)) f) ->
      forall k l g, (k, l) ∈ cats' -> g ∈ l -> Q k g.
Proof.
  revert cats w. induction files as [|f files IH]; intros cats w;
    cbn [categorize_loop List.filter].
  - exists cats, []. run_monad. rewrite !app_nil_r, world_eta. split; [done|].
    split; [done|]. auto.
  - rewrite bind_run. unfold read_text. run_monad.
    assert (is_text (fs w) X f
            = match lookup_file (fs w) X f with
              | Some x => bool_decide (is_Some (text x))
              | None => false
              end) as -> by done.
    destruct (lookup_file (fs w) X f) as [x|] eqn:Hx.
    + destruct (text x) as [c|] eqn:Hc.
      * destruct (IH (append_to (category_of (lower c)) f cats) w)
          as (cats' & tr & E & HP & HQ).
        exists cats', tr. split; [exact E|]. split.
        { rewrite HP, concat_append_to. rewrite bool_decide_eq_true_2 by eauto.
          by rewrite <- app_assoc. }
        intros Q H1 H2. apply HQ.
        -- apply append_to_inv; [done|]. apply (H2 f x c); [by left|done|done].
        -- intros g y d Hg. apply H2. by right.
      * set (w1 := MkWorld _ _ _ _).
        destruct (IH cats w1) as (cats' & tr & E & HP & HQ).
        exists cats'. eexists. split.
        { rewrite E. unfold w1. cbn [fs clock ticks trace]. rewrite <- app_assoc.
          reflexivity. }
        split.
        { rewrite bool_decide_eq_false_2; [done|]. by intros [? ?]. }
        intros Q H1 H2. apply HQ; [done|]. intros g y d Hg. apply H2. by right.
    + set (w1 := MkWorld _ _ _ _).
      destruct (IH cats w1) as (cats' & tr & E & HP & HQ).
      exists cats'. eexists. split.
      { rewrite E. unfold w1. cbn [fs clock ticks trace]. rewrite <- app_assoc.
        reflexivity. }
      split; [done|].
      intros Q H1 H2. apply HQ; [done|]. intros g y d Hg. apply H2. by right.
Qed.

(** X22.  [categorize_files] never raises and changes no file.  Its lists hold
    the files that are text, each as often as it was given, and none that is
    missing or not text; a file is in the list of the key that the tests pick
    for its lowered text; and the list of a key is as long as the number of
    given files with that key. *)
Theorem categorize_files_partitions (X : folder) (files : list string) (w : world) :
  exists cats,
    eval (categorize_files X files) w = Ok cats /\
    fs (exec (categorize_files X files) w) = fs w /\
    concat cats.*2 ≡ₚ List.filter (is_text (fs w) X) files /\
    (forall k l f, (k, l) ∈ cats -> f ∈ l ->
       exists x c, lookup_file (fs w) X f = Some x /\ text x = Some c /\
                   k = category_of (lower c)) /\
    (forall key, category_size key cats
                 = length (List.filter (has_category (fs w) X key) files)).
Proof.
  destruct (categorize_loop_run X files [] w) as (cats & tr & E & HP & HQ).
  exists cats. unfold categorize_files, eval, exec. rewrite E. cbn [fst snd fs].
  split; [done|]. split; [done|]. split; [exact HP|]. split.
  2:{ intros key. apply (categorize_loop_sizes X files [] w cats key).
      unfold eval. by rewrite E. }
  apply (HQ (fun k f => exists x c, lookup_file (fs w) X f = Some x /\ text x = Some c /\
                                    k = category_of (lower c))).
  - intros k l g Hin. by apply elem_of_nil in Hin.
  - intros f x c _ Hx Hc. by exists x, c.
Qed.

Lemma opportunities_loop_length (cats : categories) (acc : list opportunity) :
  (5 * length (opportunities_loop cats acc) <= 5 * length acc + length (concat cats.*2))%nat.
Proof.
  revert acc. induction cats as [|[k l] cats IH]; intros acc; cbn [opportunities_loop].
  - cbn. lia.
  - cbn [fmap list_fmap snd concat]. rewrite length_app.
    destruct (5 <=? length l)%nat eqn:E.
    + apply Nat.leb_le in E. specialize (IH (acc ++ [Opportunity (title k)
         (of_nat (length l) +:+ " this week") (of_nat (length l * 5) +:+ " minutes")
         (if (10 <=? length l)%nat then "High" else "Medium")])).
      rewrite length_app in IH. cbn [length] in IH. lia.
    + specialize (IH acc). lia.
Qed.

Lemma opportunities_loop_elem (cats : categories) (acc : list opportunity) (o : opportunity) :
  o ∈ opportunities_loop cats acc ->
  o ∈ acc \/ exists k l, (k, l) ∈ cats /\ (5 <= length l)%nat /\
                         task_type o = title k /\
                         priority o = if (10 <=? length l)%nat then "High" else "Medium".
Proof.
  revert acc. induction cats as [|[k l] cats IH]; intros acc; cbn [opportunities_loop].
  - by left.
  - intros [H|(k' & l' & Hin & H)]%IH.
    + destruct (5 <=? length l)%nat eqn:E; [|by left].
      apply elem_of_app in H as [H| ->%list_elem_of_singleton]; [by left|].
      right. exists k, l. split; [by left|]. by apply Nat.leb_le in E.
    + right. exists k', l'. split; [by right|done].
Qed.

Lemma category_of_names (content : string) :
  category_of content ∈ ["emails"; "whatsapp"; "linkedin"; "approvals"; "plans"; "other"].
Proof.
  unfold category_of.
  repeat (match goal with |- context [if ?b then _ else _] => destruct b end);
    set_solver.
Qed.

(** X23.  The automation opportunities found for the categories of any list
    of files: there are at most a fifth as many as files; each is named after
    one of the six keys, capitalized by [str.title]; each stands for a list of
    five files or more, and its priority is High from ten files on, Medium
    below. *)
Theorem automation_needs_five_files_of_a_kind (X : folder) (files : list string)
    (w : world) :
  exists cats,
    eval (categorize_files X files) w = Ok cats /\
    let opps := identify_automation_opportunities cats in
    (5 * length opps <= length files)%nat /\
    forall o, o ∈ opps ->
      task_type o ∈ ["Emails"; "Whatsapp"; "Linkedin"; "Approvals"; "Plans"; "Other"] /\
      exists k l, (k, l) ∈ cats /\ (5 <= length l)%nat /\
                  priority o = if (10 <=? length l)%nat then "High" else "Medium".
Proof.
  destruct (categorize_loop_run X files [] w) as (cats & tr & E & HP & HQ).
  exists cats. unfold categorize_files, eval. rewrite E. cbn [fst]. split; [done|].
  cbn zeta. unfold identify_automation_opportunities. split.
  - pose proof (opportunities_loop_length cats []) as H. cbn [length] in H.
    apply Permutation_length in HP. cbn in HP.
    pose proof (List.filter_length_le (is_text (fs w) X) files). lia.
  - intros o [H|(k & l & Hin & H5 & Ht & Hp)]%opportunities_loop_elem;
      [by apply elem_of_nil in H|].
    split; [|by exists k, l].
    assert (l <> []) as Hl by (intros ->; cbn in H5; lia).
    destruct l as [|g l]; [done|].
    assert (k ∈ ["emails"; "whatsapp"; "linkedin"; "approvals"; "plans"; "other"]) as Hk.
    { apply (HQ (fun k _ => k ∈ ["emails"; "whatsapp"; "linkedin"; "approvals"; "plans"; "other"]))
        with (l := g :: l) (g := g); [|..|done|by left].
      - intros ? ? ? Hn. by apply elem_of_nil in Hn.
      - intros. apply category_of_names. }
    rewrite Ht. clear -Hk.
    repeat (apply elem_of_cons in Hk as [->|Hk]; [vm_compute; set_solver|]).
    by apply elem_of_nil in Hk.
Qed.

(** ** Mail records in the audit *)

Lemma startswith_app_r (p s t : string) :
  startswith p s = true -> startswith p (s +:+ t) = true.
Proof.
  unfold startswith. revert s. induction p as [|a p IH]; intros s.
  - intros _. by destruct (s +:+ t).
  - destruct s as [|b s]; [done|]. rewrite append_cons. cbn [String.prefix].
    destruct (ascii_dec a b); [apply IH|done].
Qed.

Lemma contains_app_r (p s t : string) :
  contains p s = true -> contains p (s +:+ t) = true.
Proof.
  induction s as [|c s IH].
  - cbn [contains]. rewrite orb_false_r. intros H.
    pose proof (startswith_app_r p "" t H) as H'.
    change ("" +:+ t) with t in *. destruct t; cbn [contains]; by rewrite H'.
  - rewrite append_cons. cbn [contains]. intros [H|H]%orb_prop.
    + pose proof (startswith_app_r p (String c s) t H) as H'.
      rewrite append_cons in H'. by rewrite H'.
    + by rewrite (IH H), orb_true_r.
Qed.

(** The text of every record that the Gmail watcher writes is categorised as
    an email. *)
Lemma gmail_content_category (mail : GmailWatcher.email)
    (sender_name sender_email to date priority : string) (received detected : datetime) :
  category_of (lower (GmailWatcher.action_file_content mail sender_name sender_email
                        to date priority received detected)) = "emails".
Proof.
  unfold category_of, GmailWatcher.action_file_content.
  rewrite lower_app, contains_app_r; [done|]. vm_compute. reflexivity.
Qed.

Lemma gmail_create_action_file_text (w : world) (ids : gset string)
    (mail : GmailWatcher.email) (d : gmap string file) (to date : string) :
  dirs (fs w) !! Needs_Action = Some d ->
  GmailWatcher.em_to mail = Some to -> GmailWatcher.em_date mail = Some date ->
  let name := GmailWatcher.action_file_name (clock w (ticks w)) mail in
  let w' := exec (GmailWatcher.create_action_file ids mail) w in
  exists sender_name sender_email priority received detected t,
    lookup_file (fs w') Needs_Action name
    = Some (File (Some (GmailWatcher.action_file_content mail sender_name sender_email
                          to date priority received detected)) t).
Proof.
  intros Hd Hto Hdate name. cbn zeta.
  unfold exec, GmailWatcher.create_action_file, GmailWatcher.get_key, write_text.
  run_monad. rewrite Hto, Hdate.
  destruct (contains "<" (GmailWatcher.em_from mail)); cbn [fs dirs]; rewrite Hd;
    cbn [snd fs]; unfold lookup_file; cbn [dirs]; rewrite lookup_insert_eq;
    cbn [mbind option_bind]; rewrite lookup_insert_eq; do 6 eexists; reflexivity.
Qed.

(** X24.  A record that the Gmail watcher has written is listed by
    [check_needs_action], and [categorize_files] puts it under [emails],
    whatever the mail says. *)
Theorem gmail_records_are_categorized_as_emails (w : world) (ids : gset string)
    (mail : GmailWatcher.email) (d : gmap string file) (to date : string) :
  dirs (fs w) !! Needs_Action = Some d ->
  GmailWatcher.em_to mail = Some to -> GmailWatcher.em_date mail = Some date ->
  let name := GmailWatcher.action_file_name (clock w (ticks w)) mail in
  let w' := exec (GmailWatcher.create_action_file ids mail) w in
  eval (GmailWatcher.create_action_file ids mail) w
  = Ok (name, {[GmailWatcher.em_id mail]} ∪ ids) /\
  eval (categorize_files Needs_Action [name]) w' = Ok [("emails", [name])] /\
  exists l, eval check_needs_action w' = Ok l /\ name ∈ l.
Proof.
  intros Hd Hto Hdate. cbn zeta.
  destruct (gmail_create_action_file_text w ids mail d to date Hd Hto Hdate)
    as (sn & se & pr & rc & dt & t & Hx).
  destruct (gmail_create_action_file_run w ids mail d to date Hd Hto Hdate) as [content E].
  split; [unfold eval; by rewrite E|]. split.
  - set (w' := exec _ w) in *.
    unfold categorize_files, eval. cbn [categorize_loop]. rewrite bind_run.
    unfold read_text. run_monad. rewrite Hx. cbn [text].
    by rewrite gmail_content_category.
  - unfold exec, eval. rewrite E, check_needs_action_run. cbn [fst snd fs dirs].
    eexists. split; [reflexivity|]. rewrite lookup_insert_eq. apply elem_of_glob_md_dir.
    split; [apply gmail_action_file_name_is_md|]. eexists. split; [done|].
    by rewrite lookup_insert_eq.
Qed.

(** The mail about the invoice, written into a new vault. *)
Lemma gmail_records_witness :
  let w := world_of empty_vault in
  eval (categorize_files Needs_Action ["EMAIL_20261103_133500_Invoice_overdue.md"])
    (exec (GmailWatcher.create_action_file ∅ invoice_mail) w)
  = Ok [("emails", ["EMAIL_20261103_133500_Invoice_overdue.md"])].
Proof.
  intros w.
  assert (dirs (fs w) !! Needs_Action = Some ∅) as Hd by (vm_compute; reflexivity).
  pose proof (gmail_records_are_categorized_as_emails w ∅ invoice_mail ∅
                "me@example.org" "Tue, 3 Nov 2026 13:30:00 +0000" Hd eq_refl eq_refl)
    as (_ & H & _).
  etrans; [|exact H]. vm_compute. reflexivity.
Defined.

(** ** The impact of stale items; fields and bodies *)

(** X25.  In the bottleneck list of the audit, an item of Needs_Action is
    never rated High: the audit hands the analysis the files of the current
    week only, so as long as the analysis reads the clock within seven days of
    the week start, every entry that is not an expired approval has impact
    Medium. *)
Theorem audit_never_rates_a_stale_item_high (fi : string -> option parsed) (w : world)
    (bs : list bottleneck) :
  readable (fs w) Pending_Approval (glob_md_dir (dirs (fs w) !! Pending_Approval)) ->
  clock w (S (ticks w)) < get_week_start (clock w (ticks w)) + timedelta_days 7 ->
  eval (generate_audit_bottlenecks fi) w = Ok bs ->
  forall b, b ∈ bs -> b = expired_bottleneck (item b) \/ impact b = "Medium".
Proof.
  intros Hr Hweek Hev b Hb.
  destruct (generate_audit_bottlenecks_run fi w) as (needs & tr & Hgen & Hneeds).
  set (w1 := MkWorld (fs w) (clock w) (S (ticks w)) (trace w ++ tr)) in *.
  destruct (analyze_bottlenecks_run fi needs
              (glob_md_dir (dirs (fs w) !! Pending_Approval)) w1 Hr)
    as (bs' & k & Hrun & _ & Hexp & _).
  unfold eval in Hev. rewrite Hgen, Hrun in Hev. cbn [fst] in Hev.
  injection Hev as <-. apply elem_of_app in Hb as [Hb|Hb].
  - right. apply elem_of_stale_entries in Hb as (g & y & Hg & Hy & Hage & ->).
    destruct (get_files_in_week_recent _ _ _ _ Hneeds g Hg) as (z & Hz & Hrecent & _).
    cbn [fs w1] in Hy, Hz. rewrite Hy in Hz. injection Hz as <-.
    cbn [impact stale_bottleneck]. cbn [clock ticks w1] in *.
    assert (days (clock w (S (ticks w)) - mtime y) < 7) as Hlt.
    { unfold days, timedelta_days in *. apply Z.div_lt_upper_bound; [done|]. lia. }
    apply Z.ltb_lt in Hlt. by rewrite Hlt.
  - left. destruct (Hexp b Hb) as (g & _ & ->). done.
Qed.

(** A record modified on Monday afternoon, audited on the Sunday after. *)
Lemma audit_never_high_witness :
  let w := MkWorld (vault_with Needs_Action
                      {["todo.md" := File (Some "type: email") (mk 2026 11 2 14 0 0 0)]})
             (ticking (mk 2026 11 8 13 35 0 0) 1000000) 0 [] in
  let bs := [Bottleneck "Item in Needs_Action for 5 days" "todo.md" "Medium"
               "Review and process or archive"] in
  eval (generate_audit_bottlenecks fromisoformat_date) w = Ok bs /\
  forall b, b ∈ bs -> b = expired_bottleneck (item b) \/ impact b = "Medium".
Proof.
  intros w bs.
  assert (readable (fs w) Pending_Approval
            (glob_md_dir (dirs (fs w) !! Pending_Approval))) as Hr.
  { assert (glob_md_dir (dirs (fs w) !! Pending_Approval) = []) as ->
      by (vm_compute; reflexivity).
    intros g Hg. by apply elem_of_nil in Hg. }
  assert (clock w (S (ticks w)) < get_week_start (clock w (ticks w)) + timedelta_days 7)
    as Hc by (vm_compute; reflexivity).
  assert (eval (generate_audit_bottlenecks fromisoformat_date) w = Ok bs) as He
    by (vm_compute; reflexivity).
  split; [exact He|].
  exact (audit_never_rates_a_stale_item_high fromisoformat_date w bs Hr Hc He).
Defined.

Lemma take_app_length (s t : string) : take (String.length s) (s +:+ t) = s.
Proof. induction s as [|c s IH]; [by destruct t|]. rewrite append_cons. cbn. by rewrite IH. Qed.

Lemma startswith_refl (s : string) : startswith s s = true.
Proof.
  unfold startswith. induction s as [|c s IH]; [done|]. cbn.
  by destruct (ascii_dec c c).
Qed.

Lemma lstrip_spaces (ws v : string) :
  all_chars isspace ws = true -> lstrip (ws +:+ v) = lstrip v.
Proof.
  induction ws as [|c ws IH]; [done|]. cbn [all_chars]. intros [Hc Hw]%andb_prop.
  rewrite append_cons. cbn [lstrip]. by rewrite Hc, IH.
Qed.

(** X26.  [extract_field] of the orchestrator, for a field name of letters, digits
    and underscores and a text that begins with it: the white space after the
    colon is skipped, line ends included, and the value is the rest of the
    line on which the first other character stands, stripped.  So a field with an empty value takes the text of the
    next line that is not blank. *)
Theorem orchestrator_extract_field_skips_blank_lines (field ws v tail : string) (c : ascii) :
  all_chars (fun a => isalnum a || Ascii.eqb a "_") field = true ->
  all_chars isspace ws = true ->
  isspace c = false -> one_line (String c v) = true ->
  tail = "" \/ (exists r, tail = String NL r) ->
  Orchestrator.extract_field (field +:+ ":" +:+ ws +:+ String c v +:+ tail) field
  = Some (strip (String c v)).
Proof.
  intros _ Hws Hc Hv Htail. unfold Orchestrator.extract_field.
  assert (search_field field true (field +:+ ":" +:+ ws +:+ String c v +:+ tail)
          = Some (String c v)) as ->; [|done].
  assert (match_field_here field (field +:+ ":" +:+ ws +:+ String c v +:+ tail)
          = Some (String c v)) as Hm.
  { unfold match_field_here.
    rewrite <- (append_assoc field ":").
    rewrite take_app_length, startswith_refl.
    rewrite <- (Nat.add_0_r (String.length (field +:+ ":"))), drop_app_length.
    cbn [drop]. rewrite lstrip_spaces by done.
    rewrite append_cons. cbn [lstrip]. rewrite Hc.
    rewrite <- append_cons.
    destruct Htail as [->|[r ->]].
    - rewrite append_nil_r, split_one_line by done. done.
    - rewrite split_app_NL by done. done. }
  destruct (field +:+ ":" +:+ ws +:+ String c v +:+ tail) eqn:E;
    cbn [search_field]; by rewrite Hm.
Qed.

(** An empty action field, followed by a status line. *)
Lemma orchestrator_extract_field_witness :
  Orchestrator.extract_field
    ("action:" +:+ String NL "" +:+ "status: pending" +:+ String NL "---") "action"
  = Some "status: pending".
Proof.
  assert (all_chars (fun a => isalnum a || Ascii.eqb a "_") "action" = true) as H0
    by (vm_compute; reflexivity).
  assert (all_chars isspace (String NL "") = true) as H1 by (vm_compute; reflexivity).
  assert (isspace "s" = false) as H2 by (vm_compute; reflexivity).
  assert (one_line "status: pending" = true) as H3 by (vm_compute; reflexivity).
  exact (orchestrator_extract_field_skips_blank_lines "action" (String NL "")
           "tatus: pending" (String NL "---") "s" H0 H1 H2 H3
           (or_intror (ex_intro _ "---" eq_refl))).
Defined.


